(** * Sophia: the [Net] class of net.py

    A shallow embedding of the graph-assembly and state-orchestration logic
    of [src/net.py] (class [Net]), and the properties of it that the
    specification states.

    The symbolic backend (Theano) is represented by a small expression type
    whose nodes are the ones net.py builds; shared variables live in a heap
    indexed by locations, so that the aliasing between [_v_params],
    [_v_params_wo_init] and [_v_params_for_init] is the one of the source.
    The layer classes, the optimizer plugins, the loss primitive and the
    numeric kernels are not part of net.py: they are parameters of the
    development. *)

From Stdlib Require Import ZArith QArith List Permutation Lia.
From stdpp Require Import base option gmap strings list fin_maps.
Import ListNotations.

Local Open Scope string_scope.
Local Open Scope list_scope.
Local Open Scope Z_scope.

(** ** Python values and ordered dictionaries *)

Module Py.

(** The values an option can hold.  A finite Python float is the rational
    it denotes. *)
Inductive value :=
| VNone
| VBool (b : bool)
| VInt (z : Z)
| VFloat (q : Q)
| VStr (s : string).

(** [bool(v)] *)
Definition truthy (v : value) : bool :=
  match v with
  | VNone => false
  | VBool b => b
  | VInt z => negb (z =? 0)%Z
  | VFloat q => negb (Qeq_bool q 0)
  | VStr s => negb (String.eqb s "")
  end.

(** Numbers compare by value across bool, int and float. *)
Definition num_of (v : value) : option Q :=
  match v with
  | VBool b => Some (inject_Z (if b then 1 else 0))
  | VInt z => Some (inject_Z z)
  | VFloat q => Some q
  | _ => None
  end.

(** [a == b] *)
Definition value_eqb (a b : value) : bool :=
  match num_of a, num_of b with
  | Some x, Some y => Qeq_bool x y
  | None, None =>
      match a, b with
      | VNone, VNone => true
      | VStr s, VStr t => String.eqb s t
      | _, _ => false
      end
  | _, _ => false
  end.

(** The integer an option denotes where the code uses it as one. *)
Definition as_int (v : value) : option Z :=
  match v with
  | VBool b => Some (if b then 1 else 0)
  | VInt z => Some z
  | _ => None
  end.

(** An [OrderedDict] with string keys: the items in insertion order. *)
Definition odict (V : Type) := list (string * V).

Section ODict.
Context {V : Type}.

(** [d[k]] *)
Fixpoint od_get (k : string) (d : odict V) : option V :=
  match d with
  | [] => None
  | (k', v) :: d' => if String.eqb k k' then Some v else od_get k d'
  end.

(** [k in d] *)
Definition od_mem (k : string) (d : odict V) : bool :=
  match od_get k d with Some _ => true | None => false end.

(** [d[k] = v]: an existing key keeps its position, a new one goes last. *)
Fixpoint od_set (k : string) (v : V) (d : odict V) : odict V :=
  match d with
  | [] => [(k, v)]
  | (k', v') :: d' =>
      if String.eqb k k' then (k', v) :: d' else (k', v') :: od_set k v d'
  end.

Definition od_keys (d : odict V) : list string := map fst d.
Definition od_values (d : odict V) : list V := map snd d.

(** [OrderedDict.__eq__]: same length and the same items in order. *)
Fixpoint od_eqb (veq : V -> V -> bool) (a b : odict V) : bool :=
  match a, b with
  | [], [] => true
  | (k, v) :: a', (k', v') :: b' =>
      String.eqb k k' && veq v v' && od_eqb veq a' b'
  | _, _ => false
  end.
End ODict.

(** [k[-n:]] for [n > 0] *)
Definition str_last (n : nat) (k : string) : string :=
  String.substring (String.length k - n)%nat n k.

(** [k[:-n]] for [n > 0] *)
Definition str_drop_last (n : nat) (k : string) : string :=
  String.substring 0 (String.length k - n)%nat k.

(** [k[n:]] *)
Definition str_from (n : nat) (k : string) : string :=
  String.substring n (String.length k - n)%nat k.

(** The directory part of a path: what precedes its last [/]; empty when
    the path has none, or only a leading one. *)
Fixpoint has_slash (s : string) : bool :=
  match s with
  | EmptyString => false
  | String c s' => String.eqb (String c EmptyString) "/" || has_slash s'
  end.

Fixpoint dirname (s : string) : string :=
  match s with
  | EmptyString => EmptyString
  | String c s' => if has_slash s' then String c (dirname s') else EmptyString
  end.

(** [str(i)] for the layer indices [range(D)] *)
Fixpoint digits (fuel n : nat) (acc : string) : string :=
  let acc' := String (Ascii.ascii_of_nat (48 + n mod 10)%nat) acc in
  match fuel with
  | O => acc'
  | S fuel' => if (n / 10 =? 0)%nat then acc' else digits fuel' (n / 10) acc'
  end.
Definition str_of_nat (n : nat) : string := digits n n "".

(** Resolution of the start of a slice [x[i:]] on an axis of length [len]:
    a negative index counts from the end, and the result is clamped. *)
Definition slice_start (i : Z) (len : nat) : nat :=
  if (i <? 0)%Z then Z.to_nat (Z.max 0 (i + Z.of_nat len))
  else Nat.min (Z.to_nat i) len.

(** [xs[i:]] *)
Definition slice_from {A} (i : Z) (xs : list A) : list A :=
  drop (slice_start i (length xs)) xs.

End Py.
Export Py.

(** ** Tensors *)

Module Tensor.

(** An element as it is stored: the value of an [int32], the bit pattern of
    a [float32].  The all-zero pattern is the zero of both. *)
Definition scalar := Z.

(** Arrays of rank 0 to 3: the ranks of the ports and shared variables. *)
Inductive tensor :=
| T0 (x : scalar)
| T1 (v : list scalar)
| T2 (m : list (list scalar))
| T3 (c : list (list (list scalar))).

(** [t.ndim] *)
Definition rank (t : tensor) : nat :=
  match t with T0 _ => 0 | T1 _ => 1 | T2 _ => 2 | T3 _ => 3 end.

Definition zero_row (v : list scalar) : list scalar := map (fun _ => 0) v.

(** [zeros_like(t)] *)
Definition zeros_like (t : tensor) : tensor :=
  match t with
  | T0 _ => T0 0
  | T1 v => T1 (zero_row v)
  | T2 m => T2 (map zero_row m)
  | T3 c => T3 (map (map zero_row) c)
  end.

(** [n] copies of the rows [m], one block after the other. *)
Definition stack_rows {A} (n : nat) (m : list A) : list A :=
  concat (repeat m n).

(** [tile(t, (n, 1))]: a vector becomes [n] equal rows. *)
Definition tile_rows (n : nat) (t : tensor) : tensor :=
  match t with
  | T0 x => T2 (repeat [x] n)
  | T1 v => T2 (repeat v n)
  | T2 m => T2 (stack_rows n m)
  | T3 c => T3 (map (stack_rows n) c)
  end.

(** [t[i:]] along the first axis; a rank 0 array has none. *)
Definition slice0 (i : Z) (t : tensor) : option tensor :=
  match t with
  | T0 _ => None
  | T1 v => Some (T1 (slice_from i v))
  | T2 m => Some (T2 (slice_from i m))
  | T3 c => Some (T3 (slice_from i c))
  end.

(** [t.shape[0]] *)
Definition shape0 (t : tensor) : option nat :=
  match t with
  | T0 _ => None
  | T1 v => Some (length v)
  | T2 m => Some (length m)
  | T3 c => Some (length c)
  end.

(** [tile(t, (n, 1, 1))] of a matrix: [n] copies along a new first axis. *)
Definition tile_time (n : nat) (t : tensor) : option tensor :=
  match t with
  | T2 m => Some (T3 (repeat m n))
  | T3 c => Some (T3 (stack_rows n c))
  | _ => None
  end.

Fixpoint zip_with_app {A} (a b : list (list A)) : option (list (list A)) :=
  match a, b with
  | [], [] => Some []
  | x :: a', y :: b' => (fun r => (x ++ y) :: r) <$> zip_with_app a' b'
  | _, _ => None
  end.

Fixpoint zip_with_app2 {A} (a b : list (list (list A)))
  : option (list (list (list A))) :=
  match a, b with
  | [], [] => Some []
  | x :: a', y :: b' =>
      r ← zip_with_app x y; (fun rs => r :: rs) <$> zip_with_app2 a' b'
  | _, _ => None
  end.

(** [concatenate([a, b], axis = 2)] of two rank 3 arrays. *)
Definition concat2 (a b : tensor) : option tensor :=
  match a, b with
  | T3 x, T3 y => T3 <$> zip_with_app2 x y
  | _, _ => None
  end.

(** The value of a scalar index port. *)
Definition index_of (t : tensor) : option Z :=
  match t with T0 x => Some x | _ => None end.

(** Elementwise application, for the float kernels. *)
Definition tmap (f : scalar -> scalar) (t : tensor) : tensor :=
  match t with
  | T0 x => T0 (f x)
  | T1 v => T1 (map f v)
  | T2 m => T2 (map (map f) m)
  | T3 c => T3 (map (map (map f)) c)
  end.

End Tensor.
Export Tensor.

(** ** Symbolic graphs *)

(** A shared variable is the location of its value. *)
Definition loc := nat.

Module Graph.

(** The nodes net.py builds, and [SOp] for the nodes the layers and the
    optimizers build. *)
Local Unset Elimination Schemes.
Inductive sexpr :=
| SShared (l : loc)
| SPort (p : string)
| SZerosLike (e : sexpr)
| STile (e : sexpr) (reps0 : value)
| SLastIndex (e : sexpr)
| SSliceFrom (e start : sexpr)
| SOneHot (e : sexpr) (n : value)
| STileTime (e like : sexpr)
| SConcat2 (a b : sexpr)
| SMean0 (e : sexpr)
| SGrad (loss : sexpr) (wrt : loc)
| SClipNorm (e : sexpr) (c : value)
| SMSE (a b : sexpr)
| SOp (op : string) (args : list sexpr).
Local Set Elimination Schemes.

(** Induction with the hypothesis on every argument of an [SOp]. *)
Section SexprInd.
Variable P : sexpr -> Prop.
Hypothesis HShared : forall l, P (SShared l).
Hypothesis HPort : forall p, P (SPort p).
Hypothesis HZerosLike : forall e, P e -> P (SZerosLike e).
Hypothesis HTile : forall e r, P e -> P (STile e r).
Hypothesis HLastIndex : forall e, P e -> P (SLastIndex e).
Hypothesis HSliceFrom : forall a b, P a -> P b -> P (SSliceFrom a b).
Hypothesis HOneHot : forall e n, P e -> P (SOneHot e n).
Hypothesis HTileTime : forall a b, P a -> P b -> P (STileTime a b).
Hypothesis HConcat2 : forall a b, P a -> P b -> P (SConcat2 a b).
Hypothesis HMean0 : forall e, P e -> P (SMean0 e).
Hypothesis HGrad : forall e l, P e -> P (SGrad e l).
Hypothesis HClipNorm : forall e c, P e -> P (SClipNorm e c).
Hypothesis HMSE : forall a b, P a -> P b -> P (SMSE a b).
Hypothesis HOp : forall op args, Forall P args -> P (SOp op args).

End SexprInd.

(** An update pair [(v, s_new)] *)
Definition update := (loc * sexpr)%type.

(** The shared variables a graph reads; a gradient node reads those of
    its loss and the variable it differentiates by. *)
Fixpoint shared_of (e : sexpr) : list loc :=
  match e with
  | SShared l => [l]
  | SPort _ => []
  | SZerosLike e | STile e _ | SLastIndex e | SOneHot e _ | SMean0 e
  | SClipNorm e _ => shared_of e
  | SSliceFrom a b | STileTime a b | SConcat2 a b | SMSE a b =>
      shared_of a ++ shared_of b
  | SGrad loss wrt => wrt :: shared_of loss
  | SOp _ args => flat_map shared_of args
  end.

(** The ports a graph reads. *)
Fixpoint ports_of (e : sexpr) : list string :=
  match e with
  | SShared _ => []
  | SPort p => [p]
  | SZerosLike e | STile e _ | SLastIndex e | SOneHot e _ | SMean0 e
  | SClipNorm e _ => ports_of e
  | SSliceFrom a b | STileTime a b | SConcat2 a b | SMSE a b =>
      ports_of a ++ ports_of b
  | SGrad loss _ => ports_of loss
  | SOp _ args => flat_map ports_of args
  end.

End Graph.
Export Graph.

(** ** The world: files, shared variables, and the calls that can fail *)

Module World.

Definition options := odict value.

(** What a path holds: a pickled option set or an archive of arrays keyed
    by name. *)
Inductive file :=
| FPickle (o : options)
| FNpz (arrays : odict tensor).

Inductive error :=
| AssertionError
| KeyError (k : string)
| IOError (path : string)
| OSError (path : string)
| TypeError
| NameError (name : string)
| ValueError
| IndexError
| AttributeError (name : string)
| UnusedInputError (port : string)
| DuplicateUpdateError (l : loc)
| PluginError (msg : string).

Inductive event :=
| EvRead (path : string)
| EvWrite (path : string)
| EvRemove (path : string)
| EvPrint (msg : string).

Record world := mkWorld {
  fs : gmap string file;        (* the file system *)
  dirs : gset string;           (* the paths that name a directory *)
  heap : gmap loc tensor;       (* the values of the shared variables *)
  next_loc : loc;               (* the next shared variable to be created *)
  draws : nat;                  (* random strings drawn so far *)
  log : list event              (* file accesses and prints, oldest first *)
}.

Definition with_fs (f : gmap string file) (w : world) : world :=
  mkWorld f (dirs w) (heap w) (next_loc w) (draws w) (log w).
Definition with_heap (h : gmap loc tensor) (w : world) : world :=
  mkWorld (fs w) (dirs w) h (next_loc w) (draws w) (log w).
Definition with_log (l : list event) (w : world) : world :=
  mkWorld (fs w) (dirs w) (heap w) (next_loc w) (draws w) l.

(** Whether [open(path, 'wb')] can create or truncate [path]: its
    directory part names a directory (the empty one is the current
    directory) and [path] itself does not. *)
Definition writable (w : world) (path : string) : bool :=
  (String.eqb (dirname path) "" || bool_decide (dirname path ∈ dirs w)) &&
  negb (bool_decide (path ∈ dirs w)).

(** A computation that reads and writes the world and may raise. *)
Definition M (A : Type) : Type := world -> (error + A) * world.

Definition ret {A} (a : A) : M A := fun w => (inr a, w).
Definition raise {A} (e : error) : M A := fun w => (inl e, w).
Definition bind {A B} (m : M A) (k : A -> M B) : M B :=
  fun w => match m w with
           | (inr a, w') => k a w'
           | (inl e, w') => (inl e, w')
           end.

Definition lift_option {A} (e : error) (o : option A) : M A :=
  match o with Some a => ret a | None => raise e end.
Definition lift_result {A} (r : error + A) : M A :=
  match r with inr a => ret a | inl e => raise e end.

(** [assert b] *)
Definition assert (b : bool) : M unit :=
  if b then ret tt else raise AssertionError.

Definition emit (ev : event) : M unit :=
  fun w => (inr tt, with_log (log w ++ [ev]) w).

(** The values of the shared variables, as a computation. *)
Definition get_heap : M (gmap loc tensor) := fun w => (inr (heap w), w).

End World.
Export World.

Notation "x <- m ;; k" := (bind m (fun x => k))
  (at level 100, m at next level, right associativity).
Notation "m ;;; k" := (bind m (fun _ => k))
  (at level 100, right associativity).

Module Sys.

(** [for x in xs: acc = body(x, acc)] *)
Fixpoint for_each {A S} (body : A -> S -> M S) (xs : list A) (acc : S) : M S :=
  match xs with
  | [] => ret acc
  | x :: xs' => acc' <- body x acc ;; for_each body xs' acc'
  end.

(** [[f(x) for x in xs]] *)
Fixpoint map_m {A B} (f : A -> M B) (xs : list A) : M (list B) :=
  match xs with
  | [] => ret []
  | x :: xs' => y <- f x ;; ys <- map_m f xs' ;; ret (y :: ys)
  end.

(** [pk.load(open(path, 'rb'))] *)
Definition pk_load (path : string) : M options :=
  emit (EvRead path) ;;;
  (fun w => match fs w !! path with
            | Some (FPickle o) => (inr o, w)
            | Some (FNpz _) => (inl ValueError, w)
            | None => (inl (IOError path), w)
            end).

(** [pk.dump(o, open(path, 'wb'))]: the [open] raises [IOError] where the
    file cannot be created. *)
Definition pk_dump (path : string) (o : options) : M unit :=
  emit (EvWrite path) ;;;
  (fun w => if writable w path
            then (inr tt, with_fs (<[path := FPickle o]> (fs w)) w)
            else (inl (IOError path), w)).

(** [np.load(path)]: the archive, its arrays looked up by name. *)
Definition np_load (path : string) : M (odict tensor) :=
  emit (EvRead path) ;;;
  (fun w => match fs w !! path with
            | Some (FNpz a) => (inr a, w)
            | Some (FPickle _) => (inl ValueError, w)
            | None => (inl (IOError path), w)
            end).

(** The name [np.savez] writes to: [.npz] is appended unless the name ends
    with it. *)
Definition npz_path (path : string) : string :=
  if String.eqb (str_last 4 path) ".npz" then path else path +:+ ".npz".

(** [np.savez(path, **arrays)]; the first positional parameter of [savez]
    is called [file], so an array of that name is refused.  The archive is
    opened for writing first: [IOError] where it cannot be created. *)
Definition np_savez (path : string) (arrays : odict tensor) : M unit :=
  if od_mem "file" arrays then raise TypeError
  else
    emit (EvWrite (npz_path path)) ;;;
    (fun w => if writable w (npz_path path)
              then (inr tt,
                    with_fs (<[npz_path path := FNpz arrays]> (fs w)) w)
              else (inl (IOError (npz_path path)), w)).

(** [os.remove(path)]; a path that is not there is an [OSError]. *)
Definition os_remove (path : string) : M unit :=
  emit (EvRemove path) ;;;
  (fun w => match fs w !! path with
            | Some _ => (inr tt, with_fs (delete path (fs w)) w)
            | None => (inl (OSError path), w)
            end).

(** [th.shared(v, name = k)]: a new shared variable holding [v]. *)
Definition th_shared (v : tensor) (name : string) : M loc :=
  fun w => (inr (next_loc w),
            mkWorld (fs w) (dirs w) (<[next_loc w := v]> (heap w))
                    (S (next_loc w))
                    (draws w) (log w)).

(** [v.get_value()] *)
Definition get_value (l : loc) : M tensor :=
  fun w => match heap w !! l with
           | Some t => (inr t, w)
           | None => (inl ValueError, w)
           end.

(** [v.set_value(t)] *)
Definition set_value (l : loc) (t : tensor) : M unit :=
  fun w => (inr tt, with_heap (<[l := t]> (heap w)) w).

End Sys.
Export Sys.

(** ** The collaborators of net.py *)

Module Ext.

(** The numeric kernels of the backend: float arithmetic, the loss
    primitive [MSE_loss], [clip_norm], the value of a gradient node and of
    the nodes built by the plugins. *)
Class Kernels := {
  k_mul_zero : scalar -> scalar;
  k_one_hot : tensor -> value -> option tensor;
  k_mean0 : tensor -> option tensor;
  k_clip_norm : tensor -> value -> option tensor;
  k_mse : tensor -> tensor -> option tensor;
  k_op : string -> list tensor -> option tensor;
  k_grad : sexpr -> loc -> gmap string tensor -> gmap loc tensor -> option tensor
}.

(** [utils.get_random_string]: the string of the [n]-th draw. *)
Class Utils := {
  random_string : nat -> string
}.

(** The interface the layer classes ([FCLayer], [LSTMLayer], [GRULayer])
    share. *)
Class LayerAPI (layer : Type) := {
  new_layer : string -> string -> layer;
  add_param :
    layer -> odict tensor -> value -> value -> options -> option string ->
    M (layer * odict tensor);
  add_v_prev_state : layer -> odict loc -> M (odict loc);
  setup_graph :
    layer -> sexpr -> option sexpr -> sexpr -> odict loc -> odict loc ->
    M (sexpr * option update)
}.

(** The optimizer plugins: [<force_type>_force] and [<update_type>_update]. *)
Class OptimizerAPI := {
  force :
    string -> options -> sexpr -> list sexpr ->
    M (list update * list update * list sexpr);
  update_rule :
    string -> options -> list loc -> list sexpr ->
    M (list update * list update)
}.

(** The names [eval] resolves in net.py's namespace. *)
Definition layer_classes : list string := ["FCLayer"; "LSTMLayer"; "GRULayer"].
Definition force_functions : list string :=
  ["vanilla_force"; "adadelta_force"; "rmsprop_force"; "adam_force"].
Definition update_functions : list string :=
  ["sgd_update"; "momentum_update"; "nesterov_update"].

(** [eval(name)] for a name of the given namespace. *)
Definition eval_name (known : list string) (name : string) : M string :=
  if existsb (String.eqb name) known then ret name else raise (NameError name).

End Ext.
Export Ext.

(** ** Compiled functions *)

Module Theano.

Section Eval.
Context `{Kernels}.

(** The value of a graph, given the values of the ports and of the
    shared variables. *)
Fixpoint eval (E : gmap string tensor) (h : gmap loc tensor) (e : sexpr)
  : option tensor :=
  match e with
  | SShared l => h !! l
  | SPort p => E !! p
  | SZerosLike e => zeros_like <$> eval E h e
  | STile e r =>
      t ← eval E h e; n ← as_int r;
      if n <? 0 then None else Some (tile_rows (Z.to_nat n) t)
  | SLastIndex e =>
      t ← eval E h e; n ← shape0 t; Some (T0 (Z.of_nat n - 1))
  | SSliceFrom a b =>
      t ← eval E h a; u ← eval E h b; i ← index_of u; slice0 i t
  | SOneHot e n => t ← eval E h e; k_one_hot t n
  | STileTime a b =>
      t ← eval E h a; u ← eval E h b; n ← shape0 u; tile_time n t
  | SConcat2 a b => t ← eval E h a; u ← eval E h b; concat2 t u
  | SMean0 e => t ← eval E h e; k_mean0 t
  | SGrad loss wrt => k_grad loss wrt E h
  | SClipNorm e c => t ← eval E h e; k_clip_norm t c
  | SMSE a b => t ← eval E h a; u ← eval E h b; k_mse t u
  | SOp op args =>
      ts ← (fix go (l : list sexpr) : option (list tensor) :=
              match l with
              | [] => Some []
              | x :: l' => t ← eval E h x; ts ← go l'; Some (t :: ts)
              end) args;
      k_op op ts
  end.

Fixpoint eval_all (E : gmap string tensor) (h : gmap loc tensor)
    (es : list sexpr) : option (list tensor) :=
  match es with
  | [] => Some []
  | e :: es' => t ← eval E h e; ts ← eval_all E h es'; Some (t :: ts)
  end.
End Eval.

(** [on_unused_input] *)
Inductive unused_policy := OnUnusedRaise | OnUnusedWarn | OnUnusedIgnore.

(** A compiled function: its input ports in order, its outputs and its
    updates. *)
Record th_function := mkFunction {
  f_inputs : list string;
  f_outputs : list sexpr;
  f_updates : list update
}.

(** The first element that occurs again later in the list. *)
Fixpoint first_dup (ls : list loc) : option loc :=
  match ls with
  | [] => None
  | l :: ls' => if existsb (Nat.eqb l) ls' then Some l else first_dup ls'
  end.

Definition ports_used (outputs : list sexpr) (updates : list update)
  : list string :=
  flat_map ports_of outputs ++ flat_map (fun u => ports_of u.2) updates.

Definition first_unused (inputs : list string) (used : list string)
  : option string :=
  List.find (fun p => negb (existsb (String.eqb p) used)) inputs.

(** [th.function(inputs, outputs, updates, on_unused_input)]: a shared
    variable may be updated once only, and an input that no output and no
    update reads is an error when the policy is ['raise'].  The check of
    the type of an update, for the updates whose types net.py decides, is
    [th_function_typed] below. *)
Definition th_function_compile (inputs : list string) (outputs : list sexpr)
    (updates : list update) (policy : unused_policy) : error + th_function :=
  match first_dup (map fst updates) with
  | Some l => inl (DuplicateUpdateError l)
  | None =>
      match policy, first_unused inputs (ports_used outputs updates) with
      | OnUnusedRaise, Some p => inl (UnusedInputError p)
      | _, _ => inr (mkFunction inputs outputs updates)
      end
  end.

(** The type of a variable as far as an update is checked against it: its
    broadcastable pattern, one flag per axis. *)
Definition pattern := list bool.

(** A shared variable made from an array broadcasts along no axis. *)
Definition shared_pattern (h : gmap loc tensor) (l : loc) : option pattern :=
  (fun t => repeat false (rank t)) <$> h !! l.

(** [tt.tile(x, (r, 1))] for [x] without broadcastable axes.  The result
    has at least two axes and is reshaped to the lengths of [x] times the
    repetition counts; an axis that [x] lacks has length [1] times its count,
    a constant of the graph, and an axis of constant length one is
    broadcastable. *)
Definition tile_pattern (ndim : nat) (r : Z) : pattern :=
  match ndim with
  | O => [r =? 1; true]
  | S O => [r =? 1; false]
  | _ => repeat false ndim
  end.

(** The pattern of the graphs that net.py itself assigns to a shared
    variable; the graphs of the layers and optimizers carry types that this
    development does not see. *)
Definition pattern_of (h : gmap loc tensor) (e : sexpr) : option pattern :=
  match e with
  | SShared l => shared_pattern h l
  | SZerosLike (SShared l) => shared_pattern h l
  | STile (SShared l) r =>
      t ← h !! l; z ← as_int r; Some (tile_pattern (rank t) z)
  | _ => None
  end.

(** An update must have the type of its shared variable. *)
Definition update_type_ok (h : gmap loc tensor) (u : update) : bool :=
  match shared_pattern h u.1, pattern_of h u.2 with
  | Some a, Some b => bool_decide (a = b)
  | _, _ => true
  end.

(** The pass of [th.function] over its updates, in order: a variable that
    already has an update is refused, then an update of another type than
    its variable. *)
Fixpoint check_updates (h : gmap loc tensor) (seen : list loc)
    (us : list update) : option error :=
  match us with
  | [] => None
  | u :: us' =>
      if existsb (Nat.eqb u.1) seen then Some (DuplicateUpdateError u.1)
      else if update_type_ok h u then check_updates h (u.1 :: seen) us'
      else Some TypeError
  end.

(** [th.function] on updates whose types are known. *)
Definition th_function_typed (h : gmap loc tensor) (inputs : list string)
    (outputs : list sexpr) (updates : list update) (policy : unused_policy)
  : error + th_function :=
  match check_updates h [] updates with
  | Some e => inl e
  | None => th_function_compile inputs outputs updates policy
  end.

(** The values of the ports of a call. *)
Fixpoint bind_args (inputs : list string) (args : list tensor)
  : option (gmap string tensor) :=
  match inputs, args with
  | [], [] => Some ∅
  | p :: inputs', a :: args' => (fun E => <[p := a]> E) <$> bind_args inputs' args'
  | _, _ => None
  end.

Definition write_all (targets : list loc) (news : list tensor)
    (h : gmap loc tensor) : gmap loc tensor :=
  fold_left (fun h' u => <[u.1 := u.2]> h') (combine targets news) h.

Section Call.
Context `{Kernels}.

(** A call of [f]: outputs and new values are computed from the
    state before the call, then the updates are written. *)
Definition call_on (f : th_function) (args : list tensor)
    (h : gmap loc tensor) : error + (list tensor * gmap loc tensor) :=
  match bind_args (f_inputs f) args with
  | None => inl TypeError
  | Some E =>
      match eval_all E h (f_outputs f),
            eval_all E h (map snd (f_updates f)) with
      | Some outs, Some news =>
          inr (outs, write_all (map fst (f_updates f)) news h)
      | _, _ => inl ValueError
      end
  end.

Definition call (f : th_function) (args : list tensor) : M (list tensor) :=
  fun w => match call_on f args (heap w) with
           | inr (outs, h') => (inr outs, with_heap h' w)
           | inl e => (inl e, w)
           end.
End Call.

(** What the backend guarantees of a gradient node: its value is
    determined by the ports and shared variables that its loss reads and by
    the variable it differentiates by. *)
Class KernelsLaws `{Kernels} : Prop := {
  k_grad_reads :
    forall loss wrt (E1 E2 : gmap string tensor) (h1 h2 : gmap loc tensor),
      (forall p, In p (ports_of loss) -> E1 !! p = E2 !! p) ->
      (forall l, In l (wrt :: shared_of loss) -> h1 !! l = h2 !! l) ->
      k_grad loss wrt E1 h1 = k_grad loss wrt E2 h2
}.

End Theano.
Export Theano.

(** ** Python operators on option values *)

Module PyOps.

(** [a + b] *)
Definition py_add (a b : value) : M value :=
  match a, b with
  | VStr s, VStr t => ret (VStr (s +:+ t))
  | _, _ =>
      match as_int a, as_int b with
      | Some x, Some y => ret (VInt (x + y))
      | _, _ =>
          match num_of a, num_of b with
          | Some x, Some y => ret (VFloat (x + y)%Q)
          | _, _ => raise TypeError
          end
      end
  end.

(** [v + s] and [s + v] for a string literal [s] *)
Definition py_str (v : value) : M string :=
  match v with VStr s => ret s | _ => raise TypeError end.

(** [v > 0]; in Python 2 [None] is below every number and every string is
    above. *)
Definition py_gt0 (v : value) : bool :=
  match v with
  | VNone => false
  | VBool b => b
  | VInt z => 0 <? z
  | VFloat q => negb (Qle_bool q 0)
  | VStr _ => true
  end.

(** [range(v)] *)
Definition py_range (v : value) : M (list nat) :=
  match as_int v with
  | Some n => ret (seq 0 (Z.to_nat n))
  | None => raise TypeError
  end.

(** [xs[i]] with a negative index counting from the end. *)
Definition py_nth {A} (i : Z) (xs : list A) : M A :=
  let j := if i <? 0 then i + Z.of_nat (length xs) else i in
  if j <? 0 then raise IndexError
  else lift_option IndexError (xs !! Z.to_nat j).

End PyOps.
Export PyOps.

(** ** The class [Net] *)

Module NetClass.

(** The ports of the graphs, by their Theano names. *)
Definition port_i_input : string := "port_i_input".
Definition port_i_target : string := "port_i_target".
Definition port_i_time : string := "port_i_time".
Definition port_i_id_idx : string := "port_i_id_idx".
Definition port_i_last_tap : string := "port_i_last_tap".
Definition port_i_loss_tap : string := "port_i_loss_tap".
Definition port_i_lr : string := "port_i_lr".

Section Net.
Context `{Kernels} `{Utils} {layer : Type} `{LayerAPI layer} `{OptimizerAPI}.

(** The attributes of a [Net].  An attribute that is not assigned yet
    holds [None] or the empty collection; the methods read it only after
    it is assigned. *)
Record Net := mkNet {
  _is_training : bool;
  _options : options;
  _save_to : option string;
  _pfx : string;
  _params : odict tensor;
  _id_embedder : option layer;
  _layers : list layer;
  _v_params : odict loc;
  _v_params_wo_init : odict loc;
  _v_prev_states : odict loc;
  _v_grads : list loc;
  _v_params_for_init : odict loc;
  _v_grads_for_init : list loc;
  _port_o_output : option sexpr;
  _port_o_loss : option sexpr;
  _prev_state_updates : list update;
  _grad_updates : list update;
  _optim_state_inits : list update;
  _param_updates : list update;
  _grad_updates_for_init : list update;
  _param_updates_for_init : list update
}.

(** The object before [__init__] has assigned anything. *)
Definition Net_new : Net :=
  mkNet false [] None "" [] None [] [] [] [] [] [] [] None None [] [] [] []
        [] [].

Definition set_config (t : bool) (o : options) (s : option string)
    (p : string) (n : Net) : Net :=
  mkNet t o s p (_params n) (_id_embedder n) (_layers n) (_v_params n)
        (_v_params_wo_init n) (_v_prev_states n) (_v_grads n)
        (_v_params_for_init n) (_v_grads_for_init n) (_port_o_output n)
        (_port_o_loss n) (_prev_state_updates n) (_grad_updates n)
        (_optim_state_inits n) (_param_updates n)
        (_grad_updates_for_init n) (_param_updates_for_init n).

Definition set_params (p : odict tensor) (n : Net) : Net :=
  mkNet (_is_training n) (_options n) (_save_to n) (_pfx n) p
        (_id_embedder n) (_layers n) (_v_params n)
        (_v_params_wo_init n) (_v_prev_states n) (_v_grads n)
        (_v_params_for_init n) (_v_grads_for_init n) (_port_o_output n)
        (_port_o_loss n) (_prev_state_updates n) (_grad_updates n)
        (_optim_state_inits n) (_param_updates n)
        (_grad_updates_for_init n) (_param_updates_for_init n).

Definition set_id_embedder (e : option layer) (n : Net) : Net :=
  mkNet (_is_training n) (_options n) (_save_to n) (_pfx n) (_params n)
        e (_layers n) (_v_params n)
        (_v_params_wo_init n) (_v_prev_states n) (_v_grads n)
        (_v_params_for_init n) (_v_grads_for_init n) (_port_o_output n)
        (_port_o_loss n) (_prev_state_updates n) (_grad_updates n)
        (_optim_state_inits n) (_param_updates n)
        (_grad_updates_for_init n) (_param_updates_for_init n).

Definition set_layers (ls : list layer) (n : Net) : Net :=
  mkNet (_is_training n) (_options n) (_save_to n) (_pfx n) (_params n)
        (_id_embedder n) ls (_v_params n)
        (_v_params_wo_init n) (_v_prev_states n) (_v_grads n)
        (_v_params_for_init n) (_v_grads_for_init n) (_port_o_output n)
        (_port_o_loss n) (_prev_state_updates n) (_grad_updates n)
        (_optim_state_inits n) (_param_updates n)
        (_grad_updates_for_init n) (_param_updates_for_init n).

Definition set_shared (vp wo ps : odict loc) (g : list loc)
    (fi : odict loc) (gi : list loc) (n : Net) : Net :=
  mkNet (_is_training n) (_options n) (_save_to n) (_pfx n) (_params n)
        (_id_embedder n) (_layers n) vp wo ps g fi gi (_port_o_output n)
        (_port_o_loss n) (_prev_state_updates n) (_grad_updates n)
        (_optim_state_inits n) (_param_updates n)
        (_grad_updates_for_init n) (_param_updates_for_init n).

Definition set_inference_graph (out : sexpr) (psu : list update) (n : Net)
  : Net :=
  mkNet (_is_training n) (_options n) (_save_to n) (_pfx n) (_params n)
        (_id_embedder n) (_layers n) (_v_params n)
        (_v_params_wo_init n) (_v_prev_states n) (_v_grads n)
        (_v_params_for_init n) (_v_grads_for_init n) (Some out)
        (_port_o_loss n) psu (_grad_updates n)
        (_optim_state_inits n) (_param_updates n)
        (_grad_updates_for_init n) (_param_updates_for_init n).

Definition set_training_graph (loss : sexpr)
    (psu gu osi pu gui pui : list update) (n : Net) : Net :=
  mkNet (_is_training n) (_options n) (_save_to n) (_pfx n) (_params n)
        (_id_embedder n) (_layers n) (_v_params n)
        (_v_params_wo_init n) (_v_prev_states n) (_v_grads n)
        (_v_params_for_init n) (_v_grads_for_init n) (_port_o_output n)
        (Some loss) psu gu osi pu gui pui.

(** [self._options[k]] *)
Definition opt (k : string) (self : Net) : M value :=
  lift_option (KeyError k) (od_get k (_options self)).

(** [k[-4:] == 'init'] *)
Definition is_init_name (k : string) : bool :=
  String.eqb (str_last 4 k) "init".

Definition _configure (options : option options)
    (save_to load_from : option string) (self : Net) : M Net :=
  match save_to with
  | Some save_to =>
      opts <- lift_option AssertionError options ;;
      match load_from with
      | Some load_from =>
          loaded_options <- pk_load (load_from +:+ "/options.pkl") ;;
          if negb (od_eqb value_eqb opts loaded_options) then
            emit (EvPrint "[Error] Mismatching options in loaded model") ;;;
            raise AssertionError
          else ret tt
      | None => ret tt
      end ;;;
      pk_dump (save_to +:+ "/options.pkl") opts ;;;
      ret (set_config true opts (Some save_to) "" self)
  | None =>
      pfx <- (fun w => (inr (random_string (draws w) +:+ "_"),
                        mkWorld (fs w) (dirs w) (heap w) (next_loc w)
                                (S (draws w)) (log w))) ;;
      load_from <- lift_option AssertionError load_from ;;
      loaded <- pk_load (load_from +:+ "/options.pkl") ;;
      options <- lift_option TypeError options ;;
      assert (od_mem "batch_size" options) ;;;
      batch_size <- lift_option (KeyError "batch_size")
                                (od_get "batch_size" options) ;;
      ret (set_config false (od_set "batch_size" batch_size loaded) None
                      pfx self)
  end.

Definition _init_params (load_from : option string) (self : Net) : M Net :=
  let self := set_params [] self in
  learn <- opt "learn_id_embedding" self ;;
  r <- (if negb (truthy learn) then ret (VInt 0, self)
        else
          let emb := new_layer "FCLayer" (_pfx self +:+ "FC_id_embedder") in
          n_in <- opt "id_count" self ;;
          n_out <- opt "id_embedding_dim" self ;;
          lp <- add_param emb (_params self) n_in n_out (_options self)
                          (Some "lambda x: x") ;;
          add <- opt "id_embedding_dim" self ;;
          ret (add, set_params lp.2 (set_id_embedder (Some lp.1) self))) ;;
  let add := r.1 in
  let self := set_layers [] r.2 in
  D <- opt "net_depth" self ;;
  assert (py_gt0 D) ;;;
  idx <- py_range D ;;
  self <- for_each
            (fun i self =>
               unit_type <- opt "unit_type" self ;;
               unit_type <- py_str unit_type ;;
               cls <- eval_name layer_classes (unit_type +:+ "Layer") ;;
               let l := new_layer cls
                          (_pfx self +:+ unit_type +:+ "_" +:+ str_of_nat i) in
               below <- (if (0 <? i)%nat then opt "net_width" self
                         else opt "input_dim" self) ;;
               n_in <- py_add add below ;;
               n_out <- opt "net_width" self ;;
               lp <- add_param l (_params self) n_in n_out (_options self)
                               None ;;
               ret (set_params lp.2 (set_layers (_layers self ++ [lp.1]) self)))
            idx self ;;
  let out := new_layer "FCLayer" (_pfx self +:+ "FC_output") in
  width <- opt "net_width" self ;;
  n_in <- py_add add width ;;
  n_out <- opt "target_dim" self ;;
  lp <- add_param out (_params self) n_in n_out (_options self)
                  (Some "lambda x: x") ;;
  let self := set_params lp.2 (set_layers (_layers self ++ [lp.1]) self) in
  match load_from with
  | None => ret self
  | Some load_from =>
      let len_pfx := String.length (_pfx self) in
      params <- np_load (load_from +:+ "/params.npz") ;;
      p <- for_each
             (fun k acc =>
                v <- lift_option (KeyError (str_from len_pfx k))
                                 (od_get (str_from len_pfx k) params) ;;
                ret (od_set k v acc))
             (od_keys (_params self)) (_params self) ;;
      ret (set_params p self)
  end.

(** [th.shared(v.get_value() * 0., name = k + '_grad')] *)
Definition zero_shared_like (kv : string * loc) : M loc :=
  t <- get_value kv.2 ;;
  th_shared (tmap k_mul_zero t) (kv.1 +:+ "_grad").

Definition _init_shared_variables (self : Net) : M Net :=
  r <- for_each
         (fun kv acc =>
            l <- th_shared kv.2 kv.1 ;;
            let v_params := od_set kv.1 l acc.1 in
            ret (v_params,
                 if negb (is_init_name kv.1) then od_set kv.1 l acc.2
                 else acc.2))
         (_params self) ([], []) ;;
  let v_params := r.1 in
  let v_params_wo_init := r.2 in
  v_prev_states <- for_each add_v_prev_state (_layers self) [] ;;
  if _is_training self then
    v_grads <- map_m zero_shared_like v_params_wo_init ;;
    learn <- opt "learn_init_states" self ;;
    if truthy learn then
      let v_params_for_init :=
        fold_left (fun acc kv =>
                     if is_init_name kv.1 then od_set kv.1 kv.2 acc else acc)
                  v_params [] in
      v_grads_for_init <- map_m zero_shared_like v_prev_states ;;
      ret (set_shared v_params v_params_wo_init v_prev_states v_grads
                      v_params_for_init v_grads_for_init self)
    else
      ret (set_shared v_params v_params_wo_init v_prev_states v_grads
                      [] [] self)
  else
    ret (set_shared v_params v_params_wo_init v_prev_states [] [] [] self).

Definition _setup_forward_graph (self : Net)
    (s_input_tbi s_time_t s_id_idx_b s_last_tap : sexpr)
    (v_params v_prev_states : odict loc) : M (sexpr * list update) :=
  learn <- opt "learn_id_embedding" self ;;
  cat <- (if negb (truthy learn) then ret (fun s_below_tbj => s_below_tbj)
          else
            emb <- lift_option (AttributeError "_id_embedder")
                               (_id_embedder self) ;;
            id_count <- opt "id_count" self ;;
            r <- setup_graph emb (SOneHot s_id_idx_b id_count) None
                             s_last_tap v_params v_prev_states ;;
            let s_id_emb_tbi := STileTime r.1 s_input_tbi in
            ret (fun s_below_tbj => SConcat2 s_below_tbj s_id_emb_tbi)) ;;
  D <- opt "net_depth" self ;;
  D1 <- py_add D (VInt 1) ;;
  d <- lift_option TypeError (as_int D) ;;
  idx <- py_range D1 ;;
  let s_outputs : list (option sexpr) :=
    repeat None (Z.to_nat (d + 1)) ++ [Some s_input_tbi] in
  r <- for_each
         (fun i acc =>
            l <- py_nth (Z.of_nat i) (_layers self) ;;
            below <- py_nth (Z.of_nat i - 1) acc.1 ;;
            below <- lift_option TypeError below ;;
            clock <- opt "learn_clock_params" self ;;
            ou <- setup_graph l (cat below)
                    (if truthy clock then Some s_time_t else None)
                    s_last_tap v_params v_prev_states ;;
            ret (<[i := Some ou.1]> acc.1,
                 match ou.2 with
                 | Some update => acc.2 ++ [update]
                 | None => acc.2
                 end))
         idx (s_outputs, []) ;;
  out <- py_nth d r.1 ;;
  out <- lift_option TypeError out ;;
  ret (out, r.2).

Definition _setup_inference_graph (self : Net) : M Net :=
  let s_last_tap := SLastIndex (SPort port_i_input) in
  r <- _setup_forward_graph self (SPort port_i_input) (SPort port_i_time)
         (SPort port_i_id_idx) s_last_tap (_v_params self)
         (_v_prev_states self) ;;
  ret (set_inference_graph r.1 r.2 self).

Definition _setup_loss_graph (s_output_tbi s_target_tbi s_loss_tap : sexpr)
  : sexpr :=
  SMSE (SSliceFrom s_output_tbi s_loss_tap)
       (SSliceFrom s_target_tbi s_loss_tap).

(** [clip_norm] on every gradient when the option is present. *)
Definition clip_grads (self : Net) (s_grads : list sexpr) : list sexpr :=
  match od_get "grad_norm_clip" (_options self) with
  | Some c => map (fun s_grad => SClipNorm s_grad c) s_grads
  | None => s_grads
  end.

Definition _setup_grad_updates_graph (self : Net) (s_loss : sexpr)
    (v_wrt v_grads : list loc) : M (list update) :=
  assert (length v_wrt =? length v_grads)%nat ;;;
  let s_new_grads := map (SGrad s_loss) v_wrt in
  let s_new_grads := clip_grads self s_new_grads in
  ret (combine v_grads s_new_grads).

Definition _setup_param_updates_graph (self : Net) (s_lr : sexpr)
    (v_params : list loc) (v_grads : list sexpr)
  : M (list update * list update) :=
  assert (length v_params =? length v_grads)%nat ;;;
  force_type <- opt "force_type" self ;;
  force_type <- py_str force_type ;;
  f <- eval_name force_functions (force_type +:+ "_force") ;;
  fr <- force f (_options self) s_lr v_grads ;;
  let optim_f_inits := fr.1.1 in
  let optim_f_updates := fr.1.2 in
  let s_forces := fr.2 in
  assert (length v_params =? length s_forces)%nat ;;;
  update_type <- opt "update_type" self ;;
  update_type <- py_str update_type ;;
  u <- eval_name update_functions (update_type +:+ "_update") ;;
  ur <- update_rule u (_options self) v_params s_forces ;;
  ret (optim_f_inits ++ ur.1, optim_f_updates ++ ur.2).

Definition _setup_training_graph (self : Net) : M Net :=
  fw <- _setup_forward_graph self (SPort port_i_input) (SPort port_i_time)
          (SPort port_i_id_idx) (SPort port_i_last_tap) (_v_params self)
          (_v_prev_states self) ;;
  let s_output_tbi := fw.1 in
  let port_o_loss :=
    _setup_loss_graph s_output_tbi (SPort port_i_target)
                      (SPort port_i_loss_tap) in
  grad_updates <- _setup_grad_updates_graph self port_o_loss
                    (od_values (_v_params_wo_init self)) (_v_grads self) ;;
  pu <- _setup_param_updates_graph self (SPort port_i_lr)
          (od_values (_v_params_wo_init self))
          (map SShared (_v_grads self)) ;;
  learn <- opt "learn_init_states" self ;;
  if truthy learn then
    grad_updates_for_init <-
      _setup_grad_updates_graph self port_o_loss
        (od_values (_v_prev_states self)) (_v_grads_for_init self) ;;
    let s_grads_for_init_flattened :=
      map (fun v => SMean0 (SShared v)) (_v_grads_for_init self) in
    pui <- _setup_param_updates_graph self (SPort port_i_lr)
             (od_values (_v_params_for_init self))
             s_grads_for_init_flattened ;;
    ret (set_training_graph port_o_loss fw.2 grad_updates (pu.1 ++ pui.1)
           pu.2 grad_updates_for_init pui.2 self)
  else
    ret (set_training_graph port_o_loss fw.2 grad_updates pu.1 pu.2 [] []
           self).

(** [Net(options, save_to, load_from)] *)
Definition Net_init (options : option options)
    (save_to load_from : option string) : M Net :=
  self <- _configure options save_to load_from Net_new ;;
  self <- _init_params load_from self ;;
  self <- _init_shared_variables self ;;
  if _is_training self then _setup_training_graph self
  else _setup_inference_graph self.

(** ['raise' if learn_clock_params or learn_id_embedding else 'ignore'] *)
Definition unused_input_policy (self : Net) : M unused_policy :=
  clock <- opt "learn_clock_params" self ;;
  if truthy clock then ret OnUnusedRaise
  else
    emb <- opt "learn_id_embedding" self ;;
    ret (if truthy emb then OnUnusedRaise else OnUnusedIgnore).

(** [k[:-4] + 'init'] *)
Definition to_init (k : string) : string := str_drop_last 4 k +:+ "init".

(** The updates are [tt.zeros_like(v)] or [tt.tile(init, (batch_size, 1))];
    [tile] takes integer repetition counts only, and [th.function] checks
    each update against the type of its variable. *)
Definition compile_f_initialize_states (self : Net) : M th_function :=
  learn <- opt "learn_init_states" self ;;
  updates <-
    (if negb (truthy learn) then
       ret (map (fun v => (v, SZerosLike (SShared v)))
                (od_values (_v_prev_states self)))
     else
       map_m (fun kv =>
                p <- lift_option (KeyError (to_init kv.1))
                                 (od_get (to_init kv.1) (_v_params self)) ;;
                batch_size <- opt "batch_size" self ;;
                lift_option ValueError (as_int batch_size) ;;;
                ret (kv.2, STile (SShared p) batch_size))
             (_v_prev_states self)) ;;
  h <- get_heap ;;
  lift_result (th_function_typed h [] [] updates OnUnusedRaise).

Definition training_inputs : list string :=
  [port_i_input; port_i_target; port_i_time; port_i_id_idx;
   port_i_last_tap; port_i_loss_tap].

Definition the_port (name : string) (p : option sexpr) : M sexpr :=
  lift_option (AttributeError name) p.

Definition compile_f_fwd_propagate (self : Net) : M th_function :=
  if _is_training self then
    loss <- the_port "_port_o_loss" (_port_o_loss self) ;;
    policy <- unused_input_policy self ;;
    lift_result (th_function_compile training_inputs [loss]
                   (_prev_state_updates self) policy)
  else
    out <- the_port "_port_o_output" (_port_o_output self) ;;
    policy <- unused_input_policy self ;;
    lift_result (th_function_compile
                   [port_i_input; port_i_time; port_i_id_idx] [out]
                   (_prev_state_updates self) policy).

Definition compile_f_fwd_bwd_propagate (self : Net) : M th_function :=
  assert (_is_training self) ;;;
  loss <- the_port "_port_o_loss" (_port_o_loss self) ;;
  policy <- unused_input_policy self ;;
  lift_result (th_function_compile training_inputs [loss]
                 (_grad_updates self ++ _prev_state_updates self) policy).

Definition compile_f_update_v_params (self : Net) : M th_function :=
  assert (_is_training self) ;;;
  lift_result (th_function_compile [port_i_lr] [] (_param_updates self)
                 OnUnusedRaise).

(** [assert self._is_training and self._options['learn_init_states']] *)
Definition assert_training_with_init (self : Net) : M unit :=
  if _is_training self then
    learn <- opt "learn_init_states" self ;;
    assert (truthy learn)
  else raise AssertionError.

Definition compile_f_fwd_bwd_for_init (self : Net) : M th_function :=
  assert_training_with_init self ;;;
  loss <- the_port "_port_o_loss" (_port_o_loss self) ;;
  policy <- unused_input_policy self ;;
  lift_result (th_function_compile training_inputs [loss]
                 (_grad_updates self ++ _prev_state_updates self ++
                  _grad_updates_for_init self) policy).

Definition compile_f_update_init_states (self : Net) : M th_function :=
  assert_training_with_init self ;;;
  lift_result (th_function_compile [port_i_lr] []
                 (_param_updates_for_init self) OnUnusedRaise).

Definition compile_f_initialize_optimizer (self : Net) : M th_function :=
  assert (_is_training self) ;;;
  lift_result (th_function_compile [] [] (_optim_state_inits self)
                 OnUnusedRaise).

(** [name] with its default: [None] stands for ['params']. *)
Definition snapshot_name (name : option string) : string :=
  match name with Some s => s | None => "params" end.

(** [self._save_to + '/' + name + '.npz'] *)
Definition workspace_path (self : Net) (name : string) : M string :=
  save_to <- lift_option TypeError (_save_to self) ;;
  ret (save_to +:+ "/" +:+ name +:+ ".npz").

Definition save_v_params_to_workspace (self : Net) (name : option string)
  : M Net :=
  assert (_is_training self) ;;;
  params <- for_each (fun kv acc => v <- get_value kv.2 ;;
                                    ret (od_set kv.1 v acc))
                     (_v_params self) (_params self) ;;
  let self := set_params params self in
  path <- workspace_path self (snapshot_name name) ;;
  np_savez path (_params self) ;;;
  ret self.

Definition load_v_params_from_workspace (self : Net) (name : option string)
  : M unit :=
  assert (_is_training self) ;;;
  path <- workspace_path self (snapshot_name name) ;;
  params <- np_load path ;;
  for_each (fun kv (_ : unit) =>
              v <- lift_option (KeyError kv.1) (od_get kv.1 params) ;;
              set_value kv.2 v)
           (_v_params self) tt.

Definition remove_params_file_from_workspace (self : Net)
    (name : option string) : M unit :=
  assert (_is_training self) ;;;
  path <- workspace_path self (snapshot_name name) ;;
  os_remove path.

Definition dimensions (self : Net) : M (value * value) :=
  i <- opt "input_dim" self ;;
  t <- opt "target_dim" self ;;
  ret (i, t).

Definition save_param (self : Net) (param_name filename : string) : M unit :=
  assert (negb (_is_training self) &&
          od_mem (_pfx self +:+ param_name) (_params self)) ;;;
  v <- lift_option (KeyError (_pfx self +:+ param_name))
                   (od_get (_pfx self +:+ param_name) (_params self)) ;;
  np_savez filename [(param_name, v)].

End Net.

End NetClass.
Export NetClass.

(** ** A small backend for running the class

    Test doubles for the collaborators: integer kernels, a layer class with
    a weight, a bias and (for the recurrent kinds) an initial state and a
    previous state, and a plain gradient step. *)

Module Demo.

Definition flat (t : tensor) : list scalar :=
  match t with
  | T0 x => [x]
  | T1 v => v
  | T2 m => concat m
  | T3 c => concat (concat c)
  end.

Fixpoint sq_diff (a b : list scalar) : option scalar :=
  match a, b with
  | [], [] => Some 0
  | x :: a', y :: b' => (fun r => (x - y) * (x - y) + r) <$> sq_diff a' b'
  | _, _ => None
  end.

#[export] Instance demo_kernels : Kernels := {|
  k_mul_zero := fun _ => 0;
  k_one_hot := fun t n =>
    match t, as_int n with
    | T1 v, Some k =>
        Some (T2 (map (fun i => map (fun j => if Z.of_nat j =? i then 1 else 0)
                                    (seq 0 (Z.to_nat k))) v))
    | _, _ => None
    end;
  k_mean0 := fun t =>
    match t with
    | T2 (r :: _) => Some (T1 r)
    | T3 (m :: _) => Some (T2 m)
    | _ => None
    end;
  k_clip_norm := fun t _ => Some t;
  k_mse := fun a b => T0 <$> sq_diff (flat a) (flat b);
  k_op := fun op ts =>
    match ts with
    | t :: _ => Some t
    | [] => None
    end;
  k_grad := fun loss wrt E h => zeros_like <$> h !! wrt
|}.

#[export] Instance demo_utils : Utils := {|
  random_string := fun n => "r" +:+ str_of_nat n
|}.

Record demo_layer := mkLayer {
  dl_class : string;
  dl_name : string;
  dl_width : nat;
  dl_batch : nat
}.

Definition nat_of (v : value) : nat :=
  match as_int v with Some z => Z.to_nat z | None => 0%nat end.

Definition recurrent (l : demo_layer) : bool :=
  negb (String.eqb (dl_class l) "FCLayer").

Definition demo_add_param (l : demo_layer) (params : odict tensor)
    (n_in n_out : value) (o : options) (act : option string)
  : M (demo_layer * odict tensor) :=
  let l' := mkLayer (dl_class l) (dl_name l) (nat_of n_out)
              (match od_get "batch_size" o with
               | Some b => nat_of b
               | None => 0%nat
               end) in
  let p1 := od_set (dl_name l +:+ "_W")
              (T2 (repeat (repeat 1 (nat_of n_out)) (nat_of n_in))) params in
  let p2 := od_set (dl_name l +:+ "_b") (T1 (repeat 2 (nat_of n_out))) p1 in
  ret (l', if recurrent l
           then od_set (dl_name l +:+ "_init") (T1 (repeat 3 (nat_of n_out))) p2
           else p2).

Definition demo_add_v_prev_state (l : demo_layer) (d : odict loc)
  : M (odict loc) :=
  if recurrent l then
    v <- th_shared (T2 (repeat (repeat 5 (dl_width l)) (dl_batch l)))
                   (dl_name l +:+ "_prev") ;;
    ret (od_set (dl_name l +:+ "_prev") v d)
  else ret d.

Definition demo_setup_graph (l : demo_layer) (s_below : sexpr)
    (s_time : option sexpr) (s_last_tap : sexpr)
    (v_params v_prev_states : odict loc) : M (sexpr * option update) :=
  W <- lift_option (KeyError (dl_name l +:+ "_W"))
                   (od_get (dl_name l +:+ "_W") v_params) ;;
  b <- lift_option (KeyError (dl_name l +:+ "_b"))
                   (od_get (dl_name l +:+ "_b") v_params) ;;
  let clock := match s_time with Some t => [t] | None => [] end in
  if recurrent l then
    prev <- lift_option (KeyError (dl_name l +:+ "_prev"))
                        (od_get (dl_name l +:+ "_prev") v_prev_states) ;;
    let out := SOp "cell" ([s_below; SShared W; SShared b; SShared prev]
                           ++ clock) in
    ret (out, Some (prev, SOp "state_at" [SShared prev; out; s_last_tap]))
  else
    ret (SOp "affine" ([s_below; SShared W; SShared b] ++ clock), None).

#[export] Instance demo_layers : LayerAPI demo_layer := {|
  new_layer := fun cls name => mkLayer cls name 0 0;
  add_param := demo_add_param;
  add_v_prev_state := demo_add_v_prev_state;
  setup_graph := demo_setup_graph
|}.

#[export] Instance demo_optimizer : OptimizerAPI := {|
  force := fun name o s_lr grads =>
    ret ([], [], map (fun g => SOp "scale" [g; s_lr]) grads);
  update_rule := fun name o params forces =>
    ret ([], map (fun pf => (pf.1, SOp "step" [SShared pf.1; pf.2]))
                 (combine params forces))
|}.

Definition demo_options (learn_init : bool) : options :=
  [("batch_size", VInt 2); ("input_dim", VInt 3); ("target_dim", VInt 1);
   ("net_width", VInt 4); ("net_depth", VInt 1); ("unit_type", VStr "LSTM");
   ("learn_id_embedding", VBool false); ("learn_clock_params", VBool false);
   ("learn_init_states", VBool learn_init);
   ("force_type", VStr "vanilla"); ("update_type", VStr "sgd")].

(** No file and no shared variable; the workspace directory [out]
    exists. *)
Definition empty_world : world := mkWorld ∅ {[ "out" ]} ∅ 0%nat 0%nat [].

(** A world whose directory [old] holds the options of an earlier run. *)
Definition resumed_world (o : options) : world :=
  mkWorld {[ "old/options.pkl" := FPickle o ]} {[ "old"; "out" ]} ∅
          0%nat 0%nat [].

End Demo.
Export Demo.

(** ** The vocabulary of the properties *)

Module Statements.

Section NetStatements.
Context {layer : Type}.

(** Two objects with the same configuration. *)
Definition same_config (a b : @Net layer) : Prop :=
  _is_training a = _is_training b /\ _options a = _options b /\
  _save_to a = _save_to b /\ _pfx a = _pfx b.

(** Two objects with the same shared variables. *)
Definition same_shared (a b : @Net layer) : Prop :=
  _v_params a = _v_params b /\
  _v_params_wo_init a = _v_params_wo_init b /\
  _v_prev_states a = _v_prev_states b /\
  _v_grads a = _v_grads b /\
  _v_params_for_init a = _v_params_for_init b /\
  _v_grads_for_init a = _v_grads_for_init b.

(** The updates that tile the [init] parameters. *)
Definition tile_update (n : @Net layer) (b : value) (kv : string * loc)
  : update :=
  (kv.2,
   STile (SShared (match od_get (to_init kv.1) (_v_params n) with
                   | Some p => p
                   | None => O
                   end)) b).

(** [_params] after the values of the shared variables are pulled. *)
Definition pulled_params (v_params : odict loc) (h : gmap loc tensor)
    (params : odict tensor) : odict tensor :=
  fold_left (fun acc kv => match h !! kv.2 with
                           | Some t => od_set kv.1 t acc
                           | None => acc
                           end) v_params params.

(** The new value of the accumulator of [wrt]: the gradient of the loss,
    clipped when [grad_norm_clip] is set. *)
Definition new_grad (self : @Net layer) (s_loss : sexpr) (wrt : loc) : sexpr :=
  match od_get "grad_norm_clip" (_options self) with
  | Some c => SClipNorm (SGrad s_loss wrt) c
  | None => SGrad s_loss wrt
  end.

(** The two sides of the parameter set. *)
Definition non_init (kv : string * loc) : bool := negb (is_init_name kv.1).
Definition for_init (kv : string * loc) : bool := is_init_name kv.1.



(** The gradients the second update graph is built from. *)
Definition s_grads_for_init_flattened (n : @Net layer) : list sexpr :=
  map (fun v => SMean0 (SShared v)) (_v_grads_for_init n).
End NetStatements.

(** What [_configure] prints before it gives up. *)
Definition mismatch_message : string :=
  "[Error] Mismatching options in loaded model".

(** The specification's reading of the loss tap: step [t] of an axis of
    [len] steps counts when it is at or after the tap, a negative tap
    counting from the end of the axis. *)
Definition at_or_after (tap : Z) (len t : nat) : bool :=
  if tap <? 0 then tap + Z.of_nat len <=? Z.of_nat t else tap <=? Z.of_nat t.

(** The steps of a sequence that count, in order. *)
Definition steps_from {A} (tap : Z) (xs : list A) : list A :=
  map snd (List.filter (fun ix => at_or_after tap (length xs) ix.1)
                       (combine (seq 0 (length xs)) xs)).

End Statements.
Export Statements.

(** ** Runs of the demo backend *)

Module DemoRuns.

(** A training run of the constructor on the empty world. *)
Definition demo_run (learn_init : bool) : (error + @Net demo_layer) * world :=
  Net_init (Some (demo_options learn_init)) (Some "out") None empty_world.

Definition net_of (r : (error + @Net demo_layer) * world) : @Net demo_layer :=
  match r.1 with inr n => n | inl _ => Net_new end.

(** The [Net] trained with zero initial states, and the world it is in. *)
Definition demo_net : @Net demo_layer :=
  Eval vm_compute in net_of (demo_run false).
Definition demo_world : world := Eval vm_compute in (demo_run false).2.

(** The [Net] trained with learnable initial states. *)
Definition demo_net_init : @Net demo_layer :=
  Eval vm_compute in net_of (demo_run true).
Definition demo_world_init : world := Eval vm_compute in (demo_run true).2.

(** The same runs up to the declaration of the shared variables. *)
Definition demo_shared_run (learn_init : bool)
  : (error + @Net demo_layer) * world :=
  (self <- _configure (Some (demo_options learn_init)) (Some "out") None
                      Net_new ;;
   self <- _init_params None self ;;
   _init_shared_variables self) empty_world.

Definition demo_shared_net : @Net demo_layer :=
  Eval vm_compute in net_of (demo_shared_run false).
Definition demo_shared_world : world :=
  Eval vm_compute in (demo_shared_run false).2.

(** An inference construction from the directory of an earlier run. *)
Definition old_world : world :=
  mkWorld {[ "old/options.pkl" := FPickle (demo_options false);
             "old/params.npz" := FNpz (_params demo_net) ]}
          {[ "old" ]} ∅ 0%nat 0%nat [].

Definition demo_inference_run : (error + @Net demo_layer) * world :=
  Net_init (Some [("batch_size", VInt 3)]) None (Some "old") old_world.

Definition demo_inference_net : @Net demo_layer :=
  Eval vm_compute in net_of demo_inference_run.
Definition demo_inference_world : world :=
  Eval vm_compute in demo_inference_run.2.

(** A chunk of one step for a batch of two, and a target of the same
    shape. *)
Definition demo_args : list tensor :=
  [T3 [[[1; 2; 3]; [4; 5; 6]]]; T3 [[[1; 2; 5]; [4; 5; 6]]];
   T1 [0]; T1 [0; 0]; T0 0; T0 0].


Definition demo_loss : sexpr :=
  Eval vm_compute in
    match _port_o_loss demo_net with Some l => l | None => SPort "" end.

Definition demo_fwd_bwd : th_function :=
  mkFunction training_inputs [demo_loss]
             (_grad_updates demo_net ++ _prev_state_updates demo_net).


End DemoRuns.
Export DemoRuns.

(** ** The vertical stack of layers *)

Module Stack.

Section StackDef.
Context {layer : Type} `{LayerAPI layer}.

(** The vertical stack read off the docstring of [_setup_forward_graph]:
    each layer takes the output of the layer below (the input for the first
    one) through [cat], and its update, when it has one, is appended. *)
Fixpoint stack_layers (cat : sexpr -> sexpr) (s_time_t : option sexpr)
    (s_last_tap : sexpr) (v_params v_prev_states : odict loc)
    (layers : list layer) (s_below : sexpr) (updates : list update)
  : M (sexpr * list update) :=
  match layers with
  | [] => ret (s_below, updates)
  | l :: above =>
      ou <- setup_graph l (cat s_below) s_time_t s_last_tap v_params
                        v_prev_states ;;
      stack_layers cat s_time_t s_last_tap v_params v_prev_states above ou.1
                   (match ou.2 with
                    | Some update => updates ++ [update]
                    | None => updates
                    end)
  end.
End StackDef.

End Stack.
Export Stack.

(** ** What the class expects of a layer *)

Module Contracts.

(** The ports that the graph and the update of a layer may read: the ones
    of what it is handed. *)
Definition handed_ports (s_below : sexpr) (s_time : option sexpr)
    (s_last_tap : sexpr) : list string :=
  ports_of s_below ++
  match s_time with Some t => ports_of t | None => [] end ++
  ports_of s_last_tap.

Definition update_ports (u : option update) : list string :=
  match u with Some u => ports_of u.2 | None => [] end.

(** What is expected of a layer class: [setup_graph] builds its output and
    its update from the graphs it is handed and from shared variables. *)
Class LayerReadsItsInputs (layer : Type) `{LayerAPI layer} : Prop := {
  setup_graph_ports :
    forall (l : layer) s_below s_time s_last_tap v_params v_prev_states
           w ou w',
      setup_graph l s_below s_time s_last_tap v_params v_prev_states w
      = (inr ou, w') ->
      forall p, In p (ports_of ou.1 ++ update_ports ou.2) ->
                In p (handed_ports s_below s_time s_last_tap)
}.

(** What is expected of the layer classes and the optimizer plugins about
    shared variables: a collaborator creates the variables it needs with
    [th.shared], so they are new; the state updates of a force function
    target variables that it created; and an update function returns an
    update for every parameter it is handed and otherwise targets only
    variables of the optimizer. *)
Class FreshVariables (layer : Type) `{LayerAPI layer} `{OptimizerAPI}
  : Prop := {
  add_v_prev_state_grows :
    forall (l : layer) d w d' w',
      add_v_prev_state l d w = (inr d', w') ->
      (next_loc w <= next_loc w')%nat;
  setup_graph_grows :
    forall (l : layer) s_below s_time s_last_tap v_params v_prev_states
           w ou w',
      setup_graph l s_below s_time s_last_tap v_params v_prev_states w
      = (inr ou, w') ->
      (next_loc w <= next_loc w')%nat;
  force_targets :
    forall f o s_lr grads w fr w',
      force f o s_lr grads w = (inr fr, w') ->
      (next_loc w <= next_loc w')%nat /\
      forall u, In u fr.1.2 -> (next_loc w <= u.1)%nat;
  update_rule_targets :
    forall u o params forces w ur w',
      update_rule u o params forces w = (inr ur, w') ->
      length params = length forces ->
      (next_loc w <= next_loc w')%nat /\
      (forall p, In p params -> In p (map fst ur.2)) /\
      (forall upd, In upd ur.2 ->
                   In upd.1 params \/ (next_loc w <= upd.1)%nat)
}.

End Contracts.
Export Contracts.

Module SwitchRuns.

(** A training run with the clock on and the identity embedding off. *)
Definition clocked_options : options :=
  od_set "learn_clock_params" (VBool true) (demo_options false).

Definition clocked_shared_run : (error + @Net demo_layer) * world :=
  (self <- _configure (Some clocked_options) (Some "out") None Net_new ;;
   self <- _init_params None self ;;
   _init_shared_variables self) empty_world.

Definition clocked_shared_net : @Net demo_layer :=
  Eval vm_compute in net_of clocked_shared_run.
Definition clocked_shared_world : world :=
  Eval vm_compute in clocked_shared_run.2.

Definition clocked_run : (error + @Net demo_layer) * world :=
  Net_init (Some clocked_options) (Some "out") None empty_world.

Definition clocked_net : @Net demo_layer :=
  Eval vm_compute in net_of clocked_run.
Definition clocked_world : world := Eval vm_compute in clocked_run.2.

End SwitchRuns.
Export SwitchRuns.

(** ** Further runs on the demo backend *)

Module MoreRuns.

(** The inference construction of [demo_inference_run], phase by phase. *)
Definition demo_configured_run : (error + @Net demo_layer) * world :=
  _configure (Some [("batch_size", VInt 3)]) None (Some "old") Net_new
             old_world.

Definition demo_configured_net : @Net demo_layer :=
  Eval vm_compute in net_of demo_configured_run.
Definition demo_configured_world : world :=
  Eval vm_compute in demo_configured_run.2.

Definition demo_loaded_run : (error + @Net demo_layer) * world :=
  _init_params (Some "old") demo_configured_net demo_configured_world.

Definition demo_loaded_net : @Net demo_layer :=
  Eval vm_compute in net_of demo_loaded_run.
Definition demo_loaded_world : world := Eval vm_compute in demo_loaded_run.2.

(** A snapshot of the demo [Net]. *)
Definition demo_save_run : (error + @Net demo_layer) * world :=
  save_v_params_to_workspace demo_net None demo_world.

Definition demo_saved_net : @Net demo_layer :=
  Eval vm_compute in net_of demo_save_run.
Definition demo_saved_world : world := Eval vm_compute in demo_save_run.2.

(** The forward function of the demo [Net] and a forward-backward call. *)
Definition demo_fwd : th_function :=
  mkFunction training_inputs [demo_loss] (_prev_state_updates demo_net).

Definition demo_bwd_call : list tensor * gmap loc tensor :=
  Eval vm_compute in
    match call_on demo_fwd_bwd demo_args (heap demo_world) with
    | inr r => r
    | inl _ => ([], ∅)
    end.

(** A training run with learnable initial states and a batch of one. *)
Definition unit_batch_options : options :=
  od_set "batch_size" (VInt 1) (demo_options true).

Definition unit_batch_run : (error + @Net demo_layer) * world :=
  Net_init (Some unit_batch_options) (Some "out") None empty_world.

Definition unit_batch_net : @Net demo_layer :=
  Eval vm_compute in net_of unit_batch_run.
Definition unit_batch_world : world := Eval vm_compute in unit_batch_run.2.

End MoreRuns.
Export MoreRuns.

(** * Properties *)

(** ** The helpers on concrete inputs *)

Example str_last_ex : str_last 4 "LSTM_0_init" = "init" /\ str_last 4 "ab" = "ab".
Proof. split; reflexivity. Qed.

Example str_drop_last_ex :
  str_drop_last 4 "LSTM_0_prev" = "LSTM_0_" /\ str_drop_last 4 "ab" = "".
Proof. split; reflexivity. Qed.

Example str_of_nat_ex : str_of_nat 0 = "0" /\ str_of_nat 12 = "12".
Proof. split; reflexivity. Qed.

Example slice_from_ex :
  slice_from 2 [10; 11; 12; 13] = [12; 13] /\
  slice_from (-1) [10; 11; 12; 13] = [13] /\
  slice_from 9 [10; 11; 12; 13] = [] /\
  slice_from (-9) [10; 11; 12; 13] = [10; 11; 12; 13].
Proof. repeat split; reflexivity. Qed.

Example tile_rows_ex : tile_rows 2 (T1 [7; 8]) = T2 [[7; 8]; [7; 8]].
Proof. reflexivity. Qed.

Example zeros_like_ex : zeros_like (T2 [[7; 8]; [9; 1]]) = T2 [[0; 0]; [0; 0]].
Proof. reflexivity. Qed.

Example steps_from_ex :
  steps_from 2 [10; 11; 12; 13] = [12; 13] /\
  steps_from (-1) [10; 11; 12; 13] = [13].
Proof. split; reflexivity. Qed.

(** ** Reasoning about computations *)

Module MonadFacts.

Lemma bind_inr {A B} (m : M A) (k : A -> M B) w b w' :
  bind m k w = (inr b, w') ->
  exists a w1, m w = (inr a, w1) /\ k a w1 = (inr b, w').
Proof.
  unfold bind. destruct (m w) as [[e | a] w1]; intros Hk.
  - discriminate.
  - exists a, w1. split; [reflexivity | exact Hk].
Qed.

Lemma bind_ok {A B} (m : M A) (k : A -> M B) w a w1 :
  m w = (inr a, w1) -> bind m k w = k a w1.
Proof. intros Hm. unfold bind. rewrite Hm. reflexivity. Qed.

Lemma bind_fail {A B} (m : M A) (k : A -> M B) w e w1 :
  m w = (inl e, w1) -> bind m k w = (inl e, w1).
Proof. intros Hm. unfold bind. rewrite Hm. reflexivity. Qed.

Lemma ret_inr {A} (a b : A) w w' : ret a w = (inr b, w') -> a = b /\ w = w'.
Proof. unfold ret. intros Hr. inversion Hr. split; reflexivity. Qed.

Lemma lift_option_inr {A} e (o : option A) a w w' :
  lift_option e o w = (inr a, w') -> o = Some a /\ w = w'.
Proof.
  destruct o as [x |]; simpl; intros Hr.
  - apply ret_inr in Hr as [-> ->]. split; reflexivity.
  - discriminate.
Qed.

Lemma lift_result_inr {A} (r : error + A) a w w' :
  lift_result r w = (inr a, w') -> r = inr a /\ w = w'.
Proof.
  destruct r as [e | x]; simpl; intros Hr.
  - discriminate.
  - apply ret_inr in Hr as [-> ->]. split; reflexivity.
Qed.

Lemma assert_inr b u w w' : assert b w = (inr u, w') -> b = true /\ w = w'.
Proof.
  destruct b; simpl; intros Hr.
  - apply ret_inr in Hr as [_ ->]. split; reflexivity.
  - discriminate.
Qed.

(** A property of the accumulator that every iteration keeps holds after
    the loop. *)
Lemma for_each_invariant {A S} (I : S -> Prop) (body : A -> S -> M S) :
  (forall x s w s' w', I s -> body x s w = (inr s', w') -> I s') ->
  forall xs s w s' w',
    I s -> for_each body xs s w = (inr s', w') -> I s'.
Proof.
  intros Hbody xs. induction xs as [| x xs IH]; intros s w s' w' Hs Hrun.
  - apply ret_inr in Hrun as [<- _]. exact Hs.
  - simpl in Hrun. apply bind_inr in Hrun as (s1 & w1 & Hx & Hrest).
    eapply IH; [| exact Hrest]. eapply Hbody; eassumption.
Qed.

End MonadFacts.
Export MonadFacts.

(** Splits a successful run into the runs of its steps. *)
Ltac inv_run H :=
  cbv beta in H;
  repeat
    match type of H with
    | bind _ _ _ = (inr _, _) =>
        let a := fresh "a" in
        let w := fresh "w" in
        let Hs := fresh "Hstep" in
        apply bind_inr in H as (a & w & Hs & H)
    end.

Ltac inv_step H :=
  first
    [ apply ret_inr in H as [? ?]
    | apply lift_option_inr in H as [? ?]
    | apply lift_result_inr in H as [? ?]
    | apply assert_inr in H as [? ?] ].

(** ** What each phase of the constructor keeps *)

Section Frame.
Context `{Kernels} `{Utils} {layer : Type} `{LayerAPI layer} `{OptimizerAPI}.

Lemma same_config_refl (a : @Net layer) : same_config a a.
Proof. repeat split. Qed.

Lemma same_config_trans (a b c : @Net layer) :
  same_config a b -> same_config b c -> same_config a c.
Proof.
  intros (? & ? & ? & ?) (? & ? & ? & ?). repeat split; congruence.
Qed.

Lemma _init_params_config load_from (n n' : @Net layer) w w' :
  _init_params load_from n w = (inr n', w') -> same_config n n'.
Proof.
  unfold _init_params. intros Hrun.
  inv_run Hrun.
  assert (Hemb : same_config n a0.2).
  { revert Hstep0. destruct (negb (truthy a)); intros Hstep0.
    - inv_step Hstep0. subst a0. repeat split.
    - inv_run Hstep0. inv_step Hstep0. subst a0. repeat split. }
  assert (Hloop : same_config n a4).
  { eapply (for_each_invariant (fun s => same_config n s)); [| | exact Hstep4].
    - intros i s w10 s' w11 Hs Hbody. cbv beta in Hbody. inv_run Hbody. inv_step Hbody.
      subst s'. eapply same_config_trans; [exact Hs |]. repeat split.
    - eapply same_config_trans; [exact Hemb |]. repeat split. }
  eapply same_config_trans; [exact Hloop |].
  revert Hrun. destruct load_from as [lf |]; intros Hrun.
  - inv_run Hrun. inv_step Hrun. subst n'. repeat split.
  - inv_step Hrun. subst n'. repeat split.
Qed.

(** What [_init_shared_variables] leaves as it was. *)
Lemma _init_shared_variables_frame (n n' : @Net layer) w w' :
  _init_shared_variables n w = (inr n', w') ->
  same_config n n' /\ _params n' = _params n /\ _layers n' = _layers n.
Proof.
  unfold _init_shared_variables. intros Hrun. inv_run Hrun.
  revert Hrun. destruct (_is_training n); intros Hrun.
  - inv_run Hrun. revert Hrun. destruct (truthy a2); intros Hrun.
    + inv_run Hrun. inv_step Hrun. subst n'. repeat split.
    + inv_step Hrun. subst n'. repeat split.
  - inv_step Hrun. subst n'. repeat split.
Qed.

Lemma _setup_training_graph_frame (n n' : @Net layer) w w' :
  _setup_training_graph n w = (inr n', w') ->
  same_config n n' /\ same_shared n n' /\ _params n' = _params n.
Proof.
  unfold _setup_training_graph. intros Hrun. inv_run Hrun.
  revert Hrun. destruct (truthy a2); intros Hrun.
  - inv_run Hrun. inv_step Hrun. subst n'. repeat split.
  - inv_step Hrun. subst n'. repeat split.
Qed.

Lemma _setup_inference_graph_frame (n n' : @Net layer) w w' :
  _setup_inference_graph n w = (inr n', w') ->
  same_config n n' /\ same_shared n n' /\ _params n' = _params n.
Proof.
  unfold _setup_inference_graph. intros Hrun. inv_run Hrun.
  inv_step Hrun. subst n'. repeat split.
Qed.

(** The phases of a construction that succeeds. *)
Lemma Net_init_phases options save_to load_from (n : @Net layer) w w' :
  Net_init options save_to load_from w = (inr n, w') ->
  exists n1 w1 n2 w2 n3 w3,
    _configure options save_to load_from Net_new w = (inr n1, w1) /\
    _init_params load_from n1 w1 = (inr n2, w2) /\
    _init_shared_variables n2 w2 = (inr n3, w3) /\
    (if _is_training n3 then _setup_training_graph n3 w3
     else _setup_inference_graph n3 w3) = (inr n, w').
Proof.
  unfold Net_init. intros Hrun. inv_run Hrun.
  exists a, w0, a0, w1, a1, w2. repeat split; try assumption.
  destruct (_is_training a1); exact Hrun.
Qed.
End Frame.

(** ** Mode violations *)

Section ModeViolation.
Context `{Kernels} `{Utils} {layer : Type} `{LayerAPI layer} `{OptimizerAPI}.

(** C9: every training-only operation raises [AssertionError] on an
    inference-mode [Net], before it does anything else, and [save_param]
    raises [AssertionError] on a training-mode [Net]; the world is left as
    it was. *)
Theorem mode_violation_fails_fast (n : @Net layer) (w : world) :
  if _is_training n then
    forall param_name filename,
      save_param n param_name filename w = (inl AssertionError, w)
  else
    compile_f_fwd_bwd_propagate n w = (inl AssertionError, w) /\
    compile_f_update_v_params n w = (inl AssertionError, w) /\
    compile_f_fwd_bwd_for_init n w = (inl AssertionError, w) /\
    compile_f_update_init_states n w = (inl AssertionError, w) /\
    compile_f_initialize_optimizer n w = (inl AssertionError, w) /\
    (forall name,
       save_v_params_to_workspace n name w = (inl AssertionError, w)) /\
    (forall name,
       load_v_params_from_workspace n name w = (inl AssertionError, w)) /\
    (forall name,
       remove_params_file_from_workspace n name w = (inl AssertionError, w)).
Proof.
  destruct (_is_training n) eqn:Hmode.
  - intros param_name filename. unfold save_param.
    rewrite Hmode. reflexivity.
  - unfold compile_f_fwd_bwd_propagate, compile_f_update_v_params,
      compile_f_fwd_bwd_for_init, compile_f_update_init_states,
      compile_f_initialize_optimizer, save_v_params_to_workspace,
      load_v_params_from_workspace, remove_params_file_from_workspace,
      assert_training_with_init.
    rewrite Hmode. repeat split; reflexivity.
Qed.

End ModeViolation.

(** ** Configuration *)

Section DictFacts.
Context {V : Type}.

Lemma od_get_set_same k (v : V) d : od_get k (od_set k v d) = Some v.
Proof.
  induction d as [| [k' v'] d IH]; simpl.
  - rewrite String.eqb_refl. reflexivity.
  - destruct (String.eqb k k') eqn:Hk; simpl; rewrite Hk.
    + reflexivity.
    + exact IH.
Qed.

Lemma od_get_set_other k k' (v : V) d :
  k' <> k -> od_get k' (od_set k v d) = od_get k' d.
Proof.
  intros Hne. induction d as [| [k0 v0] d IH]; simpl.
  - apply String.eqb_neq in Hne. rewrite Hne. reflexivity.
  - destruct (String.eqb k k0) eqn:Hk; simpl.
    + apply String.eqb_eq in Hk. subst k0.
      apply String.eqb_neq in Hne. rewrite Hne. reflexivity.
    + rewrite IH. reflexivity.
Qed.

Lemma od_mem_false_get k (d : odict V) : od_mem k d = false -> od_get k d = None.
Proof. unfold od_mem. destruct (od_get k d); [discriminate | reflexivity]. Qed.

End DictFacts.

Section Configuration.
Context `{Kernels} `{Utils} {layer : Type} `{LayerAPI layer} `{OptimizerAPI}.

(** C2: resuming a training run with options that differ from the
    persisted ones raises [AssertionError] in [_configure].  Up to the
    failure the only file access is the read of the persisted options: the
    parameter archive is not read, no file is written, and no shared
    variable exists, so no graph has been built. *)
Theorem resume_mismatch_fails_in_configure
    (O loaded : options) (save_to P : string) (w : world) :
  fs w !! (P +:+ "/options.pkl") = Some (FPickle loaded) ->
  od_eqb value_eqb O loaded = false ->
  exists w',
    _configure (layer := layer) (Some O) (Some save_to) (Some P) Net_new w
      = (inl AssertionError, w') /\
    Net_init (layer := layer) (Some O) (Some save_to) (Some P) w
      = (inl AssertionError, w') /\
    log w' = log w ++ [EvRead (P +:+ "/options.pkl"); EvPrint mismatch_message] /\
    fs w' = fs w /\ heap w' = heap w /\ next_loc w' = next_loc w.
Proof.
  intros Hfile Hdiff.
  assert (Hcfg :
    _configure (layer := layer) (Some O) (Some save_to) (Some P) Net_new w =
    (inl AssertionError,
     with_log (log w ++ [EvRead (P +:+ "/options.pkl");
                         EvPrint mismatch_message]) w)).
  { unfold _configure, pk_load, emit, bind, lift_option, ret, raise. simpl.
    rewrite Hfile, Hdiff. simpl. rewrite <- app_assoc. reflexivity. }
  eexists. split; [exact Hcfg |]. split.
  - unfold Net_init. erewrite bind_fail; [reflexivity | exact Hcfg].
  - simpl. repeat split.
Qed.

(** The inference branch of [_configure], step by step. *)
Lemma _configure_inference options load_from (n : @Net layer) w w' :
  _configure options None load_from Net_new w = (inr n, w') ->
  exists supplied path loaded batch_size,
    options = Some supplied /\ load_from = Some path /\
    fs w !! (path +:+ "/options.pkl") = Some (FPickle loaded) /\
    od_get "batch_size" supplied = Some batch_size /\
    _is_training n = false /\
    _options n = od_set "batch_size" batch_size loaded.
Proof.
  unfold _configure. intros Hrun. inv_run Hrun.
  inv_step Hstep0. inv_step Hstep2. inv_step Hstep4. inv_step Hrun.
  subst. exists a2, a0, a1, a4.
  unfold pk_load in Hstep1. inv_run Hstep1.
  unfold emit in Hstep0. inversion Hstep0; subst; clear Hstep0.
  inversion Hstep; subst; clear Hstep. simpl in Hstep1.
  destruct (fs w !! (a0 +:+ "/options.pkl")) as [[o | arr] |] eqn:Hfile;
    try discriminate.
  inversion Hstep1; subst. repeat split; assumption.
Qed.

(** C6: a [Net] constructed for inference holds the option set loaded from
    disk with its [batch_size] replaced by the supplied one, every other
    field as loaded; and an inference construction whose options lack
    [batch_size] (or are absent) fails. *)
Theorem inference_overrides_only_batch_size :
  (forall options load_from w (n : @Net layer) w',
     Net_init options None (Some load_from) w = (inr n, w') ->
     exists supplied loaded batch_size,
       options = Some supplied /\
       fs w !! (load_from +:+ "/options.pkl") = Some (FPickle loaded) /\
       od_get "batch_size" supplied = Some batch_size /\
       _is_training n = false /\
       _options n = od_set "batch_size" batch_size loaded /\
       od_get "batch_size" (_options n) = Some batch_size /\
       forall k, k <> "batch_size" -> od_get k (_options n) = od_get k loaded) /\
  (forall options load_from w,
     match options with
     | Some supplied => od_mem "batch_size" supplied = false
     | None => True
     end ->
     exists e w',
       Net_init (layer := layer) options None (Some load_from) w = (inl e, w')).
Proof.
  split.
  - intros options load_from w n w' Hrun.
    apply Net_init_phases in Hrun
      as (n1 & w1 & n2 & w2 & n3 & w3 & Hcfg & Hpar & Hsh & Hgraph).
    apply _configure_inference in Hcfg
      as (supplied & path & loaded & bs & -> & Hpath & Hfile & Hbs & Hmode & Hopts).
    inversion Hpath; subst path; clear Hpath.
    apply _init_params_config in Hpar as (Hm2 & Ho2 & _).
    apply _init_shared_variables_frame in Hsh as ((Hm3 & Ho3 & _) & _).
    assert (Hfinal : _is_training n = false /\ _options n = _options n1).
    { assert (Hm : _is_training n3 = false) by congruence.
      rewrite Hm in Hgraph.
      apply _setup_inference_graph_frame in Hgraph as ((Hm4 & Ho4 & _) & _).
      split; congruence. }
    destruct Hfinal as [Hmn Hon].
    exists supplied, loaded, bs. rewrite Hon, Hopts.
    repeat split; try assumption.
    + apply od_get_set_same.
    + intros k Hk. apply od_get_set_other. exact Hk.
  - intros options load_from w Hmissing.
    destruct (Net_init (layer := layer) options None (Some load_from) w)
      as [[e | n] w'] eqn:Hrun.
    + exists e, w'. reflexivity.
    + exfalso.
      apply Net_init_phases in Hrun
        as (n1 & w1 & _ & _ & _ & _ & Hcfg & _).
      apply _configure_inference in Hcfg
        as (supplied & path & loaded & bs & -> & _ & _ & Hbs & _).
      apply od_mem_false_get in Hmissing. congruence.
Qed.

End Configuration.

(** ** Names and their suffixes *)

Section StringFacts.

Lemma length_append s t :
  String.length (s +:+ t) = (String.length s + String.length t)%nat.
Proof. induction s as [| c s IH]; simpl; [reflexivity | now rewrite IH]. Qed.

Lemma substring_whole t : String.substring 0 (String.length t) t = t.
Proof. induction t as [| c t IH]; simpl; [reflexivity | now rewrite IH]. Qed.

Lemma substring_past s t n :
  String.substring (String.length s) n (s +:+ t) = String.substring 0 n t.
Proof. induction s as [| c s IH]; simpl; [reflexivity | exact IH]. Qed.

(** [(s + t)[-len(t):] == t] *)
Lemma str_last_append s t : str_last (String.length t) (s +:+ t) = t.
Proof.
  unfold str_last. rewrite length_append.
  replace (String.length s + String.length t - String.length t)%nat
    with (String.length s) by lia.
  rewrite substring_past. apply substring_whole.
Qed.

Lemma substring_split s n :
  (n <= String.length s)%nat ->
  s = String.substring 0 n s +:+ String.substring n (String.length s - n) s.
Proof.
  revert n. induction s as [| c s IH]; intros n Hn; simpl in *.
  - destruct n; reflexivity.
  - destruct n as [| n]; simpl.
    + rewrite substring_whole. reflexivity.
    + change (String c s = String c (String.substring 0 n s +:+
               String.substring n (String.length s - n) s)).
      f_equal. apply IH. lia.
Qed.

Lemma substring_short s m :
  (String.length s <= m)%nat -> String.substring 0 m s = s.
Proof.
  revert m. induction s as [| c s IH]; intros m Hm; simpl in *.
  - destruct m; reflexivity.
  - destruct m as [| m]; [lia |]. f_equal. apply IH. lia.
Qed.

(** [k[-n:] == t] with [len(t) == n] says that [k] ends with [t]. *)
Lemma str_last_suffix k t :
  str_last (String.length t) k = t <-> exists p, k = p +:+ t.
Proof.
  split.
  - intros Hlast. unfold str_last in Hlast.
    destruct (le_lt_dec (String.length t) (String.length k)) as [Hle | Hlt].
    + exists (String.substring 0 (String.length k - String.length t) k).
      pose proof (substring_split k (String.length k - String.length t))
        as Hsplit.
      replace (String.length k - (String.length k - String.length t))%nat
        with (String.length t) in Hsplit by lia.
      rewrite Hlast in Hsplit. apply Hsplit. lia.
    + exists "". simpl.
      replace (String.length k - String.length t)%nat with 0%nat in Hlast by lia.
      rewrite substring_short in Hlast by lia. exact Hlast.
  - intros [p ->]. apply str_last_append.
Qed.

Lemma npz_path_workspace s : npz_path (s +:+ ".npz") = s +:+ ".npz".
Proof.
  unfold npz_path.
  change (str_last 4 (s +:+ ".npz"))
    with (str_last (String.length ".npz") (s +:+ ".npz")).
  rewrite str_last_append. reflexivity.
Qed.

Lemma append_assoc s t u : (s +:+ t) +:+ u = s +:+ t +:+ u.
Proof.
  induction s as [| c s IH]; [reflexivity |].
  change (String c ((s +:+ t) +:+ u) = String c (s +:+ t +:+ u)).
  f_equal. exact IH.
Qed.

End StringFacts.

(** ** Snapshots in the workspace *)

Section Workspace.
Context `{Kernels} `{Utils} {layer : Type} `{LayerAPI layer} `{OptimizerAPI}.

Lemma pull_loop (vp : odict loc) acc w :
  Forall (fun kv => is_Some (heap w !! kv.2)) vp ->
  for_each (fun kv acc => v <- get_value kv.2 ;; ret (od_set kv.1 v acc))
           vp acc w
  = (inr (pulled_params vp (heap w) acc), w).
Proof.
  revert acc. induction vp as [| [k l] vp IH]; intros acc Hall.
  - reflexivity.
  - inversion Hall as [| ? ? [t Ht] Hrest]; subst. simpl in Ht.
    cbn [for_each].
    rewrite (bind_ok _ _ w (od_set k t acc) w).
    + rewrite IH by exact Hrest. unfold pulled_params. simpl.
      rewrite Ht. reflexivity.
    + cbv beta. rewrite (bind_ok _ _ w t w); [reflexivity |].
      unfold get_value. simpl. rewrite Ht. reflexivity.
Qed.

Lemma pulled_get_other (vp : odict loc) h acc k :
  ~ In k (od_keys vp) -> od_get k (pulled_params vp h acc) = od_get k acc.
Proof.
  unfold pulled_params.
  revert acc. induction vp as [| [k0 l0] vp IH]; intros acc Hk; simpl.
  - reflexivity.
  - simpl in Hk. rewrite IH by tauto.
    destruct (h !! l0); [| reflexivity].
    apply od_get_set_other. intros ->. tauto.
Qed.

Lemma pulled_get (vp : odict loc) h acc k l t :
  List.NoDup (od_keys vp) -> In (k, l) vp -> h !! l = Some t ->
  od_get k (pulled_params vp h acc) = Some t.
Proof.
  revert acc. induction vp as [| [k0 l0] vp IH]; intros acc Hnd Hin Hl.
  - destruct Hin.
  - simpl in Hnd. inversion Hnd as [| ? ? Hfresh Hnd']; subst.
    destruct Hin as [Heq | Hin].
    + inversion Heq; subst k0 l0. simpl. rewrite Hl.
      change (od_get k (pulled_params vp h (od_set k t acc)) = Some t).
      rewrite pulled_get_other.
      * apply od_get_set_same.
      * exact Hfresh.
    + simpl. apply IH; assumption.
Qed.

Lemma with_heap_same w t l :
  heap w !! l = Some t -> with_heap (<[l := t]> (heap w)) w = w.
Proof.
  intros Hl. unfold with_heap. rewrite insert_id by exact Hl.
  destruct w. reflexivity.
Qed.

Lemma push_loop (vp : odict loc) (params : odict tensor) w :
  Forall (fun kv => exists t, od_get kv.1 params = Some t /\
                              heap w !! kv.2 = Some t) vp ->
  for_each (fun kv (_ : unit) =>
              v <- lift_option (KeyError kv.1) (od_get kv.1 params) ;;
              set_value kv.2 v) vp tt w
  = (inr tt, w).
Proof.
  induction vp as [| [k l] vp IH]; intros Hall.
  - reflexivity.
  - inversion Hall as [| ? ? (t & Hget & Hl) Hrest]; subst. simpl in Hget, Hl.
    cbn [for_each].
    rewrite (bind_ok _ _ w tt w).
    + apply IH. exact Hrest.
    + cbv beta. rewrite (bind_ok _ _ w t w).
      * unfold set_value. simpl. rewrite with_heap_same by exact Hl.
        reflexivity.
      * simpl. rewrite Hget. reflexivity.
Qed.

(** The pull loop returns only when every shared variable exists. *)
Lemma pull_loop_inr (vp : odict loc) acc w r w' :
  for_each (fun kv acc => v <- get_value kv.2 ;; ret (od_set kv.1 v acc))
           vp acc w = (inr r, w') ->
  w' = w /\ r = pulled_params vp (heap w) acc /\
  Forall (fun kv => is_Some (heap w !! kv.2)) vp.
Proof.
  revert acc w. induction vp as [| [k l] vp IH]; intros acc w Hrun.
  - apply ret_inr in Hrun as [<- <-]. repeat split. constructor.
  - cbn [for_each] in Hrun.
    apply bind_inr in Hrun as (acc1 & w1 & Hbody & Hrest).
    cbv beta in Hbody.
    apply bind_inr in Hbody as (t & w0 & Hget & Hret).
    apply ret_inr in Hret as [<- ->].
    unfold get_value in Hget. simpl in Hget.
    destruct (heap w !! l) as [t' |] eqn:Hl; [| discriminate].
    inversion Hget; subst t' w1.
    apply IH in Hrest as (-> & -> & Hall).
    split; [reflexivity |]. split.
    + unfold pulled_params. simpl. rewrite Hl. reflexivity.
    + constructor; [| exact Hall]. simpl. rewrite Hl. eauto.
Qed.

(** The push loop writes, into every shared variable, the array of its
    name; nothing else changes. *)
Lemma push_loop_writes (vp : odict loc) (params : odict tensor) w :
  Forall (fun kv => is_Some (od_get kv.1 params)) vp ->
  exists w',
    for_each (fun kv (_ : unit) =>
                v <- lift_option (KeyError kv.1) (od_get kv.1 params) ;;
                set_value kv.2 v) vp tt w = (inr tt, w') /\
    fs w' = fs w /\ log w' = log w /\ next_loc w' = next_loc w /\
    (forall l, ~ In l (od_values vp) -> heap w' !! l = heap w !! l) /\
    (forall l t, In l (od_values vp) ->
                 (forall k, In (k, l) vp -> od_get k params = Some t) ->
                 heap w' !! l = Some t).
Proof.
  revert w. induction vp as [| [k0 l0] vp IH]; intros w Hall.
  - exists w. repeat split; try reflexivity. intros l t [].
  - inversion Hall as [| ? ? [t0 Ht0] Hrest]; subst. simpl in Ht0.
    destruct (IH (with_heap (<[l0 := t0]> (heap w)) w) Hrest)
      as (w' & Hrun & Hfs & Hlog & Hnext & Hout & Hin).
    exists w'. split.
    { cbn [for_each].
      rewrite (bind_ok _ _ w tt (with_heap (<[l0 := t0]> (heap w)) w)).
      - exact Hrun.
      - cbv beta. rewrite (bind_ok _ _ w t0 w); [reflexivity |].
        simpl. rewrite Ht0. reflexivity. }
    split; [exact Hfs |]. split; [exact Hlog |]. split; [exact Hnext |].
    split.
    + intros l Hl. simpl in Hl. rewrite Hout by tauto. simpl.
      apply lookup_insert_ne. intros ->. tauto.
    + intros l t Hl Hkeys.
      destruct (in_dec Nat.eq_dec l (od_values vp)) as [Hyes | Hno].
      * apply Hin; [exact Hyes |]. intros k Hk. apply Hkeys. now right.
      * simpl in Hl. destruct Hl as [<- | Hl]; [| tauto].
        rewrite Hout by exact Hno. simpl. rewrite lookup_insert_eq.
        rewrite <- Ht0. apply Hkeys. now left.
Qed.

(** What a save that returns has done. *)
Lemma save_v_params_to_workspace_inr (n n1 : @Net layer) name dir w w1 :
  _save_to n = Some dir ->
  save_v_params_to_workspace n name w = (inr n1, w1) ->
  let saved := pulled_params (_v_params n) (heap w) (_params n) in
  let path := dir +:+ "/" +:+ snapshot_name name +:+ ".npz" in
  _is_training n = true /\
  Forall (fun kv => is_Some (heap w !! kv.2)) (_v_params n) /\
  n1 = set_params saved n /\
  w1 = with_fs (<[path := FNpz saved]> (fs w))
               (with_log (log w ++ [EvWrite path]) w).
Proof.
  intros Hdir Hsave saved path.
  assert (Hpath : npz_path path = path).
  { unfold path. rewrite <- !append_assoc. apply npz_path_workspace. }
  unfold save_v_params_to_workspace in Hsave.
  apply bind_inr in Hsave as (u & w0 & Hmode & Hsave).
  apply assert_inr in Hmode as [Hmode <-].
  apply bind_inr in Hsave as (params & w0 & Hpull & Hsave).
  apply pull_loop_inr in Hpull as (-> & -> & Halloc).
  cbv zeta in Hsave.
  apply bind_inr in Hsave as (p & w0 & Hp & Hsave).
  unfold workspace_path in Hp. simpl in Hp. rewrite Hdir in Hp.
  simpl in Hp. apply ret_inr in Hp as [<- <-].
  apply bind_inr in Hsave as (u' & w0 & Hwrite & Hret).
  apply ret_inr in Hret as [<- ->].
  unfold np_savez in Hwrite. simpl in Hwrite.
  fold saved in Hwrite. fold path in Hwrite.
  destruct (od_mem "file" saved); [discriminate |].
  rewrite Hpath in Hwrite. unfold bind, emit in Hwrite. simpl in Hwrite.
  destruct (writable _ path); [| discriminate].
  inversion Hwrite; subst w1.
  repeat split; assumption.
Qed.

(** The save of a [Net] whose shared variables exist: refused for a
    parameter called [file], an [IOError] where the archive cannot be
    created, and otherwise the host copy on disk. *)
Lemma save_v_params_to_workspace_run (n : @Net layer) name dir w :
  _is_training n = true ->
  _save_to n = Some dir ->
  Forall (fun kv => is_Some (heap w !! kv.2)) (_v_params n) ->
  let saved := pulled_params (_v_params n) (heap w) (_params n) in
  let path := dir +:+ "/" +:+ snapshot_name name +:+ ".npz" in
  save_v_params_to_workspace n name w
  = if od_mem "file" saved then (inl TypeError, w)
    else if writable w path
         then (inr (set_params saved n),
               with_fs (<[path := FNpz saved]> (fs w))
                       (with_log (log w ++ [EvWrite path]) w))
         else (inl (IOError path), with_log (log w ++ [EvWrite path]) w).
Proof.
  intros Hmode Hdir Halloc saved path.
  assert (Hpath : npz_path path = path).
  { unfold path. rewrite <- !append_assoc. apply npz_path_workspace. }
  unfold save_v_params_to_workspace.
  rewrite (bind_ok _ _ w tt w) by (rewrite Hmode; reflexivity).
  rewrite (bind_ok _ _ w saved w) by (apply pull_loop; exact Halloc).
  cbv zeta.
  rewrite (bind_ok _ _ w path w)
    by (unfold workspace_path; simpl; rewrite Hdir; reflexivity).
  unfold np_savez. change (_params (set_params saved n)) with saved.
  destruct (od_mem "file" saved); [reflexivity |].
  rewrite Hpath. unfold bind, emit.
  change (writable (with_log (log w ++ [EvWrite path]) w) path)
    with (writable w path).
  destruct (writable w path); reflexivity.
Qed.

(** The load of a snapshot that holds the host copy [saved]. *)
Lemma load_v_params_from_workspace_restores (n : @Net layer) name dir
    (h : gmap loc tensor) (params : odict tensor) w2 :
  _is_training n = true ->
  _save_to n = Some dir ->
  List.NoDup (od_keys (_v_params n)) ->
  Forall (fun kv => is_Some (h !! kv.2)) (_v_params n) ->
  let saved := pulled_params (_v_params n) h params in
  let path := dir +:+ "/" +:+ snapshot_name name +:+ ".npz" in
  fs w2 !! path = Some (FNpz saved) ->
  exists w3,
    load_v_params_from_workspace n name w2 = (inr tt, w3) /\
    fs w3 = fs w2 /\
    (forall k l, In (k, l) (_v_params n) -> heap w3 !! l = h !! l) /\
    (forall l, ~ In l (od_values (_v_params n)) ->
               heap w3 !! l = heap w2 !! l).
Proof.
  intros Hmode Hdir Hkeys Halloc saved path Hkept.
  set (w2' := with_log (log w2 ++ [EvRead path]) w2).
  destruct (push_loop_writes (_v_params n) saved w2')
    as (w3 & Hrun & Hfs & _ & _ & Hout & Hin).
  { apply List.Forall_forall. intros [k l] Hkl. simpl.
    pose proof (proj1 (List.Forall_forall _ _) Halloc (k, l) Hkl) as [t Ht].
    exists t. eapply pulled_get; eassumption. }
  exists w3. split; [| split; [exact Hfs | split]].
  - unfold load_v_params_from_workspace.
    rewrite (bind_ok _ _ w2 tt w2) by (rewrite Hmode; reflexivity).
    rewrite (bind_ok _ _ w2 path w2)
      by (unfold workspace_path; simpl; rewrite Hdir; reflexivity).
    rewrite (bind_ok _ _ w2 saved w2').
    + exact Hrun.
    + unfold np_load, emit, bind. simpl. rewrite Hkept. reflexivity.
  - intros k l Hkl.
    pose proof (proj1 (List.Forall_forall _ _) Halloc (k, l) Hkl) as [t Ht].
    simpl in Ht. rewrite Ht. apply Hin.
    + apply in_map_iff. exists (k, l). split; [reflexivity | exact Hkl].
    + intros k' Hk'. eapply pulled_get; eassumption.
  - intros l Hl. rewrite Hout by exact Hl. reflexivity.
Qed.

(** C8: on a training-mode [Net] whose shared variables exist,
    [save_v_params_to_workspace(name)] leaves the shared values as they are
    and puts the host copy of the parameters on disk; it is refused only
    for a parameter called [file] or where the archive cannot be created.
    After it, [load_v_params_from_workspace(name)] gives every parameter's
    shared variable the value it had when it was saved: at once, where it
    leaves the shared values as they were, and from any later state in which
    the snapshot file is unchanged, whatever the shared variables hold by
    then; no other shared variable and no file is touched. *)
Theorem workspace_round_trip (n : @Net layer) (name : option string)
    (dir : string) (w : world) :
  _is_training n = true ->
  _save_to n = Some dir ->
  List.NoDup (od_keys (_v_params n)) ->
  Forall (fun kv => is_Some (heap w !! kv.2)) (_v_params n) ->
  let saved := pulled_params (_v_params n) (heap w) (_params n) in
  let path := dir +:+ "/" +:+ snapshot_name name +:+ ".npz" in
  if od_mem "file" saved then
    save_v_params_to_workspace n name w = (inl TypeError, w)
  else if writable w path then
    exists n1 w1,
      save_v_params_to_workspace n name w = (inr n1, w1) /\
      _v_params n1 = _v_params n /\
      heap w1 = heap w /\
      fs w1 !! path = Some (FNpz saved) /\
      (exists w2,
         load_v_params_from_workspace n1 name w1 = (inr tt, w2) /\
         heap w2 = heap w) /\
      forall w2,
        fs w2 !! path = fs w1 !! path ->
        exists w3,
          load_v_params_from_workspace n1 name w2 = (inr tt, w3) /\
          fs w3 = fs w2 /\
          (forall k l, In (k, l) (_v_params n) ->
                       heap w3 !! l = heap w !! l) /\
          (forall l, ~ In l (od_values (_v_params n)) ->
                     heap w3 !! l = heap w2 !! l)
  else
    exists w1,
      save_v_params_to_workspace n name w = (inl (IOError path), w1) /\
      fs w1 = fs w /\ heap w1 = heap w.
Proof.
  intros Hmode Hdir Hkeys Halloc saved path.
  rewrite (save_v_params_to_workspace_run n name dir w Hmode Hdir Halloc).
  fold saved. fold path.
  destruct (od_mem "file" saved); [reflexivity |].
  destruct (writable w path).
  - set (w1 := with_fs (<[path := FNpz saved]> (fs w))
                       (with_log (log w ++ [EvWrite path]) w)).
    assert (Hfile : fs w1 !! path = Some (FNpz saved))
      by (simpl; apply lookup_insert_eq).
    assert (Hload : forall w2,
      fs w2 !! path = fs w1 !! path ->
      exists w3,
        load_v_params_from_workspace (set_params saved n) name w2
        = (inr tt, w3) /\
        fs w3 = fs w2 /\
        (forall k l, In (k, l) (_v_params n) -> heap w3 !! l = heap w !! l) /\
        (forall l, ~ In l (od_values (_v_params n)) ->
                   heap w3 !! l = heap w2 !! l)).
    { intros w2 Hkept. rewrite Hfile in Hkept.
      exact (load_v_params_from_workspace_restores (set_params saved n) name
               dir (heap w) (_params n) w2 Hmode Hdir Hkeys Halloc Hkept). }
    exists (set_params saved n), w1.
    split; [reflexivity |]. split; [reflexivity |]. split; [reflexivity |].
    split; [exact Hfile |]. split; [| exact Hload].
    destruct (Hload w1 eq_refl) as (w2 & Hrun & _ & Hin & Hout).
    exists w2. split; [exact Hrun |].
    apply map_eq. intros l.
    destruct (in_dec Nat.eq_dec l (od_values (_v_params n))) as [Hl | Hl].
    + apply in_map_iff in Hl as ([k l'] & Heq & Hkl). simpl in Heq.
      subst l'. exact (Hin k l Hkl).
    + rewrite (Hout l Hl). reflexivity.
  - eexists. split; [reflexivity |]. split; reflexivity.
Qed.

End Workspace.

(** ** Calls of compiled functions *)

Section CallFacts.
Context `{Kernels}.

Lemma first_dup_None ls : first_dup ls = None -> List.NoDup ls.
Proof.
  induction ls as [| l ls IH]; simpl; intros Hd.
  - constructor.
  - destruct (existsb (Nat.eqb l) ls) eqn:Hex; [discriminate |].
    constructor; [| apply IH; exact Hd].
    intros Hin.
    assert (existsb (Nat.eqb l) ls = true) as Hyes.
    { apply existsb_exists. exists l. split; [exact Hin |].
      apply Nat.eqb_refl. }
    congruence.
Qed.

Lemma NoDup_first_dup ls : List.NoDup ls -> first_dup ls = None.
Proof.
  induction 1 as [| l ls Hfresh Hnd IH]; simpl; [reflexivity |].
  destruct (existsb (Nat.eqb l) ls) eqn:Hex; [| exact IH].
  apply existsb_exists in Hex as (x & Hin & Heq).
  apply Nat.eqb_eq in Heq. subst x. contradiction.
Qed.

Lemma write_all_out targets news (h : gmap loc tensor) l :
  ~ In l targets -> write_all targets news h !! l = h !! l.
Proof.
  unfold write_all. revert news h.
  induction targets as [| l0 targets IH]; intros news h Hout.
  - reflexivity.
  - destruct news as [| t0 news]; [reflexivity |]. simpl.
    rewrite IH by (simpl in Hout; tauto).
    apply lookup_insert_ne. simpl in Hout. intros ->. tauto.
Qed.

Lemma write_all_in targets news (h : gmap loc tensor) l t :
  List.NoDup targets -> In (l, t) (combine targets news) ->
  write_all targets news h !! l = Some t.
Proof.
  revert news h.
  induction targets as [| l0 targets IH]; intros news h Hnd Hin.
  - destruct Hin.
  - destruct news as [| t0 news]; [destruct Hin |].
    inversion Hnd as [| ? ? Hfresh Hnd']; subst.
    destruct Hin as [Heq | Hin].
    + inversion Heq; subst l0 t0.
      change (write_all targets news (<[l := t]> h) !! l = Some t).
      rewrite write_all_out by exact Hfresh. apply lookup_insert_eq.
    + change (write_all targets news (<[l0 := t0]> h) !! l = Some t).
      apply IH; assumption.
Qed.

Lemma eval_all_exists E h es :
  Forall (fun e => is_Some (eval E h e)) es ->
  exists ts, eval_all E h es = Some ts.
Proof.
  induction 1 as [| e es [t Ht] _ [ts Hts]]; simpl.
  - exists []. reflexivity.
  - exists (t :: ts). rewrite Ht. simpl. rewrite Hts. reflexivity.
Qed.

Lemma eval_all_combine E h (us : list update) news l e :
  eval_all E h (map snd us) = Some news -> In (l, e) us ->
  exists t, eval E h e = Some t /\ In (l, t) (combine (map fst us) news).
Proof.
  revert news. induction us as [| [l0 e0] us IH]; intros news Hall Hin.
  - destruct Hin.
  - simpl in Hall.
    destruct (eval E h e0) as [t0 |] eqn:He0; [| discriminate]. simpl in Hall.
    destruct (eval_all E h (map snd us)) as [ts |] eqn:Hts; [| discriminate].
    simpl in Hall. inversion Hall; subst news; clear Hall.
    destruct Hin as [Heq | Hin].
    + inversion Heq; subst l0 e0. exists t0. split; [exact He0 |].
      left. reflexivity.
    + destruct (IH ts eq_refl Hin) as (t & Ht & Hc).
      exists t. split; [exact Ht |]. right. exact Hc.
Qed.

(** A call of a function without inputs and outputs: every update is
    computed from the state before the call and written; nothing else
    changes. *)
Lemma call_updates (updates : list update) (h : gmap loc tensor) :
  List.NoDup (map fst updates) ->
  Forall (fun u => is_Some (eval ∅ h u.2)) updates ->
  exists h',
    call_on (mkFunction [] [] updates) [] h = inr ([], h') /\
    (forall l e, In (l, e) updates -> h' !! l = eval ∅ h e) /\
    (forall l, ~ In l (map fst updates) -> h' !! l = h !! l).
Proof.
  intros Hnd Hall.
  destruct (eval_all_exists ∅ h (map snd updates)) as [news Hnews].
  { apply List.Forall_forall. intros e Hin.
    apply in_map_iff in Hin as ([l e'] & <- & Hin).
    exact (proj1 (List.Forall_forall _ _) Hall _ Hin). }
  exists (write_all (map fst updates) news h). split; [| split].
  - unfold call_on. simpl. rewrite Hnews. reflexivity.
  - intros l e Hin.
    destruct (eval_all_combine _ _ _ _ _ _ Hnews Hin) as (t & Ht & Hc).
    rewrite Ht. apply write_all_in; assumption.
  - intros l Hout. apply write_all_out. exact Hout.
Qed.

(** A comprehension whose element computation leaves the world alone. *)
Lemma map_m_pure {A B} (g : A -> M B) (P : A -> B -> Prop) :
  (forall x w y w', g x w = (inr y, w') -> w' = w /\ P x y) ->
  forall xs w ys w',
    map_m g xs w = (inr ys, w') -> w' = w /\ Forall2 P xs ys.
Proof.
  intros Hg xs. induction xs as [| x xs IH]; intros w ys w' Hrun.
  - apply ret_inr in Hrun as [<- <-]. split; [reflexivity | constructor].
  - simpl in Hrun. inv_run Hrun. inv_step Hrun. subst.
    apply Hg in Hstep as [-> Hx]. apply IH in Hstep0 as [-> Hxs].
    split; [reflexivity | constructor; assumption].
Qed.

Lemma od_get_In {V} k (v : V) d : od_get k d = Some v -> In (k, v) d.
Proof.
  induction d as [| [k' v'] d IH]; simpl; [discriminate |].
  destruct (String.eqb k k') eqn:Hk.
  - apply String.eqb_eq in Hk. subst k'. intros Hv. inversion Hv. now left.
  - intros Hv. right. apply IH. exact Hv.
Qed.

Lemma combine_covers {A B} (xs : list A) (ys : list B) x :
  length ys = length xs -> In x xs -> exists y, In (x, y) (combine xs ys).
Proof.
  revert ys. induction xs as [| a xs IH]; intros ys Hlen Hin.
  - destruct Hin.
  - destruct ys as [| b ys]; [discriminate |].
    destruct Hin as [-> | Hin].
    + exists b. now left.
    + destruct (IH ys) as [y Hy]; [simpl in Hlen; lia | exact Hin |].
      exists y. now right.
Qed.

End CallFacts.

(** ** Resetting the previous states *)

Section InitializeStates.
Context `{Kernels} `{Utils} {layer : Type} `{LayerAPI layer} `{OptimizerAPI}.

Lemma to_init_is_init_name k : is_init_name (to_init k) = true.
Proof.
  unfold is_init_name, to_init.
  change (str_last 4 (str_drop_last 4 k +:+ "init"))
    with (str_last (String.length "init") (str_drop_last 4 k +:+ "init")).
  rewrite str_last_append. reflexivity.
Qed.

(** The rows of a tiled vector are copies of it. *)
Lemma tile_rows_vector n v :
  tile_rows n (T1 v) = T2 (repeat v n) /\
  length (repeat v n) = n /\ Forall (fun row => row = v) (repeat v n).
Proof.
  split; [reflexivity |]. split; [apply repeat_length |].
  apply List.Forall_forall. intros row Hin. eapply repeat_spec. exact Hin.
Qed.

(** A call of the function that [compile_f_initialize_states] returns,
    on a state in which the shared variables of the [Net] exist, succeeds
    and writes every previous-state variable: zeros of its own shape when
    [learn_init_states] is off, and otherwise the parameter named by
    replacing the last four characters of its key with [init], tiled
    [batch_size] times along the batch axis.  Every other shared variable
    keeps its value. *)
Lemma initialize_states_call (n : @Net layer) (w w1 : world)
    (f : th_function) (h : gmap loc tensor) :
  compile_f_initialize_states n w = (inr f, w1) ->
  Forall (fun kv => is_Some (h !! kv.2)) (_v_prev_states n) ->
  Forall (fun kv => is_Some (h !! kv.2)) (_v_params n) ->
  (forall learn b,
     od_get "learn_init_states" (_options n) = Some learn ->
     truthy learn = true ->
     od_get "batch_size" (_options n) = Some b ->
     exists z, as_int b = Some z /\ 0 <= z) ->
  w1 = w /\
  exists learn h',
    od_get "learn_init_states" (_options n) = Some learn /\
    call_on f [] h = inr ([], h') /\
    (forall l, ~ In l (od_values (_v_prev_states n)) -> h' !! l = h !! l) /\
    (forall k l, In (k, l) (_v_prev_states n) ->
       if truthy learn then
         exists p t b z,
           od_get (to_init k) (_v_params n) = Some p /\
           is_init_name (to_init k) = true /\
           h !! p = Some t /\
           od_get "batch_size" (_options n) = Some b /\
           as_int b = Some z /\
           h' !! l = Some (tile_rows (Z.to_nat z) t) /\
           (forall v, t = T1 v -> h' !! l = Some (T2 (repeat v (Z.to_nat z))))
       else
         exists t, h !! l = Some t /\ h' !! l = Some (zeros_like t)).
Proof.
  intros Hcompile Hprev Hparams Hbatch.
  unfold compile_f_initialize_states in Hcompile.
  apply bind_inr in Hcompile as (learn & w0 & Hstep & Hcompile).
  apply bind_inr in Hcompile as (updates & wu & Hstep0 & Hcompile).
  apply bind_inr in Hcompile as (hc & wh & Hheap & Hcompile).
  unfold opt in Hstep. apply lift_option_inr in Hstep as [Hlearn Hw0].
  subst w0.
  unfold get_heap in Hheap. inversion Hheap; subst hc wh; clear Hheap.
  apply lift_result_inr in Hcompile as [Hfun Hw1]. subst w1.
  unfold th_function_typed in Hfun.
  destruct (check_updates (heap wu) [] updates); [discriminate |].
  unfold th_function_compile in Hfun.
  destruct (first_dup (map fst updates)) eqn:Hdup; [discriminate |].
  simpl in Hfun. inversion Hfun; subst f; clear Hfun.
  apply first_dup_None in Hdup.
  destruct (truthy learn) eqn:Htruthy; simpl in Hstep0.
  - (* tiled from the init parameters *)
    pose proof (fun b => Hbatch learn b Hlearn Htruthy) as Hint.
    clear Hbatch. rename Hint into Hbatch.
    apply (map_m_pure _
             (fun kv u =>
                exists p b,
                  od_get (to_init kv.1) (_v_params n) = Some p /\
                  od_get "batch_size" (_options n) = Some b /\
                  u = (kv.2, STile (SShared p) b))) in Hstep0.
    2:{ intros [k l] wa u wb Hu. cbv beta in Hu.
        apply bind_inr in Hu as (p & wa1 & Hp & Hu).
        apply bind_inr in Hu as (b & wa2 & Hb & Hu).
        apply bind_inr in Hu as (z & wa3 & Hz & Hu).
        apply lift_option_inr in Hp as [Hp <-].
        unfold opt in Hb. apply lift_option_inr in Hb as [Hb <-].
        apply lift_option_inr in Hz as [Hz <-].
        apply ret_inr in Hu as [<- <-]. split; [reflexivity |]. eauto. }
    destruct Hstep0 as [-> Hshape].
    assert (Htargets : map fst updates = od_values (_v_prev_states n)).
    { clear -Hshape. induction Hshape as [| kv u ? ? (p & b & _ & _ & ->)];
        simpl; [reflexivity | f_equal; assumption]. }
    assert (Hvalues :
      forall k l, In (k, l) (_v_prev_states n) ->
      exists p t b z,
        od_get (to_init k) (_v_params n) = Some p /\ h !! p = Some t /\
        od_get "batch_size" (_options n) = Some b /\ as_int b = Some z /\
        In (l, STile (SShared p) b) updates /\
        eval ∅ h (STile (SShared p) b) = Some (tile_rows (Z.to_nat z) t)).
    { clear -Hshape Hparams Hbatch. intros k l Hin.
      induction Hshape as [| kv u prev us (p & b & Hp & Hb & ->) _ IH].
      - destruct Hin.
      - destruct Hin as [-> | Hin].
        + destruct (Hbatch b Hb) as (z & Hz & Hpos).
          pose proof (od_get_In _ _ _ Hp) as Hpin.
          pose proof (proj1 (List.Forall_forall _ _) Hparams _ Hpin)
            as [t Ht].
          simpl in Ht. exists p, t, b, z. simpl.
          repeat split; try assumption; [now left |].
          rewrite Ht, Hz. simpl.
          destruct (z <? 0) eqn:Hneg; [lia | reflexivity].
        + destruct (IH Hin) as (p' & t & b' & z & ? & ? & ? & ? & ? & ?).
          exists p', t, b', z. repeat split; try assumption. now right. }
    destruct (call_updates updates h Hdup) as (h' & Hcall & Hin & Hout).
    { apply List.Forall_forall. intros [l e] Hu.
      clear -Hshape Hu Hparams Hbatch.
      induction Hshape as [| kv u prev us (p & b & Hp & Hb & ->) _ IH].
      - destruct Hu.
      - destruct Hu as [Heq | Hu]; [| exact (IH Hu)].
        inversion Heq; subst l e. simpl.
        destruct (Hbatch b Hb) as (z & Hz & Hpos).
        pose proof (od_get_In _ _ _ Hp) as Hpin.
        pose proof (proj1 (List.Forall_forall _ _) Hparams _ Hpin) as [t Ht].
        simpl in Ht. rewrite Ht, Hz. simpl.
        destruct (z <? 0) eqn:Hneg; [lia | eexists; reflexivity]. }
    split; [reflexivity |]. exists learn, h'.
    split; [exact Hlearn |]. split; [exact Hcall |]. split.
    + intros l Hl. apply Hout. rewrite Htargets. exact Hl.
    + intros k l Hkl. rewrite Htruthy.
      destruct (Hvalues k l Hkl) as (p & t & b & z & Hp & Ht & Hb & Hz & Hu & He).
      exists p, t, b, z.
      assert (Hl : h' !! l = Some (tile_rows (Z.to_nat z) t))
        by (rewrite (Hin _ _ Hu); exact He).
      repeat split; try assumption.
      * apply to_init_is_init_name.
      * intros v ->. exact Hl.
  - (* zeros *)
    inv_step Hstep0. subst w. subst updates.
    assert (Htargets :
      map fst (map (fun v => (v, SZerosLike (SShared v)))
                   (od_values (_v_prev_states n)))
      = od_values (_v_prev_states n)).
    { rewrite map_map. simpl. apply map_id. }
    rewrite Htargets in Hdup.
    destruct (call_updates
                (map (fun v => (v, SZerosLike (SShared v)))
                     (od_values (_v_prev_states n))) h)
      as (h' & Hcall & Hin & Hout).
    { rewrite Htargets. exact Hdup. }
    { apply List.Forall_forall. intros [l e] Hu.
      apply in_map_iff in Hu as (l' & Heq & Hl'). inversion Heq; subst l' e.
      apply in_map_iff in Hl' as ([k l'] & <- & Hkl).
      pose proof (proj1 (List.Forall_forall _ _) Hprev _ Hkl) as [t Ht].
      simpl in *. rewrite Ht. eexists; reflexivity. }
    split; [reflexivity |]. exists learn, h'.
    split; [exact Hlearn |]. split; [exact Hcall |]. split.
    + intros l Hl. apply Hout. rewrite Htargets. exact Hl.
    + intros k l Hkl. rewrite Htruthy.
      pose proof (proj1 (List.Forall_forall _ _) Hprev _ Hkl) as [t Ht].
      simpl in Ht. exists t. split; [exact Ht |].
      rewrite (Hin l (SZerosLike (SShared l))).
      * simpl. rewrite Ht. reflexivity.
      * apply in_map_iff. exists l. split; [reflexivity |].
        apply in_map_iff. exists (k, l). split; [reflexivity | exact Hkl].
Qed.

(** The pass over the updates accepts distinct variables whose updates
    have their types. *)
Lemma check_updates_pass (h : gmap loc tensor) (us : list update) :
  forall seen,
    List.NoDup (map fst us) ->
    (forall l, In l seen -> ~ In l (map fst us)) ->
    Forall (fun u => update_type_ok h u = true) us ->
    check_updates h seen us = None.
Proof.
  induction us as [| u us IH]; intros seen Hnd Hseen Hok; [reflexivity |].
  simpl. inversion Hnd as [| ? ? Hfresh Hnd']; subst.
  inversion Hok as [| ? ? Hu Hok']; subst.
  destruct (existsb (Nat.eqb u.1) seen) eqn:Hex.
  - exfalso. apply existsb_exists in Hex as (l & Hl & Heq).
    apply Nat.eqb_eq in Heq. subst l. apply (Hseen _ Hl). now left.
  - rewrite Hu. apply IH; [exact Hnd' | | exact Hok'].
    intros l [<- | Hl]; [exact Hfresh |].
    intros Hin. apply (Hseen l Hl). now right.
Qed.


Lemma tile_updates_run (n : @Net layer) (b : value) w :
  od_get "batch_size" (_options n) = Some b ->
  is_Some (as_int b) ->
  forall states,
    Forall (fun kv => is_Some (od_get (to_init kv.1) (_v_params n))) states ->
    map_m (fun kv =>
             p <- lift_option (KeyError (to_init kv.1))
                              (od_get (to_init kv.1) (_v_params n)) ;;
             batch_size <- opt "batch_size" n ;;
             lift_option ValueError (as_int batch_size) ;;;
             ret (kv.2, STile (SShared p) batch_size))
          states w
    = (inr (map (tile_update n b) states), w).
Proof.
  intros Hb [z Hz] states Hall.
  induction Hall as [| kv states [p Hp] _ IH]; [reflexivity |].
  cbn [map_m map].
  rewrite (bind_ok _ _ w (tile_update n b kv) w).
  - rewrite (bind_ok _ _ w _ w IH). reflexivity.
  - rewrite (bind_ok _ _ w p w) by (rewrite Hp; reflexivity).
    rewrite (bind_ok _ _ w b w) by (unfold opt; rewrite Hb; reflexivity).
    rewrite (bind_ok _ _ w z w) by (rewrite Hz; reflexivity).
    unfold tile_update. rewrite Hp. reflexivity.
Qed.

(** C1, where the code departs from it: with [learn_init_states] on and a
    batch of one,
    [compile_f_initialize_states] raises [TypeError]: the first update
    tiles a vector once along the batch axis, which makes that axis
    broadcastable, and the previous-state variable it is assigned to is a
    matrix without broadcastable axes. *)
Theorem initialize_states_refuses_a_batch_of_one (n : @Net layer) (w : world)
    (learn b : value) (k : string) (l p : loc) (rest : odict loc)
    (v : list scalar) (m : list (list scalar)) :
  od_get "learn_init_states" (_options n) = Some learn ->
  truthy learn = true ->
  od_get "batch_size" (_options n) = Some b ->
  as_int b = Some 1 ->
  _v_prev_states n = (k, l) :: rest ->
  Forall (fun kv => is_Some (od_get (to_init kv.1) (_v_params n)))
         (_v_prev_states n) ->
  od_get (to_init k) (_v_params n) = Some p ->
  heap w !! p = Some (T1 v) ->
  heap w !! l = Some (T2 m) ->
  compile_f_initialize_states n w = (inl TypeError, w).
Proof.
  intros Hlearn Hon Hb Hone Hstates Hkeys Hp Hinit Hstate.
  unfold compile_f_initialize_states.
  rewrite (bind_ok _ _ w learn w) by (unfold opt; rewrite Hlearn; reflexivity).
  rewrite Hon. simpl negb. cbv iota.
  rewrite (bind_ok _ _ w (map (tile_update n b) (_v_prev_states n)) w)
    by (apply tile_updates_run; [exact Hb | rewrite Hone; eauto | exact Hkeys]).
  rewrite (bind_ok _ _ w (heap w) w) by reflexivity.
  rewrite Hstates. unfold th_function_typed. cbn [map check_updates existsb].
  unfold update_type_ok, tile_update, shared_pattern, pattern_of.
  cbn [fst snd]. rewrite Hp, Hstate, Hinit, Hone. reflexivity.
Qed.

(** X14: the function that [compile_f_initialize_states] returns and what a
    call of it does.  With [learn_init_states] off it is always compiled for
    distinct previous-state variables and a call writes zeros of the shape
    of each; with it on and a batch size other than one it is compiled when
    the [init] parameters are vectors and the previous states matrices, and
    a call writes [batch_size] copies of the [init] parameter as the rows
    of each previous state.  Every other shared variable keeps its
    value. *)
Theorem initialize_states_resets (n : @Net layer) (w : world)
    (h : gmap loc tensor) (learn : value) :
  od_get "learn_init_states" (_options n) = Some learn ->
  List.NoDup (od_values (_v_prev_states n)) ->
  Forall (fun kv => is_Some (h !! kv.2)) (_v_prev_states n) ->
  Forall (fun kv => is_Some (h !! kv.2)) (_v_params n) ->
  (truthy learn = true ->
   exists b z,
     od_get "batch_size" (_options n) = Some b /\
     as_int b = Some z /\ 0 <= z /\ z <> 1 /\
     Forall (fun kv =>
               exists p v m,
                 od_get (to_init kv.1) (_v_params n) = Some p /\
                 heap w !! p = Some (T1 v) /\
                 heap w !! kv.2 = Some (T2 m))
            (_v_prev_states n)) ->
  exists f h',
    compile_f_initialize_states n w = (inr f, w) /\
    call_on f [] h = inr ([], h') /\
    (forall l, ~ In l (od_values (_v_prev_states n)) -> h' !! l = h !! l) /\
    (forall k l, In (k, l) (_v_prev_states n) ->
       if truthy learn then
         exists p t b z,
           od_get (to_init k) (_v_params n) = Some p /\
           is_init_name (to_init k) = true /\
           h !! p = Some t /\
           od_get "batch_size" (_options n) = Some b /\
           as_int b = Some z /\
           h' !! l = Some (tile_rows (Z.to_nat z) t) /\
           (forall v, t = T1 v -> h' !! l = Some (T2 (repeat v (Z.to_nat z))))
       else
         exists t, h !! l = Some t /\ h' !! l = Some (zeros_like t)).
Proof.
  intros Hlearn Hnd Hprev Hparams Htile.
  assert (Hcompile : exists f, compile_f_initialize_states n w = (inr f, w)).
  { unfold compile_f_initialize_states.
    rewrite (bind_ok _ _ w learn w)
      by (unfold opt; rewrite Hlearn; reflexivity).
    destruct (truthy learn) eqn:Hon; simpl negb; cbv iota.
    - destruct (Htile eq_refl) as (b & z & Hb & Hz & Hpos & Hmany & Hshapes).
      rewrite (bind_ok _ _ w (map (tile_update n b) (_v_prev_states n)) w).
      2:{ apply tile_updates_run; [exact Hb | rewrite Hz; eauto |].
          eapply List.Forall_impl; [| exact Hshapes].
          intros kv (p & v & m & Hp & _). eauto. }
      rewrite (bind_ok _ _ w (heap w) w) by reflexivity.
      assert (Htargets : map fst (map (tile_update n b) (_v_prev_states n))
                         = od_values (_v_prev_states n)).
      { rewrite map_map. reflexivity. }
      unfold th_function_typed.
      rewrite check_updates_pass.
      + unfold th_function_compile. rewrite Htargets.
        rewrite NoDup_first_dup by exact Hnd. eexists. reflexivity.
      + rewrite Htargets. exact Hnd.
      + intros l [].
      + apply List.Forall_forall. intros u Hu.
        apply in_map_iff in Hu as (kv & <- & Hkv).
        pose proof (proj1 (List.Forall_forall _ _) Hshapes kv Hkv)
          as (p & v & m & Hp & Hinit & Hstate).
        unfold update_type_ok, tile_update, shared_pattern, pattern_of.
        cbn [fst snd]. rewrite Hp, Hstate, Hinit, Hz. simpl.
        destruct (z =? 1) eqn:Hz1; [apply Z.eqb_eq in Hz1; lia |].
        reflexivity.
    - rewrite (bind_ok _ _ w _ w) by reflexivity.
      rewrite (bind_ok _ _ w (heap w) w) by reflexivity.
      assert (Htargets :
        map fst (map (fun v => (v, SZerosLike (SShared v)))
                     (od_values (_v_prev_states n)))
        = od_values (_v_prev_states n)).
      { rewrite map_map. simpl. apply map_id. }
      unfold th_function_typed.
      rewrite check_updates_pass.
      + unfold th_function_compile. rewrite Htargets.
        rewrite NoDup_first_dup by exact Hnd. eexists. reflexivity.
      + rewrite Htargets. exact Hnd.
      + intros l [].
      + apply List.Forall_forall. intros u Hu.
        apply in_map_iff in Hu as (l & <- & _).
        unfold update_type_ok, pattern_of. cbn [fst snd].
        destruct (shared_pattern (heap w) l); [| reflexivity].
        apply bool_decide_eq_true. reflexivity. }
  destruct Hcompile as [f Hcompile].
  destruct (initialize_states_call n w w f h Hcompile Hprev Hparams)
    as (_ & learn' & h' & Hlearn' & Hcall & Hframe & Hvals).
  { intros learn0 b Hlearn0 Hon Hb.
    rewrite Hlearn in Hlearn0. inversion Hlearn0; subst learn0.
    destruct (Htile Hon) as (b' & z & Hb' & Hz & Hpos & _).
    rewrite Hb in Hb'. inversion Hb'; subst b'. eauto. }
  rewrite Hlearn in Hlearn'. inversion Hlearn'; subst learn'.
  exists f, h'. repeat split; assumption.
Qed.

End InitializeStates.

(** ** What a graph reads *)

Section Reads.
Context `{KernelsLaws}.



End Reads.

(** ** Ports that no graph reads *)

Section UnusedPorts.
Context `{KernelsLaws} `{Utils} {layer : Type} `{LayerAPI layer}
        `{OptimizerAPI}.







End UnusedPorts.

(** ** The loss *)

Section Loss.
Context `{Kernels} `{Utils} {layer : Type} `{LayerAPI layer} `{OptimizerAPI}.

Lemma filter_from_index {A} (xs : list A) (start m : nat) :
  map snd (List.filter (fun ix => (m <=? ix.1)%nat)
                       (combine (seq start (length xs)) xs))
  = drop (m - start) xs.
Proof.
  revert start. induction xs as [| x xs IH]; intros start; simpl.
  - destruct (m - start)%nat; reflexivity.
  - destruct (m <=? start)%nat eqn:Hle; simpl.
    + apply Nat.leb_le in Hle. rewrite IH.
      replace (m - start)%nat with 0%nat by lia.
      replace (m - S start)%nat with 0%nat by lia. reflexivity.
    + apply Nat.leb_gt in Hle. rewrite IH.
      replace (m - start)%nat with (S (m - S start)) by lia. reflexivity.
Qed.

Lemma at_or_after_start tap len t :
  (t < len)%nat -> at_or_after tap len t = (slice_start tap len <=? t)%nat.
Proof.
  intros Ht. unfold at_or_after, slice_start.
  destruct (tap <? 0) eqn:Hneg.
  - destruct (tap + Z.of_nat len <=? Z.of_nat t) eqn:Hc; symmetry.
    + apply Nat.leb_le. lia.
    + apply Nat.leb_gt. lia.
  - destruct (tap <=? Z.of_nat t) eqn:Hc; symmetry.
    + apply Nat.leb_le. lia.
    + apply Nat.leb_gt. lia.
Qed.

(** The slice the code takes holds exactly the steps that count. *)
Lemma slice_from_steps {A} (tap : Z) (xs : list A) :
  slice_from tap xs = steps_from tap xs.
Proof.
  unfold slice_from, steps_from.
  replace (slice_start tap (length xs))
    with (slice_start tap (length xs) - 0)%nat at 1 by lia.
  rewrite <- (filter_from_index xs 0 (slice_start tap (length xs))).
  f_equal. apply filter_ext_in. intros [i x] Hin.
  apply in_combine_l in Hin. apply in_seq in Hin. simpl.
  symmetry. apply at_or_after_start. lia.
Qed.

Lemma slice_from_agree {A} (tap : Z) (xs ys : list A) :
  length xs = length ys ->
  (forall t, at_or_after tap (length xs) t = true -> xs !! t = ys !! t) ->
  slice_from tap xs = slice_from tap ys.
Proof.
  intros Hlen Hsame. unfold slice_from. rewrite <- Hlen.
  apply list_eq. intros i. rewrite !lookup_drop.
  destruct (le_lt_dec (length xs) (slice_start tap (length xs) + i))
    as [Hout | Hin].
  - rewrite !lookup_ge_None_2; [reflexivity | lia | lia].
  - apply Hsame. rewrite at_or_after_start by exact Hin.
    apply Nat.leb_le. lia.
Qed.

(** C5: the loss port of the training graph is [MSE_loss] of the output of
    the forward graph and of the target, each restricted to the time steps
    at or after the loss tap; two runs whose outputs and targets agree on
    those steps have the same loss. *)
Theorem loss_counts_steps_from_loss_tap :
  (forall (n n' : @Net layer) w w',
     _setup_training_graph n w = (inr n', w') ->
     exists s_output_tbi updates w0,
       _setup_forward_graph n (SPort port_i_input) (SPort port_i_time)
         (SPort port_i_id_idx) (SPort port_i_last_tap) (_v_params n)
         (_v_prev_states n) w = (inr (s_output_tbi, updates), w0) /\
       _port_o_loss n' =
       Some (_setup_loss_graph s_output_tbi (SPort port_i_target)
                               (SPort port_i_loss_tap))) /\
  (forall (E : gmap string tensor) (h : gmap loc tensor) s_output_tbi
          output target tap,
     eval E h s_output_tbi = Some (T3 output) ->
     E !! port_i_target = Some (T3 target) ->
     E !! port_i_loss_tap = Some (T0 tap) ->
     eval E h (_setup_loss_graph s_output_tbi (SPort port_i_target)
                                 (SPort port_i_loss_tap))
     = k_mse (T3 (steps_from tap output)) (T3 (steps_from tap target)) /\
     forall (E' : gmap string tensor) (h' : gmap loc tensor) output' target',
       eval E' h' s_output_tbi = Some (T3 output') ->
       E' !! port_i_target = Some (T3 target') ->
       E' !! port_i_loss_tap = Some (T0 tap) ->
       length output' = length output ->
       length target' = length target ->
       (forall t, at_or_after tap (length output) t = true ->
                  output !! t = output' !! t) ->
       (forall t, at_or_after tap (length target) t = true ->
                  target !! t = target' !! t) ->
       eval E' h' (_setup_loss_graph s_output_tbi (SPort port_i_target)
                                     (SPort port_i_loss_tap))
       = eval E h (_setup_loss_graph s_output_tbi (SPort port_i_target)
                                     (SPort port_i_loss_tap))).
Proof.
  split.
  - intros n n' w w' Hrun. unfold _setup_training_graph in Hrun.
    inv_run Hrun. destruct a as [s_output_tbi updates].
    exists s_output_tbi, updates, w0. split; [exact Hstep |].
    revert Hrun. destruct (truthy a2); intros Hrun.
    + inv_run Hrun. apply ret_inr in Hrun as [<- _]. reflexivity.
    + apply ret_inr in Hrun as [<- _]. reflexivity.
  - intros E h s_output_tbi output target tap Hout Htarget Htap.
    assert (Hloss :
      forall (E0 : gmap string tensor) (h0 : gmap loc tensor) o t,
        eval E0 h0 s_output_tbi = Some (T3 o) ->
        E0 !! port_i_target = Some (T3 t) ->
        E0 !! port_i_loss_tap = Some (T0 tap) ->
        eval E0 h0 (_setup_loss_graph s_output_tbi (SPort port_i_target)
                                      (SPort port_i_loss_tap))
        = k_mse (T3 (slice_from tap o)) (T3 (slice_from tap t))).
    { intros E0 h0 o t Ho Ht Hp. unfold _setup_loss_graph. simpl.
      rewrite Ho, Ht, Hp. reflexivity. }
    split.
    + rewrite (Hloss E h output target) by assumption.
      rewrite !slice_from_steps. reflexivity.
    + intros E' h' output' target' Hout' Htarget' Htap' Hlo Hlt Hso Hst.
      rewrite (Hloss E h output target) by assumption.
      rewrite (Hloss E' h' output' target') by assumption.
      rewrite (slice_from_agree tap output output') by (auto; lia).
      rewrite (slice_from_agree tap target target') by (auto; lia).
      reflexivity.
Qed.

End Loss.

(** ** Gradient accumulators *)

Section Gradients.
Context `{KernelsLaws} `{Utils} {layer : Type} `{LayerAPI layer}
        `{OptimizerAPI}.

Lemma clip_grads_new_grad (self : @Net layer) s_loss v_wrt :
  clip_grads self (map (SGrad s_loss) v_wrt) = map (new_grad self s_loss) v_wrt.
Proof.
  unfold clip_grads, new_grad.
  destruct (od_get "grad_norm_clip" (_options self)).
  - rewrite map_map. reflexivity.
  - reflexivity.
Qed.

Lemma _setup_grad_updates_graph_spec (self : @Net layer) s_loss v_wrt v_grads
    w us w' :
  _setup_grad_updates_graph self s_loss v_wrt v_grads w = (inr us, w') ->
  w' = w /\ length v_wrt = length v_grads /\
  us = combine v_grads (map (new_grad self s_loss) v_wrt).
Proof.
  unfold _setup_grad_updates_graph. intros Hrun. inv_run Hrun.
  apply assert_inr in Hstep as [Hlen <-]. apply Nat.eqb_eq in Hlen.
  apply ret_inr in Hrun as [<- <-].
  rewrite clip_grads_new_grad. repeat split. exact Hlen.
Qed.


Lemma new_grad_options (a b : @Net layer) loss p :
  _options a = _options b -> new_grad a loss p = new_grad b loss p.
Proof. unfold new_grad. intros ->. reflexivity. Qed.


End Gradients.

(** ** Dictionaries built by assignment *)

Section DictBuild.
Context {V : Type}.

Lemma od_set_fresh k (v : V) d :
  ~ In k (od_keys d) -> od_set k v d = d ++ [(k, v)].
Proof.
  induction d as [| [k0 v0] d IH]; simpl; intros Hk; [reflexivity |].
  destruct (String.eqb k k0) eqn:Heq.
  - apply String.eqb_eq in Heq. subst. tauto.
  - rewrite IH by tauto. reflexivity.
Qed.

Lemma od_set_keys_In k k' (v : V) d :
  In k' (od_keys (od_set k v d)) <-> k' = k \/ In k' (od_keys d).
Proof.
  induction d as [| [k0 v0] d IH]; simpl.
  - intuition congruence.
  - destruct (String.eqb k k0) eqn:Heq; simpl.
    + apply String.eqb_eq in Heq. subst. intuition congruence.
    + rewrite IH. intuition congruence.
Qed.

Lemma od_set_keys_NoDup k (v : V) d :
  List.NoDup (od_keys d) -> List.NoDup (od_keys (od_set k v d)).
Proof.
  induction d as [| [k0 v0] d IH]; simpl; intros Hnd.
  - constructor; [intros [] | constructor].
  - inversion Hnd as [| ? ? Hfresh Hnd']; subst.
    destruct (String.eqb k k0) eqn:Heq; simpl.
    + constructor; assumption.
    + constructor; [| apply IH; exact Hnd'].
      intros Hin. apply od_set_keys_In in Hin as [-> | Hin].
      * rewrite String.eqb_refl in Heq. discriminate.
      * contradiction.
Qed.

Lemma od_set_values_In k (v v' : V) d :
  In v' (od_values (od_set k v d)) -> v' = v \/ In v' (od_values d).
Proof.
  induction d as [| [k0 v0] d IH]; simpl.
  - intuition congruence.
  - destruct (String.eqb k k0); simpl.
    + intuition congruence.
    + intros [-> | Hin]; [tauto |]. apply IH in Hin. tauto.
Qed.

Lemma od_set_values_NoDup k (v : V) d :
  List.NoDup (od_values d) -> ~ In v (od_values d) ->
  List.NoDup (od_values (od_set k v d)).
Proof.
  induction d as [| [k0 v0] d IH]; simpl; intros Hnd Hv.
  - constructor; [intros [] | constructor].
  - inversion Hnd as [| ? ? Hfresh Hnd']; subst.
    destruct (String.eqb k k0); simpl.
    + constructor; [tauto | exact Hnd'].
    + constructor; [| apply IH; tauto].
      intros Hin. apply od_set_values_In in Hin as [-> | Hin]; tauto.
Qed.

Lemma filter_od_set (P : string -> bool) k (v : V) d :
  List.filter (fun kv => P kv.1) (od_set k v d) =
  if P k then od_set k v (List.filter (fun kv => P kv.1) d)
  else List.filter (fun kv => P kv.1) d.
Proof.
  induction d as [| [k0 v0] d IH]; simpl.
  - destruct (P k); reflexivity.
  - destruct (String.eqb k k0) eqn:Heq; simpl.
    + apply String.eqb_eq in Heq. subst k0.
      destruct (P k); simpl; [| reflexivity].
      rewrite String.eqb_refl. reflexivity.
    + rewrite IH. destruct (P k0) eqn:Hk0; destruct (P k); simpl;
        try rewrite Heq; reflexivity.
Qed.

(** Copying the items that satisfy [P] one by one into a new dictionary
    keeps them in order. *)
Lemma fold_od_set_filter (P : string -> bool) (d acc : odict V) :
  List.NoDup (od_keys d) ->
  (forall k, In k (od_keys acc) -> ~ In k (od_keys d)) ->
  fold_left (fun a kv => if P kv.1 then od_set kv.1 kv.2 a else a) d acc
  = acc ++ List.filter (fun kv => P kv.1) d.
Proof.
  revert acc. induction d as [| [k v] d IH]; intros acc Hnd Hsep; simpl.
  - rewrite app_nil_r. reflexivity.
  - inversion Hnd as [| ? ? Hfresh Hnd']; subst.
    destruct (P k).
    + rewrite IH.
      * rewrite od_set_fresh.
        -- rewrite <- app_assoc. reflexivity.
        -- intros Hin. apply (Hsep k Hin). now left.
      * exact Hnd'.
      * intros k' Hin Hd. apply od_set_keys_In in Hin as [-> | Hin].
        -- contradiction.
        -- apply (Hsep k' Hin). now right.
    + apply IH; [exact Hnd' |].
      intros k' Hin Hd. apply (Hsep k' Hin). now right.
Qed.

Lemma filter_partition (P : V -> bool) (l : list V) :
  Permutation (List.filter (fun x => negb (P x)) l ++ List.filter P l) l.
Proof.
  induction l as [| x l IH]; simpl; [constructor |].
  destruct (P x); simpl.
  - apply Permutation_sym. apply Permutation_cons_app.
    apply Permutation_sym. exact IH.
  - constructor. exact IH.
Qed.

End DictBuild.

(** ** The shared variables of a [Net] *)

Section SharedVariables.
Context `{Kernels} `{Utils} {layer : Type} `{LayerAPI layer} `{OptimizerAPI}.

(** The loop that declares the shared variables of the parameters. *)
Lemma declare_params_loop (params : odict tensor) :
  forall (acc acc' : odict loc * odict loc) w w',
    for_each
      (fun kv acc =>
         l <- th_shared kv.2 kv.1 ;;
         let v_params := od_set kv.1 l acc.1 in
         ret (v_params,
              if negb (is_init_name kv.1) then od_set kv.1 l acc.2
              else acc.2))
      params acc w = (inr acc', w') ->
    acc.2 = List.filter non_init acc.1 ->
    List.NoDup (od_keys acc.1) ->
    List.NoDup (od_values acc.1) ->
    (forall l, In l (od_values acc.1) -> (l < next_loc w)%nat) ->
    acc'.2 = List.filter non_init acc'.1 /\
    List.NoDup (od_keys acc'.1) /\
    List.NoDup (od_values acc'.1) /\
    (forall l, In l (od_values acc'.1) -> (l < next_loc w')%nat) /\
    (next_loc w <= next_loc w')%nat.
Proof.
  induction params as [| [k t] params IH];
    intros acc acc' w w' Hrun Hwo Hkeys Hvals Hbound.
  - apply ret_inr in Hrun as [<- <-]. repeat split; auto.
  - simpl in Hrun. apply bind_inr in Hrun as (acc1 & w1 & Hbody & Hrest).
    cbv beta in Hbody. apply bind_inr in Hbody as (l & w2 & Hnew & Hret).
    unfold th_shared in Hnew. inversion Hnew; subst l w2; clear Hnew.
    apply ret_inr in Hret as [<- <-].
    apply IH in Hrest; simpl.
    + destruct Hrest as (? & ? & ? & ? & Hnext). simpl in Hnext.
      repeat split; auto. lia.
    + simpl. unfold non_init at 1. rewrite (filter_od_set (fun k => negb (is_init_name k))).
      rewrite Hwo. reflexivity.
    + apply od_set_keys_NoDup. exact Hkeys.
    + apply od_set_values_NoDup; [exact Hvals |].
      intros Hin. apply Hbound in Hin. lia.
    + intros l Hin. apply od_set_values_In in Hin as [-> | Hin]; simpl.
      * lia.
      * apply Hbound in Hin. lia.
Qed.

(** The accumulators created for a list of variables are new and
    consecutive. *)
Lemma zero_shared_like_loop (vs : odict loc) :
  forall w ls w',
    map_m zero_shared_like vs w = (inr ls, w') ->
    ls = seq (next_loc w) (length vs) /\
    next_loc w' = (next_loc w + length vs)%nat.
Proof.
  induction vs as [| [k v] vs IH]; intros w ls w' Hrun.
  - apply ret_inr in Hrun as [<- <-]. simpl. split; [reflexivity | lia].
  - simpl in Hrun. inv_run Hrun. apply ret_inr in Hrun as [<- <-].
    unfold zero_shared_like in Hstep. inv_run Hstep.
    unfold get_value in Hstep1.
    destruct (heap w !! (k, v).2); [| discriminate].
    inversion Hstep1; subst; clear Hstep1.
    unfold th_shared in Hstep. inversion Hstep; subst; clear Hstep.
    apply IH in Hstep0 as [-> ->]. simpl. split; [reflexivity | lia].
Qed.

(** What [_init_shared_variables] declares. *)
Lemma _init_shared_variables_spec (n n' : @Net layer) w w' :
  _init_shared_variables n w = (inr n', w') ->
  _v_params_wo_init n' = List.filter non_init (_v_params n') /\
  List.NoDup (od_keys (_v_params n')) /\
  List.NoDup (od_values (_v_params n')) /\
  (_is_training n = true ->
   exists first,
     _v_grads n' = seq first (length (_v_params_wo_init n')) /\
     forall learn,
       od_get "learn_init_states" (_options n) = Some learn ->
       truthy learn = true ->
       _v_params_for_init n' = List.filter for_init (_v_params n') /\
       _v_grads_for_init n' =
       seq (first + length (_v_params_wo_init n'))
           (length (_v_prev_states n'))).
Proof.
  unfold _init_shared_variables. intros Hrun. inv_run Hrun.
  apply declare_params_loop in Hstep as (Hwo & Hkeys & Hvals & _ & _);
    [| reflexivity | constructor | constructor | intros l []].
  revert Hrun. destruct (_is_training n); intros Hrun.
  - inv_run Hrun. apply zero_shared_like_loop in Hstep as [Hg Hnext].
    unfold opt in Hstep1. apply lift_option_inr in Hstep1 as [Hlearn <-].
    revert Hrun. destruct (truthy a2) eqn:Htruthy; intros Hrun.
    + inv_run Hrun. apply zero_shared_like_loop in Hstep as [Hgi _].
      apply ret_inr in Hrun as [<- _]. simpl.
      repeat split; try assumption.
      intros _. exists (next_loc w1). split; [exact Hg |].
      intros learn Hl _. split.
      * rewrite (fold_od_set_filter is_init_name);
          [reflexivity | exact Hkeys | intros k []].
      * rewrite Hgi, Hnext. reflexivity.
    + apply ret_inr in Hrun as [<- _]. simpl.
      repeat split; try assumption.
      intros _. exists (next_loc w1). split; [exact Hg |].
      intros learn Hl Ht. congruence.
  - apply ret_inr in Hrun as [<- _]. simpl.
    repeat split; try assumption. discriminate.
Qed.

End SharedVariables.

(** ** The two update paths *)

Section UpdatePaths.
Context `{KernelsLaws} `{Utils} {layer : Type} `{LayerAPI layer}
        `{OptimizerAPI}.

Lemma _setup_param_updates_graph_options (a b : @Net layer) s_lr ps gs :
  _options a = _options b ->
  _setup_param_updates_graph a s_lr ps gs
  = _setup_param_updates_graph b s_lr ps gs.
Proof.
  intros Ho. unfold _setup_param_updates_graph, opt. rewrite Ho. reflexivity.
Qed.


(** The wiring of a training graph, by update path. *)
Lemma _setup_training_graph_wiring (n n' : @Net layer) w w' :
  _setup_training_graph n w = (inr n', w') ->
  exists loss,
    _port_o_loss n' = Some loss /\
    length (od_values (_v_params_wo_init n)) = length (_v_grads n) /\
    _grad_updates n' =
      combine (_v_grads n)
              (map (new_grad n loss) (od_values (_v_params_wo_init n))) /\
    (exists wa wb inits,
       _setup_param_updates_graph n (SPort port_i_lr)
         (od_values (_v_params_wo_init n)) (map SShared (_v_grads n)) wa
       = (inr (inits, _param_updates n'), wb)) /\
    forall learn,
      od_get "learn_init_states" (_options n) = Some learn ->
      truthy learn = true ->
      length (od_values (_v_prev_states n)) = length (_v_grads_for_init n) /\
      _grad_updates_for_init n' =
        combine (_v_grads_for_init n)
                (map (new_grad n loss) (od_values (_v_prev_states n))) /\
      exists wa wb inits,
        _setup_param_updates_graph n (SPort port_i_lr)
          (od_values (_v_params_for_init n)) (s_grads_for_init_flattened n)
          wa
        = (inr (inits, _param_updates_for_init n'), wb).
Proof.
  unfold _setup_training_graph. intros Hrun. inv_run Hrun.
  apply _setup_grad_updates_graph_spec in Hstep0 as (_ & Hlen & Hgu).
  unfold opt in Hstep2. apply lift_option_inr in Hstep2 as [Hlearn <-].
  destruct a1 as [inits pu]. eexists.
  revert Hrun. destruct (truthy a2) eqn:Htruthy; intros Hrun.
  - inv_run Hrun.
    apply _setup_grad_updates_graph_spec in Hstep0 as (_ & Hleni & Hgui).
    destruct a3 as [initsi pui].
    apply ret_inr in Hrun as [<- _]. simpl.
    split; [reflexivity |]. split; [exact Hlen |]. split; [exact Hgu |].
    split; [eauto |].
    intros learn Hl _. split; [exact Hleni |]. split; [exact Hgui |]. eauto.
  - apply ret_inr in Hrun as [<- _]. simpl.
    split; [reflexivity |]. split; [exact Hlen |]. split; [exact Hgu |].
    split; [eauto |].
    intros learn Hl Ht. congruence.
Qed.

Lemma NoDup_map_injective {A B} (g : A -> B) (l : list A) x y :
  List.NoDup (map g l) -> In x l -> In y l -> g x = g y -> x = y.
Proof.
  induction l as [| a l IH]; simpl; intros Hnd Hx Hy Heq; [destruct Hx |].
  inversion Hnd as [| ? ? Hfresh Hnd']; subst.
  destruct Hx as [-> | Hx], Hy as [-> | Hy].
  - reflexivity.
  - exfalso. apply Hfresh. rewrite Heq. apply in_map. exact Hy.
  - exfalso. apply Hfresh. rewrite <- Heq. apply in_map. exact Hx.
  - apply IH; assumption.
Qed.

Lemma partition_disjoint {B} (g : string * loc -> B) (vp : odict loc) b :
  List.NoDup (map g vp) ->
  ~ (In b (map g (List.filter non_init vp)) /\
     In b (map g (List.filter for_init vp))).
Proof.
  intros Hnd [Ha Hb].
  apply in_map_iff in Ha as (x & <- & Hx).
  apply in_map_iff in Hb as (y & Heq & Hy).
  apply filter_In in Hx as [Hx Hpx]. apply filter_In in Hy as [Hy Hpy].
  assert (y = x) by (eapply NoDup_map_injective; eassumption).
  subst y. unfold non_init, for_init in *.
  destruct (is_init_name x.1); discriminate.
Qed.

(** A training construction, by its last two phases. *)
Lemma Net_init_training options save_to load_from (n : @Net layer) w w' :
  Net_init options save_to load_from w = (inr n, w') ->
  _is_training n = true ->
  exists n2 w2 n3 w3,
    _init_shared_variables n2 w2 = (inr n3, w3) /\
    _setup_training_graph n3 w3 = (inr n, w') /\
    _is_training n2 = true /\ _options n2 = _options n /\
    same_shared n3 n.
Proof.
  intros Hrun Hmode.
  apply Net_init_phases in Hrun
    as (n1 & w1 & n2 & w2 & n3 & w3 & _ & _ & Hsh & Hgraph).
  pose proof (_init_shared_variables_frame _ _ _ _ Hsh)
    as ((Hm3 & Ho3 & _) & _).
  exists n2, w2, n3, w3. revert Hgraph.
  destruct (_is_training n3) eqn:Hm; intros Hgraph.
  - pose proof (_setup_training_graph_frame _ _ _ _ Hgraph)
      as ((_ & Ho & _) & Hs & _).
    repeat split; try assumption; try apply Hs; congruence.
  - apply _setup_inference_graph_frame in Hgraph as ((Hm' & _) & _).
    congruence.
Qed.

(** The shared variables as the constructor leaves them. *)
Lemma Net_init_shared options save_to load_from (n : @Net layer) w w' :
  Net_init options save_to load_from w = (inr n, w') ->
  _v_params_wo_init n = List.filter non_init (_v_params n) /\
  List.NoDup (od_keys (_v_params n)) /\
  List.NoDup (od_values (_v_params n)).
Proof.
  intros Hrun.
  apply Net_init_phases in Hrun
    as (n1 & w1 & n2 & w2 & n3 & w3 & _ & _ & Hsh & Hgraph).
  apply _init_shared_variables_spec in Hsh as (Hwo & Hk & Hv & _).
  assert (Hs : same_shared n3 n).
  { revert Hgraph. destruct (_is_training n3); intros Hgraph.
    - apply _setup_training_graph_frame in Hgraph. tauto.
    - apply _setup_inference_graph_frame in Hgraph. tauto. }
  destruct Hs as (Hvp & Hvwo & _). rewrite <- Hvp, <- Hvwo. tauto.
Qed.

End UpdatePaths.

(** ** The targets of the update graphs *)

Section UpdateTargets.
Context `{Kernels} `{Utils} {layer : Type} `{LayerAPI layer} `{OptimizerAPI}.

(** A loop whose iterations create shared variables only creates. *)
Lemma for_each_grows {A S} (body : A -> S -> M S) :
  (forall x s w s' w', body x s w = (inr s', w') ->
                       (next_loc w <= next_loc w')%nat) ->
  forall xs s w s' w',
    for_each body xs s w = (inr s', w') -> (next_loc w <= next_loc w')%nat.
Proof.
  intros Hbody xs. induction xs as [| x xs IH]; intros s w s' w' Hrun.
  - apply ret_inr in Hrun as [_ <-]. lia.
  - simpl in Hrun. apply bind_inr in Hrun as (s1 & w1 & Hx & Hrest).
    apply Hbody in Hx. apply IH in Hrest. lia.
Qed.

Lemma opt_inr k (n : @Net layer) v w w' :
  opt k n w = (inr v, w') -> od_get k (_options n) = Some v /\ w' = w.
Proof.
  unfold opt. intros Hr. apply lift_option_inr in Hr as [Hv <-]. tauto.
Qed.

Lemma py_nth_world {A} i (xs : list A) x w w' :
  py_nth i xs w = (inr x, w') -> w' = w.
Proof.
  unfold py_nth.
  destruct ((if i <? 0 then i + Z.of_nat (length xs) else i) <? 0);
    [discriminate |].
  intros Hr. apply lift_option_inr in Hr as [_ <-]. reflexivity.
Qed.

Lemma py_add_world a b c w w' : py_add a b w = (inr c, w') -> w' = w.
Proof.
  unfold py_add.
  destruct a, b; simpl; intros Hr;
    try discriminate;
    try (apply ret_inr in Hr as [_ <-]; reflexivity);
    repeat match type of Hr with
           | context [match ?x with _ => _ end] => destruct x
           end;
    try discriminate; try (apply ret_inr in Hr as [_ <-]; reflexivity).
Qed.

Lemma py_range_world v idx w w' : py_range v w = (inr idx, w') -> w' = w.
Proof.
  unfold py_range. destruct (as_int v); [| discriminate].
  intros Hr. apply ret_inr in Hr as [_ <-]. reflexivity.
Qed.

Lemma py_str_world v s w w' : py_str v w = (inr s, w') -> w' = w.
Proof.
  destruct v; simpl; try discriminate.
  intros Hr. apply ret_inr in Hr as [_ <-]. reflexivity.
Qed.

Lemma eval_name_world known name r w w' :
  eval_name known name w = (inr r, w') -> w' = w.
Proof.
  unfold eval_name. destruct (existsb _ known); [| discriminate].
  intros Hr. apply ret_inr in Hr as [_ <-]. reflexivity.
Qed.

Context `{!FreshVariables layer}.

Lemma _setup_forward_graph_grows (self : @Net layer)
    s_input_tbi s_time_t s_id_idx_b s_last_tap v_params v_prev_states
    w r w' :
  _setup_forward_graph self s_input_tbi s_time_t s_id_idx_b s_last_tap
                       v_params v_prev_states w = (inr r, w') ->
  (next_loc w <= next_loc w')%nat.
Proof.
  unfold _setup_forward_graph. intros Hrun.
  apply bind_inr in Hrun as (learn & w0 & Hlearn & Hrun).
  apply opt_inr in Hlearn as [_ ->].
  apply bind_inr in Hrun as (cat & w1 & Hcat & Hrun).
  assert (Hw1 : (next_loc w <= next_loc w1)%nat).
  { revert Hcat. destruct (negb (truthy learn)); intros Hcat.
    - apply ret_inr in Hcat as [_ <-]. lia.
    - apply bind_inr in Hcat as (emb & wa & Hemb & Hcat).
      apply lift_option_inr in Hemb as [_ <-].
      apply bind_inr in Hcat as (idc & wb & Hidc & Hcat).
      apply opt_inr in Hidc as [_ ->].
      apply bind_inr in Hcat as (r0 & wc & Hsg & Hcat).
      apply setup_graph_grows in Hsg.
      apply ret_inr in Hcat as [_ <-]. exact Hsg. }
  apply bind_inr in Hrun as (D & w2 & HD & Hrun).
  apply opt_inr in HD as [_ ->].
  apply bind_inr in Hrun as (D1 & w3 & HD1 & Hrun).
  apply py_add_world in HD1 as ->.
  apply bind_inr in Hrun as (d & w4 & Hd & Hrun).
  apply lift_option_inr in Hd as [_ <-].
  apply bind_inr in Hrun as (idx & w5 & Hidx & Hrun).
  apply py_range_world in Hidx as ->.
  apply bind_inr in Hrun as (looped & w6 & Hloop & Hrun).
  apply bind_inr in Hrun as (top & w7 & Htop & Hrun).
  apply py_nth_world in Htop as ->.
  apply bind_inr in Hrun as (out & w8 & Hout & Hrun).
  apply lift_option_inr in Hout as [_ <-].
  apply ret_inr in Hrun as [_ <-].
  apply for_each_grows in Hloop; [lia |].
  intros i acc wa acc' wb Hbody. cbv beta in Hbody.
  apply bind_inr in Hbody as (l & wa1 & Hl & Hbody).
  apply py_nth_world in Hl as ->.
  apply bind_inr in Hbody as (below' & wa2 & Hbelow' & Hbody).
  apply py_nth_world in Hbelow' as ->.
  apply bind_inr in Hbody as (below & wa3 & Hbelow & Hbody).
  apply lift_option_inr in Hbelow as [_ <-].
  apply bind_inr in Hbody as (c & wa4 & Hc & Hbody).
  apply opt_inr in Hc as [_ ->].
  apply bind_inr in Hbody as (ou & wa5 & Hsg & Hbody).
  apply setup_graph_grows in Hsg.
  apply ret_inr in Hbody as [_ <-]. exact Hsg.
Qed.

(** Among the variables that exist when the update graph is built, its
    updates target the parameters it is built for, all of them and no
    other. *)
Lemma _setup_param_updates_graph_targets (self : @Net layer) s_lr
    (v_params : list loc) (v_grads : list sexpr) w r w' :
  _setup_param_updates_graph self s_lr v_params v_grads w = (inr r, w') ->
  (next_loc w <= next_loc w')%nat /\
  forall l, (l < next_loc w)%nat ->
            (In l (map fst r.2) <-> In l v_params).
Proof.
  unfold _setup_param_updates_graph. intros Hrun.
  apply bind_inr in Hrun as (u0 & w0 & Hlen & Hrun).
  apply assert_inr in Hlen as [_ <-].
  apply bind_inr in Hrun as (ft & w1 & Hft & Hrun).
  apply opt_inr in Hft as [_ ->].
  apply bind_inr in Hrun as (fts & w2 & Hfts & Hrun).
  apply py_str_world in Hfts as ->.
  apply bind_inr in Hrun as (f & w3 & Hf & Hrun).
  apply eval_name_world in Hf as ->.
  apply bind_inr in Hrun as (fr & w4 & Hforce & Hrun).
  apply force_targets in Hforce as [Hgrow Hown].
  cbv zeta in Hrun.
  apply bind_inr in Hrun as (u1 & w5 & Hlen2 & Hrun).
  apply assert_inr in Hlen2 as [Hlen2 <-]. apply Nat.eqb_eq in Hlen2.
  apply bind_inr in Hrun as (ut & w6 & Hut & Hrun).
  apply opt_inr in Hut as [_ ->].
  apply bind_inr in Hrun as (uts & w7 & Huts & Hrun).
  apply py_str_world in Huts as ->.
  apply bind_inr in Hrun as (u & w8 & Hu & Hrun).
  apply eval_name_world in Hu as ->.
  apply bind_inr in Hrun as (ur & w9 & Hrule & Hrun).
  apply ret_inr in Hrun as [<- <-]. cbn [fst snd].
  destruct (update_rule_targets _ _ _ _ _ _ _ Hrule Hlen2)
    as (Hgrow2 & Hall & Honly).
  split; [lia |].
  intros l Hl. rewrite map_app, in_app_iff. split.
  - intros [Hin | Hin].
    + apply in_map_iff in Hin as (upd & <- & Hupd).
      apply Hown in Hupd. lia.
    + apply in_map_iff in Hin as (upd & <- & Hupd).
      destruct (Honly upd Hupd) as [Hp | Hnew]; [exact Hp | lia].
  - intros Hp. right. apply Hall. exact Hp.
Qed.

(** The targets of the two update graphs of a training [Net], among the
    variables that exist when the graphs are built. *)
Lemma _setup_training_graph_targets (n0 n : @Net layer) w0 w1 :
  _setup_training_graph n0 w0 = (inr n, w1) ->
  (forall l, (l < next_loc w0)%nat ->
     (In l (map fst (_param_updates n)) <->
      In l (od_values (_v_params_wo_init n0)))) /\
  (forall learn,
     od_get "learn_init_states" (_options n0) = Some learn ->
     truthy learn = true ->
     forall l, (l < next_loc w0)%nat ->
       (In l (map fst (_param_updates_for_init n)) <->
        In l (od_values (_v_params_for_init n0)))).
Proof.
  unfold _setup_training_graph. intros Hrun.
  apply bind_inr in Hrun as (fw & wa & Hfw & Hrun).
  apply _setup_forward_graph_grows in Hfw. cbv zeta in Hrun.
  apply bind_inr in Hrun as (gu & wb & Hgu & Hrun).
  apply _setup_grad_updates_graph_spec in Hgu as (-> & _ & _).
  apply bind_inr in Hrun as (pu & wc & Hpu & Hrun).
  apply _setup_param_updates_graph_targets in Hpu as [Hgrow Hpu].
  apply bind_inr in Hrun as (learn & wd & Hlearn & Hrun).
  apply opt_inr in Hlearn as [Hlearn ->].
  destruct (truthy learn) eqn:Hon.
  - apply bind_inr in Hrun as (gui & we & Hgui & Hrun).
    apply _setup_grad_updates_graph_spec in Hgui as (-> & _ & _).
    apply bind_inr in Hrun as (pui & wf & Hpui & Hrun).
    apply _setup_param_updates_graph_targets in Hpui as [_ Hpui].
    apply ret_inr in Hrun as [<- _]. simpl. split.
    + intros l Hl. apply Hpu. lia.
    + intros learn' _ _ l Hl. apply Hpui. lia.
  - apply ret_inr in Hrun as [<- _]. simpl. split.
    + intros l Hl. apply Hpu. lia.
    + intros learn' Hlearn' Hon'. congruence.
Qed.

(** The shared variables of the parameters exist when
    [_init_shared_variables] returns. *)
Lemma _init_shared_variables_bound (n n' : @Net layer) w w' :
  _init_shared_variables n w = (inr n', w') ->
  forall l, In l (od_values (_v_params n')) -> (l < next_loc w')%nat.
Proof.
  unfold _init_shared_variables. intros Hrun.
  apply bind_inr in Hrun as (r & wa & Hdecl & Hrun).
  apply declare_params_loop in Hdecl as (_ & _ & _ & Hbound & _);
    [| reflexivity | constructor | constructor | intros l []].
  cbv zeta in Hrun.
  apply bind_inr in Hrun as (ps & wb & Hstates & Hrun).
  apply for_each_grows in Hstates;
    [| intros; eapply add_v_prev_state_grows; eassumption].
  assert (Hb : forall l, In l (od_values r.1) -> (l < next_loc wb)%nat).
  { intros l Hl. apply Hbound in Hl. lia. }
  revert Hrun. destruct (_is_training n); intros Hrun.
  - apply bind_inr in Hrun as (gs & wc & Hgs & Hrun).
    apply zero_shared_like_loop in Hgs as [_ Hnext].
    apply bind_inr in Hrun as (learn & wd & Hlearn & Hrun).
    apply lift_option_inr in Hlearn as [_ <-].
    revert Hrun. destruct (truthy learn); intros Hrun.
    + apply bind_inr in Hrun as (gi & we & Hgi & Hrun).
      apply zero_shared_like_loop in Hgi as [_ Hnext'].
      apply ret_inr in Hrun as [<- <-]. simpl.
      intros l Hl. apply Hb in Hl. lia.
    + apply ret_inr in Hrun as [<- <-]. simpl.
      intros l Hl. apply Hb in Hl. lia.
  - apply ret_inr in Hrun as [<- <-]. simpl. exact Hb.
Qed.

(** A shared variable of a parameter is on the side of its name. *)
Lemma filter_values_side (P : string * loc -> bool) (vp : odict loc) k l :
  List.NoDup (od_values vp) -> In (k, l) vp ->
  (In l (od_values (List.filter P vp)) <-> P (k, l) = true).
Proof.
  intros Hnd Hkl. split.
  - intros Hin. apply in_map_iff in Hin as ([k' l'] & Heq & Hin).
    simpl in Heq. subst l'. apply filter_In in Hin as [Hin HP].
    assert ((k', l) = (k, l)) as Hsame
      by (eapply (NoDup_map_injective snd); eauto).
    rewrite <- Hsame. exact HP.
  - intros HP. apply in_map_iff. exists (k, l). split; [reflexivity |].
    apply filter_In. split; assumption.
Qed.

End UpdateTargets.

(** ** The partition of the parameters *)

Section Partition.
Context `{KernelsLaws} `{Utils} {layer : Type} `{LayerAPI layer}
        `{OptimizerAPI}.

Lemma is_init_name_suffix k :
  is_init_name k = true <-> exists p, k = p +:+ "init".
Proof.
  unfold is_init_name. rewrite String.eqb_eq.
  change 4%nat with (String.length "init"). apply str_last_suffix.
Qed.

Context `{!FreshVariables layer}.

(** C10: in a constructed [Net] the parameters whose name ends in [init]
    and the others split the parameter set in two, no name and no shared
    variable on both sides.  The regular gradient graph differentiates by
    the others and writes one accumulator each; the regular update graph
    is built from them and, of the parameters, targets exactly them; with
    [learn_init_states] on the init-state update graph is built from the
    ones that end in [init] and, of the parameters, targets exactly those;
    no parameter is a target of both update graphs. *)
Theorem init_suffix_partitions_parameters
    options save_to load_from (n : @Net layer) w w' :
  Net_init options save_to load_from w = (inr n, w') ->
  (forall k, is_init_name k = true <-> exists p, k = p +:+ "init") /\
  _v_params_wo_init n = List.filter non_init (_v_params n) /\
  Permutation (List.filter non_init (_v_params n) ++
               List.filter for_init (_v_params n)) (_v_params n) /\
  (forall k, ~ (In k (od_keys (List.filter non_init (_v_params n))) /\
                In k (od_keys (List.filter for_init (_v_params n))))) /\
  (forall l, ~ (In l (od_values (List.filter non_init (_v_params n))) /\
                In l (od_values (List.filter for_init (_v_params n))))) /\
  (_is_training n = true ->
   exists loss,
     _port_o_loss n = Some loss /\
     length (od_values (_v_params_wo_init n)) = length (_v_grads n) /\
     _grad_updates n =
       combine (_v_grads n)
               (map (new_grad n loss) (od_values (_v_params_wo_init n))) /\
     (exists wa wb inits,
        _setup_param_updates_graph n (SPort port_i_lr)
          (od_values (_v_params_wo_init n)) (map SShared (_v_grads n)) wa
        = (inr (inits, _param_updates n), wb)) /\
     (forall k l, In (k, l) (_v_params n) ->
        (In l (map fst (_param_updates n)) <-> is_init_name k = false)) /\
     forall learn,
       od_get "learn_init_states" (_options n) = Some learn ->
       truthy learn = true ->
       _v_params_for_init n = List.filter for_init (_v_params n) /\
       (exists wa wb inits,
          _setup_param_updates_graph n (SPort port_i_lr)
            (od_values (_v_params_for_init n)) (s_grads_for_init_flattened n)
            wa
          = (inr (inits, _param_updates_for_init n), wb)) /\
       (forall k l, In (k, l) (_v_params n) ->
          (In l (map fst (_param_updates_for_init n)) <->
           is_init_name k = true)) /\
       (forall k l, In (k, l) (_v_params n) ->
          ~ (In l (map fst (_param_updates n)) /\
             In l (map fst (_param_updates_for_init n))))).
Proof.
  intros Hrun.
  pose proof (Net_init_shared _ _ _ _ _ _ Hrun) as (Hwo & Hkeys & Hvals).
  split; [exact is_init_name_suffix |]. split; [exact Hwo |].
  split; [apply (filter_partition for_init) |].
  split; [intros k; apply partition_disjoint; exact Hkeys |].
  split; [intros l; apply partition_disjoint; exact Hvals |].
  intros Hmode.
  destruct (Net_init_training _ _ _ _ _ _ Hrun Hmode)
    as (n2 & w2 & n3 & w3 & Hsh & Hgraph & Hm2 & Ho2 & Hs).
  pose proof (_init_shared_variables_frame _ _ _ _ Hsh)
    as ((_ & Ho3 & _) & _).
  pose proof (_init_shared_variables_spec _ _ _ _ Hsh)
    as (Hwo3 & _ & _ & Htrain).
  pose proof (_init_shared_variables_bound _ _ _ _ Hsh) as Hbound.
  destruct (Htrain Hm2) as (first & _ & Hinit).
  destruct Hs as (Hvp & Hvwo & Hps & Hvg & Hfi & Hgi).
  assert (Ho : _options n3 = _options n) by congruence.
  destruct (_setup_training_graph_wiring _ _ _ _ Hgraph)
    as (loss & Hloss & Hlen & Hgu & (wa & wb & inits & Hpu) & Hlearn).
  destruct (_setup_training_graph_targets _ _ _ _ Hgraph)
    as [Htargets Htargets_init].
  assert (Hexists : forall k l, In (k, l) (_v_params n) ->
                                (l < next_loc w3)%nat).
  { intros k l Hkl. apply Hbound. rewrite Hvp.
    apply in_map_iff. exists (k, l). split; [reflexivity | exact Hkl]. }
  assert (Hregular : forall k l, In (k, l) (_v_params n) ->
    (In l (map fst (_param_updates n)) <-> is_init_name k = false)).
  { intros k l Hkl.
    rewrite (Htargets l (Hexists k l Hkl)), Hwo3, Hvp.
    rewrite (filter_values_side non_init _ k l Hvals Hkl).
    unfold non_init. simpl. destruct (is_init_name k); simpl; split;
      congruence. }
  exists loss.
  rewrite Hvwo, Hvg in Hlen, Hgu, Hpu.
  rewrite (map_ext _ _ (fun p => new_grad_options n3 n loss p Ho)) in Hgu.
  rewrite (_setup_param_updates_graph_options n3 n) in Hpu by exact Ho.
  split; [exact Hloss |]. split; [exact Hlen |]. split; [exact Hgu |].
  split; [eauto |]. split; [exact Hregular |].
  intros learn Hl Ht.
  rewrite <- Ho in Hl.
  destruct (Hlearn learn Hl Ht) as (_ & _ & (wa' & wb' & inits' & Hpui)).
  pose proof (Htargets_init learn Hl Ht) as Hinit_targets.
  rewrite <- Ho3 in Hl. destruct (Hinit learn Hl Ht) as (Hfilter & _).
  assert (Hinits : forall k l, In (k, l) (_v_params n) ->
    (In l (map fst (_param_updates_for_init n)) <-> is_init_name k = true)).
  { intros k l Hkl.
    rewrite (Hinit_targets l (Hexists k l Hkl)), Hfilter, Hvp.
    rewrite (filter_values_side for_init _ k l Hvals Hkl).
    unfold for_init. simpl. reflexivity. }
  rewrite Hvp, Hfi in Hfilter. split; [exact Hfilter |].
  unfold s_grads_for_init_flattened in *.
  rewrite Hfi, Hgi in Hpui.
  rewrite (_setup_param_updates_graph_options n3 n) in Hpui by exact Ho.
  split; [eauto |]. split; [exact Hinits |].
  intros k l Hkl [Hreg Hini].
  apply (Hregular k l Hkl) in Hreg. apply (Hinits k l Hkl) in Hini.
  congruence.
Qed.

End Partition.

(** ** Learnable initial states *)

Section InitStates.
Context `{KernelsLaws} `{Utils} {layer : Type} `{LayerAPI layer}
        `{OptimizerAPI}.


End InitStates.

(** ** The properties on the demo backend *)

#[export] Instance demo_kernels_laws : KernelsLaws.
Proof.
  constructor. intros loss wrt E1 E2 h1 h2 _ Hs. simpl.
  rewrite (Hs wrt) by (now left). reflexivity.
Qed.

#[export] Instance demo_fresh_variables : FreshVariables demo_layer.
Proof.
  constructor.
  - intros l d w d' w' Hrun.
    change (demo_add_v_prev_state l d w = (inr d', w')) in Hrun.
    unfold demo_add_v_prev_state in Hrun.
    destruct (recurrent l).
    + apply bind_inr in Hrun as (v & w1 & Hv & Hrun).
      unfold th_shared in Hv. inversion Hv; subst v w1; clear Hv.
      apply ret_inr in Hrun as [_ <-]. simpl. lia.
    + apply ret_inr in Hrun as [_ <-]. lia.
  - intros l s_below s_time s_last_tap v_params v_prev_states w ou w' Hrun.
    change (demo_setup_graph l s_below s_time s_last_tap v_params
                             v_prev_states w = (inr ou, w')) in Hrun.
    unfold demo_setup_graph in Hrun.
    apply bind_inr in Hrun as (W & w1 & HW & Hrun).
    apply lift_option_inr in HW as [_ <-].
    apply bind_inr in Hrun as (b & w2 & Hb & Hrun).
    apply lift_option_inr in Hb as [_ <-].
    cbv zeta in Hrun. destruct (recurrent l).
    + apply bind_inr in Hrun as (prev & w3 & Hprev & Hrun).
      apply lift_option_inr in Hprev as [_ <-].
      apply ret_inr in Hrun as [_ <-]. lia.
    + apply ret_inr in Hrun as [_ <-]. lia.
  - intros f o s_lr grads w fr w' Hrun. simpl in Hrun.
    apply ret_inr in Hrun as [<- <-]. split; [lia |]. intros u [].
  - intros u o params forces w ur w' Hrun Hlen. simpl in Hrun.
    apply ret_inr in Hrun as [<- <-]. cbn [fst snd].
    split; [lia |]. split.
    + intros p Hp. rewrite map_map. cbn [fst].
      apply in_map_iff.
      destruct (combine_covers params forces p (eq_sym Hlen) Hp) as [e He].
      exists (p, e). split; [reflexivity | exact He].
    + intros upd Hupd. left.
      apply in_map_iff in Hupd as ([p e] & <- & Hpe). cbn [fst].
      exact (in_combine_l _ _ _ _ Hpe).
Qed.

(** The constructor succeeds on the demo options. *)
Lemma demo_run_ok :
  Net_init (Some (demo_options false)) (Some "out") None empty_world
  = (inr demo_net, demo_world).
Proof. vm_compute. reflexivity. Qed.

Lemma demo_run_init_ok :
  Net_init (Some (demo_options true)) (Some "out") None empty_world
  = (inr demo_net_init, demo_world_init).
Proof. vm_compute. reflexivity. Qed.

Lemma demo_graph_ok :
  _setup_training_graph demo_shared_net demo_shared_world
  = (inr demo_net, demo_world).
Proof. vm_compute. reflexivity. Qed.

Lemma demo_inference_ok :
  Net_init (Some [("batch_size", VInt 3)]) None (Some "old") old_world
  = (inr demo_inference_net, demo_inference_world).
Proof. vm_compute. reflexivity. Qed.

Lemma unit_batch_run_ok :
  Net_init (Some unit_batch_options) (Some "out") None empty_world
  = (inr unit_batch_net, unit_batch_world).
Proof. vm_compute. reflexivity. Qed.

(** On the demo [Net] constructed with learnable initial states and a
    batch of one the reset function does not compile. *)
Lemma initialize_states_refuses_a_batch_of_one_witness :
  Net_init (Some unit_batch_options) (Some "out") None empty_world
  = (inr unit_batch_net, unit_batch_world) /\
  compile_f_initialize_states unit_batch_net unit_batch_world
  = (inl TypeError, unit_batch_world).
Proof.
  split; [exact unit_batch_run_ok |].
  apply (initialize_states_refuses_a_batch_of_one unit_batch_net
           unit_batch_world (VBool true) (VInt 1) "LSTM_0_prev" 5%nat 2%nat
           [] [3; 3; 3; 3] [[5; 5; 5; 5]]);
    try reflexivity.
  vm_compute. repeat constructor. eauto.
Defined.

(** With learnable initial states and a batch of two the previous state of
    the demo layer becomes two copies of its [init] parameter, which keeps
    its value. *)
Lemma initialize_states_resets_witness :
  exists f h',
    compile_f_initialize_states demo_net_init demo_world_init
    = (inr f, demo_world_init) /\
    call_on f [] (heap demo_world_init) = inr ([], h') /\
    h' !! 5%nat = Some (T2 [[3; 3; 3; 3]; [3; 3; 3; 3]]) /\
    h' !! 2%nat = Some (T1 [3; 3; 3; 3]).
Proof.
  destruct (initialize_states_resets demo_net_init demo_world_init
              (heap demo_world_init) (VBool true))
    as (f & h' & Hcompile & Hcall & Hframe & Hvals).
  - reflexivity.
  - apply NoDup_ListNoDup. vm_compute. apply (bool_decide_unpack _).
    vm_compute. exact I.
  - vm_compute. repeat constructor; eauto.
  - vm_compute. repeat constructor; eauto.
  - intros _. exists (VInt 2), 2.
    split; [reflexivity |]. split; [reflexivity |]. split; [lia |].
    split; [lia |].
    vm_compute. repeat constructor.
    exists 2%nat, [3; 3; 3; 3], [[5; 5; 5; 5]; [5; 5; 5; 5]].
    repeat split; reflexivity.
  - exists f, h'. split; [exact Hcompile |]. split; [exact Hcall |]. split.
    + specialize (Hvals "LSTM_0_prev" 5%nat (or_introl eq_refl)).
      cbn [truthy] in Hvals.
      destruct Hvals as (p & t & b & z & Hp & _ & Ht & Hb & Hz & Hval & _).
      vm_compute in Hp. inversion Hp; subst p.
      vm_compute in Ht. inversion Ht; subst t.
      vm_compute in Hb. inversion Hb; subst b.
      vm_compute in Hz. inversion Hz; subst z.
      exact Hval.
    + rewrite Hframe; [vm_compute; reflexivity |].
      vm_compute. intros [Heq | []]. discriminate.
Defined.

(** Resuming a run saved with other options fails and leaves no trace in
    the files or the shared variables. *)
Lemma resume_mismatch_fails_in_configure_witness :
  od_eqb value_eqb (demo_options true) (demo_options false) = false /\
  exists w',
    Net_init (layer := demo_layer) (Some (demo_options true)) (Some "out")
             (Some "old") (resumed_world (demo_options false))
    = (inl AssertionError, w') /\
    fs w' = fs (resumed_world (demo_options false)) /\
    heap w' = ∅ /\ next_loc w' = 0%nat.
Proof.
  split; [vm_compute; reflexivity |].
  destruct (resume_mismatch_fails_in_configure (layer := demo_layer)
              (demo_options true) (demo_options false) "out" "old"
              (resumed_world (demo_options false)))
    as (w' & _ & Hinit & _ & Hfs & Hheap & Hnext).
  - vm_compute. reflexivity.
  - vm_compute. reflexivity.
  - exists w'. repeat split; assumption.
Defined.

(** The inference [Net] has the supplied batch size and the loaded width;
    options without a batch size are refused. *)
Lemma inference_overrides_only_batch_size_witness :
  od_get "batch_size" (_options demo_inference_net) = Some (VInt 3) /\
  od_get "net_width" (_options demo_inference_net) = Some (VInt 4) /\
  exists e w',
    Net_init (layer := demo_layer) (Some [("net_width", VInt 4)]) None
             (Some "old") old_world = (inl e, w').
Proof.
  destruct (proj1 (inference_overrides_only_batch_size (layer := demo_layer))
              _ _ _ _ _ demo_inference_ok)
    as (supplied & loaded & bs & Hs & Hl & Hbs & _ & _ & Hget & Hother).
  inversion Hs; subst supplied. vm_compute in Hbs. inversion Hbs; subst bs.
  vm_compute in Hl. inversion Hl; subst loaded.
  split; [exact Hget |]. split.
  - rewrite Hother by discriminate. vm_compute. reflexivity.
  - apply (proj2 (inference_overrides_only_batch_size (layer := demo_layer))
             (Some [("net_width", VInt 4)]) "old" old_world).
    vm_compute. reflexivity.
Defined.

(** A snapshot of the demo [Net]: loaded again at once, and after the
    parameters have changed. *)
Lemma workspace_round_trip_witness :
  exists n1 w1,
    save_v_params_to_workspace demo_net (Some "best") demo_world
    = (inr n1, w1) /\
    (exists w2,
       load_v_params_from_workspace n1 (Some "best") w1 = (inr tt, w2) /\
       heap w2 = heap demo_world) /\
    forall w2,
      fs w2 !! "out/best.npz" = fs w1 !! "out/best.npz" ->
      exists w3,
        load_v_params_from_workspace n1 (Some "best") w2 = (inr tt, w3) /\
        forall k l, In (k, l) (_v_params demo_net) ->
                    heap w3 !! l = heap demo_world !! l.
Proof.
  assert (Hmode : _is_training demo_net = true) by reflexivity.
  assert (Hdir : _save_to demo_net = Some "out") by reflexivity.
  assert (Hkeys : List.NoDup (od_keys (_v_params demo_net))).
  { apply NoDup_ListNoDup. vm_compute. apply (bool_decide_unpack _).
    vm_compute. exact I. }
  assert (Halloc : Forall (fun kv => is_Some (heap demo_world !! kv.2))
                          (_v_params demo_net)).
  { vm_compute. repeat constructor; eauto. }
  assert (Hfile :
    od_mem "file" (pulled_params (_v_params demo_net) (heap demo_world)
                                 (_params demo_net)) = false)
    by (vm_compute; reflexivity).
  assert (Hopen :
    writable demo_world
      ("out" +:+ "/" +:+ snapshot_name (Some "best") +:+ ".npz") = true)
    by (vm_compute; reflexivity).
  pose proof (workspace_round_trip demo_net (Some "best") "out" demo_world
                Hmode Hdir Hkeys Halloc) as Hround.
  cbv zeta in Hround. rewrite Hfile, Hopen in Hround.
  destruct Hround as (n1 & w1 & Hsave & _ & _ & _ & Hload & Hlater).
  exists n1, w1. split; [exact Hsave |]. split; [exact Hload |].
  intros w2 Hkept. destruct (Hlater w2 Hkept) as (w3 & Hrun & _ & Hin & _).
  exists w3. split; [exact Hrun | exact Hin].
Defined.




(** With the tap at step one, a first step that is off by eight costs
    nothing. *)
Lemma loss_counts_steps_from_loss_tap_witness :
  (exists s_output_tbi,
     _port_o_loss demo_net =
     Some (_setup_loss_graph s_output_tbi (SPort port_i_target)
                             (SPort port_i_loss_tap))) /\
  eval (<[port_i_input := T3 [[[1]]; [[2]]]]>
          (<[port_i_target := T3 [[[9]]; [[2]]]]>
             (<[port_i_loss_tap := T0 1]> ∅)))
       ∅ (_setup_loss_graph (SPort port_i_input) (SPort port_i_target)
                            (SPort port_i_loss_tap))
  = Some (T0 0).
Proof.
  split.
  - destruct (proj1 (loss_counts_steps_from_loss_tap (layer := demo_layer))
                _ _ _ _ demo_graph_ok)
      as (s_output_tbi & updates & w0 & _ & Hloss).
    exists s_output_tbi. exact Hloss.
  - destruct (proj2 (loss_counts_steps_from_loss_tap (layer := demo_layer))
                (<[port_i_input := T3 [[[1]]; [[2]]]]>
                   (<[port_i_target := T3 [[[9]]; [[2]]]]>
                      (<[port_i_loss_tap := T0 1]> ∅)))
                ∅ (SPort port_i_input) [[[1]]; [[2]]] [[[9]]; [[2]]] 1)
      as [Hval _].
    + vm_compute. reflexivity.
    + vm_compute. reflexivity.
    + vm_compute. reflexivity.
    + rewrite Hval. vm_compute. reflexivity.
Defined.


(** The two sides of the parameters of the demo [Net], and the side each
    update graph targets. *)
Lemma init_suffix_partitions_parameters_witness :
  od_keys (_v_params_wo_init demo_net_init)
  = ["LSTM_0_W"; "LSTM_0_b"; "FC_output_W"; "FC_output_b"] /\
  od_keys (_v_params_for_init demo_net_init) = ["LSTM_0_init"] /\
  map fst (_grad_updates demo_net_init) = _v_grads demo_net_init /\
  (forall k l, In (k, l) (_v_params demo_net_init) ->
     (In l (map fst (_param_updates demo_net_init)) <->
      is_init_name k = false)) /\
  (forall k l, In (k, l) (_v_params demo_net_init) ->
     (In l (map fst (_param_updates_for_init demo_net_init)) <->
      is_init_name k = true)).
Proof.
  destruct (init_suffix_partitions_parameters _ _ _ _ _ _ demo_run_init_ok)
    as (_ & Hwo & _ & _ & _ & Htrain).
  destruct (Htrain eq_refl) as (loss & _ & _ & Hgu & _ & Hregular & Hinit).
  destruct (Hinit (VBool true) eq_refl eq_refl) as (Hfi & _ & Hinits & _).
  split; [| split; [| split; [| split]]].
  - rewrite Hwo. reflexivity.
  - rewrite Hfi. reflexivity.
  - rewrite Hgu. reflexivity.
  - exact Hregular.
  - exact Hinits.
Defined.

(** ** More on configuration *)

Section ConfigurationMore.
Context `{Kernels} `{Utils} {layer : Type} `{LayerAPI layer} `{OptimizerAPI}.

Lemma value_eqb_refl v : value_eqb v v = true.
Proof.
  destruct v as [| b | z | q | s]; unfold value_eqb; simpl;
    try reflexivity; try apply Qeq_bool_refl.
  apply String.eqb_refl.
Qed.

Lemma od_eqb_refl (o : options) : od_eqb value_eqb o o = true.
Proof.
  induction o as [| [k v] o IH]; simpl; [reflexivity |].
  rewrite String.eqb_refl, value_eqb_refl, IH. reflexivity.
Qed.

(** The training branch of [_configure] on a fresh start. *)
Lemma _configure_fresh (O : options) (save_to : string) (w : world) :
  _configure (layer := layer) (Some O) (Some save_to) None Net_new w
  = if writable w (save_to +:+ "/options.pkl")
    then (inr (set_config true O (Some save_to) "" Net_new),
          with_fs (<[save_to +:+ "/options.pkl" := FPickle O]> (fs w))
            (with_log (log w ++ [EvWrite (save_to +:+ "/options.pkl")]) w))
    else (inl (IOError (save_to +:+ "/options.pkl")),
          with_log (log w ++ [EvWrite (save_to +:+ "/options.pkl")]) w).
Proof.
  unfold _configure, pk_dump, emit, bind, lift_option, ret. simpl.
  change (writable (with_log (log w ++ [EvWrite (save_to +:+ "/options.pkl")])
                      w) (save_to +:+ "/options.pkl"))
    with (writable w (save_to +:+ "/options.pkl")).
  destruct (writable w (save_to +:+ "/options.pkl")); reflexivity.
Qed.

(** X1: a training construction writes its options to
    [save_to + '/options.pkl'] where that file can be created, and raises
    [IOError] on that path where it cannot (the directory [save_to] does not
    exist), leaving files and shared variables as they were.  From the
    written file a later training run with the same options resumes, and an
    inference construction gets these options with its own batch size. *)
Theorem persisted_options_are_read_back (O : options) (save_to : string)
    (w : world) :
  if writable w (save_to +:+ "/options.pkl") then
    exists w1,
      _configure (layer := layer) (Some O) (Some save_to) None Net_new w
      = (inr (set_config true O (Some save_to) "" Net_new), w1) /\
      fs w1 !! (save_to +:+ "/options.pkl") = Some (FPickle O) /\
      heap w1 = heap w /\ next_loc w1 = next_loc w /\
      (forall again,
         writable w1 (again +:+ "/options.pkl") = true ->
         exists w2,
           _configure (layer := layer) (Some O) (Some again) (Some save_to)
                      Net_new w1
           = (inr (set_config true O (Some again) "" Net_new), w2) /\
           fs w2 !! (again +:+ "/options.pkl") = Some (FPickle O)) /\
      (forall supplied batch_size,
         od_get "batch_size" supplied = Some batch_size ->
         exists (n : @Net layer) w2,
           _configure (Some supplied) None (Some save_to) Net_new w1
           = (inr n, w2) /\
           _is_training n = false /\
           _options n = od_set "batch_size" batch_size O /\
           fs w2 = fs w1)
  else
    exists w1,
      _configure (layer := layer) (Some O) (Some save_to) None Net_new w
      = (inl (IOError (save_to +:+ "/options.pkl")), w1) /\
      fs w1 = fs w /\ heap w1 = heap w /\ next_loc w1 = next_loc w.
Proof.
  rewrite _configure_fresh.
  destruct (writable w (save_to +:+ "/options.pkl")) eqn:Hopen.
  - eexists. split; [reflexivity |].
    split; [apply lookup_insert_eq |]. split; [reflexivity |].
    split; [reflexivity |]. split.
    + intros again Hagain. eexists. split.
      * unfold _configure, pk_load, pk_dump, emit, bind, lift_option, ret.
        simpl. rewrite lookup_insert_eq. rewrite od_eqb_refl. simpl.
        unfold writable in *. simpl in *. rewrite Hagain. reflexivity.
      * simpl. apply lookup_insert_eq.
    + intros supplied bs Hbs. eexists _, _. split; [| split; [| split]].
      * unfold _configure, pk_load, emit, bind, lift_option, ret, assert,
          od_mem.
        simpl. rewrite lookup_insert_eq. rewrite Hbs. simpl. reflexivity.
      * reflexivity.
      * reflexivity.
      * reflexivity.
  - eexists. split; [reflexivity |]. repeat split.
Qed.

(** X2: a construction that lacks a required input fails before it touches a
    file: training without options, inference without a load path.  A
    resume from a directory without persisted options fails on the read and
    writes nothing. *)
Theorem missing_inputs_are_fatal :
  (forall save_to load_from w,
     Net_init (layer := layer) None (Some save_to) load_from w
     = (inl AssertionError, w)) /\
  (forall options w,
     exists w',
       Net_init (layer := layer) options None None w
       = (inl AssertionError, w') /\
       fs w' = fs w /\ heap w' = heap w /\ log w' = log w) /\
  (forall O save_to P w,
     fs w !! (P +:+ "/options.pkl") = None ->
     exists w',
       Net_init (layer := layer) (Some O) (Some save_to) (Some P) w
       = (inl (IOError (P +:+ "/options.pkl")), w') /\
       fs w' = fs w /\ heap w' = heap w /\
       log w' = log w ++ [EvRead (P +:+ "/options.pkl")]).
Proof.
  split; [| split].
  - intros save_to load_from w. reflexivity.
  - intros options w. eexists. split; [reflexivity |]. repeat split.
  - intros O save_to P w Hfile. eexists. split.
    + unfold Net_init, _configure, pk_load, emit, bind, lift_option, ret.
      simpl. rewrite Hfile. reflexivity.
    + repeat split.
Qed.

End ConfigurationMore.

(** ** The layers and parameters of a [Net] *)

Section InitParams.
Context `{Kernels} `{Utils} {layer : Type} `{LayerAPI layer} `{OptimizerAPI}.

(** A loop whose every iteration adds one to a measure of the
    accumulator. *)
Lemma for_each_counts {A S} (size : S -> nat) (body : A -> S -> M S) :
  (forall x s w s' w', body x s w = (inr s', w') -> size s' = Datatypes.S (size s)) ->
  forall xs s w s' w',
    for_each body xs s w = (inr s', w') ->
    size s' = (size s + length xs)%nat.
Proof.
  intros Hbody xs. induction xs as [| x xs IH]; intros s w s' w' Hrun.
  - apply ret_inr in Hrun as [<- _]. simpl. lia.
  - simpl in Hrun. apply bind_inr in Hrun as (s1 & w1 & Hx & Hrest).
    apply IH in Hrest. apply Hbody in Hx. simpl. lia.
Qed.

Lemma py_range_inr v idx w w' :
  py_range v w = (inr idx, w') ->
  exists d, as_int v = Some d /\ idx = seq 0 (Z.to_nat d) /\ w' = w.
Proof.
  unfold py_range. destruct (as_int v) as [d |]; [| discriminate].
  intros Hr. apply ret_inr in Hr as [<- <-]. eauto.
Qed.

Lemma py_gt0_as_int v d : py_gt0 v = true -> as_int v = Some d -> 0 < d.
Proof.
  destruct v as [| b | z | q | s]; simpl; try discriminate.
  - intros -> Hd. inversion Hd. lia.
  - intros Hz Hd. inversion Hd; subst. apply Z.ltb_lt. exact Hz.
Qed.

(** What [_init_params] has read and built when it returns: the depth is
    positive, there is one layer per level and the output layer, the
    identity embedder exists exactly when the option is on, and the
    dimensions are among the options. *)
Lemma _init_params_shape load_from (n n' : @Net layer) w w' :
  _init_params load_from n w = (inr n', w') ->
  exists D d learn,
    od_get "net_depth" (_options n) = Some D /\
    as_int D = Some d /\ 0 < d /\
    length (_layers n') = Datatypes.S (Z.to_nat d) /\
    od_get "learn_id_embedding" (_options n) = Some learn /\
    (if truthy learn then is_Some (_id_embedder n')
     else _id_embedder n' = _id_embedder n) /\
    is_Some (od_get "input_dim" (_options n)) /\
    is_Some (od_get "target_dim" (_options n)) /\
    is_Some (od_get "net_width" (_options n)).
Proof.
  unfold _init_params. intros Hrun. inv_run Hrun.
  rename a into learn, a0 into r, a1 into D, a3 into idx, a4 into looped.
  unfold opt in Hstep. apply lift_option_inr in Hstep as [Hlearn _].
  simpl in Hlearn.
  assert (Hemb : same_config n r.2 /\
                 (if truthy learn then is_Some (_id_embedder r.2)
                  else _id_embedder r.2 = _id_embedder n)).
  { revert Hstep0. destruct (truthy learn); simpl; intros Hstep0.
    - inv_run Hstep0. apply ret_inr in Hstep0 as [<- _]. simpl.
      split; [repeat split | eauto].
    - apply ret_inr in Hstep0 as [<- _]. simpl.
      split; [repeat split | reflexivity]. }
  destruct Hemb as [(_ & Hopts & _) Hemb].
  unfold opt in Hstep1. apply lift_option_inr in Hstep1 as [HD _].
  simpl in HD. rewrite <- Hopts in HD.
  apply assert_inr in Hstep2 as [Hpos _].
  apply py_range_inr in Hstep3 as (d & Hd & -> & _).
  pose proof (py_gt0_as_int _ _ Hpos Hd) as Hdpos.
  assert (Hloop :
    same_config n looped /\ _id_embedder looped = _id_embedder r.2).
  { eapply (for_each_invariant
              (fun s => same_config n s /\ _id_embedder s = _id_embedder r.2));
      [| | exact Hstep4].
    - intros i s wa s' wb [Hs He] Hbody. inv_run Hbody.
      apply ret_inr in Hbody as [<- _]. split; [| exact He].
      eapply same_config_trans; [exact Hs |]. repeat split.
    - split; [| reflexivity]. repeat split; try apply Hopts.
      all: simpl; revert Hstep0; destruct (truthy learn); simpl; intros Hs0;
        [inv_run Hs0 |]; apply ret_inr in Hs0 as [<- _]; reflexivity. }
  destruct Hloop as [(_ & Hopts' & _) Hemb'].
  assert (Hlen : length (_layers looped) = Z.to_nat d).
  { pose proof Hstep4 as Hcount.
    eapply (for_each_counts (fun s : @Net layer => length (_layers s)))
      in Hcount.
    - simpl in Hcount. rewrite length_seq in Hcount. exact Hcount.
    - intros i s wa s' wb Hbody. inv_run Hbody.
      apply ret_inr in Hbody as [<- _]. simpl.
      rewrite length_app. simpl. lia. }
  assert (Hinput : is_Some (od_get "input_dim" (_options n))).
  { destruct (Z.to_nat d) as [| k] eqn:Hk; [lia |].
    simpl in Hstep4. apply bind_inr in Hstep4 as (s1 & wa & Hbody & _).
    inv_run Hbody.
    match goal with
    | Hb : opt "input_dim" _ _ = _ |- _ =>
        unfold opt in Hb; apply lift_option_inr in Hb as [Hi _]
    end.
    simpl in Hi. rewrite <- Hopts in Hi. eauto. }
  unfold opt in Hstep5, Hstep7.
  apply lift_option_inr in Hstep5 as [Hwidth _].
  apply lift_option_inr in Hstep7 as [Htarget _].
  rewrite <- Hopts' in Hwidth, Htarget.
  assert (Hfinal :
    length (_layers n') = Datatypes.S (Z.to_nat d) /\
    _id_embedder n' = _id_embedder looped).
  { revert Hrun. destruct load_from as [lf |]; intros Hrun.
    - inv_run Hrun. apply ret_inr in Hrun as [<- _]. simpl.
      rewrite length_app, Hlen. simpl. split; [lia | reflexivity].
    - apply ret_inr in Hrun as [<- _]. simpl.
      rewrite length_app, Hlen. simpl. split; [lia | reflexivity]. }
  destruct Hfinal as [Hlayers Hefinal].
  exists D, d, learn. rewrite Hefinal, Hemb'.
  repeat split; eauto.
Qed.

End InitParams.

(** ** A constructed [Net] *)

Section Constructed.
Context `{Kernels} `{Utils} {layer : Type} `{LayerAPI layer} `{OptimizerAPI}.

Lemma _configure_starts_blank options save_to load_from (n : @Net layer) w w' :
  _configure options save_to load_from Net_new w = (inr n, w') ->
  _id_embedder n = None /\ _layers n = [].
Proof.
  unfold _configure. intros Hrun.
  destruct save_to as [s |]; inv_run Hrun;
    apply ret_inr in Hrun as [<- _]; split; reflexivity.
Qed.

Lemma later_phases_keep_layers (n3 n : @Net layer) n2 w2 w3 w' :
  _init_shared_variables n2 w2 = (inr n3, w3) ->
  (if _is_training n3 then _setup_training_graph n3 w3
   else _setup_inference_graph n3 w3) = (inr n, w') ->
  _layers n = _layers n2 /\ _id_embedder n = _id_embedder n2.
Proof.
  intros Hsh Hgraph.
  assert (H3 : _layers n3 = _layers n2 /\ _id_embedder n3 = _id_embedder n2).
  { unfold _init_shared_variables in Hsh. inv_run Hsh.
    revert Hsh. destruct (_is_training n2); intros Hsh.
    - inv_run Hsh. revert Hsh. destruct (truthy a2); intros Hsh.
      + inv_run Hsh. apply ret_inr in Hsh as [<- _]. split; reflexivity.
      + apply ret_inr in Hsh as [<- _]. split; reflexivity.
    - apply ret_inr in Hsh as [<- _]. split; reflexivity. }
  destruct H3 as [<- <-].
  revert Hgraph. destruct (_is_training n3); intros Hgraph.
  - unfold _setup_training_graph in Hgraph. inv_run Hgraph.
    revert Hgraph. destruct (truthy a2); intros Hgraph.
    + inv_run Hgraph. apply ret_inr in Hgraph as [<- _]. split; reflexivity.
    + apply ret_inr in Hgraph as [<- _]. split; reflexivity.
  - unfold _setup_inference_graph in Hgraph. inv_run Hgraph.
    apply ret_inr in Hgraph as [<- _]. split; reflexivity.
Qed.

Lemma Net_init_options options save_to load_from (n : @Net layer) w w' :
  Net_init options save_to load_from w = (inr n, w') ->
  exists n1 w1 n2 w2,
    _configure options save_to load_from Net_new w = (inr n1, w1) /\
    _init_params load_from n1 w1 = (inr n2, w2) /\
    _options n = _options n1 /\ _pfx n = _pfx n1 /\
    _layers n = _layers n2 /\ _id_embedder n = _id_embedder n2.
Proof.
  intros Hrun.
  apply Net_init_phases in Hrun
    as (n1 & w1 & n2 & w2 & n3 & w3 & Hcfg & Hpar & Hsh & Hgraph).
  exists n1, w1, n2, w2.
  pose proof (_init_params_config _ _ _ _ _ Hpar) as (_ & Ho2 & _ & Hp2).
  pose proof (_init_shared_variables_frame _ _ _ _ Hsh)
    as ((_ & Ho3 & _ & Hp3) & _).
  destruct (later_phases_keep_layers _ _ _ _ _ _ Hsh Hgraph) as [Hl He].
  assert (Hlast : _options n3 = _options n /\ _pfx n3 = _pfx n).
  { revert Hgraph. destruct (_is_training n3); intros Hgraph.
    - apply _setup_training_graph_frame in Hgraph as ((_ & ? & _ & ?) & _).
      tauto.
    - apply _setup_inference_graph_frame in Hgraph as ((_ & ? & _ & ?) & _).
      tauto. }
  destruct Hlast as [Ho Hp].
  repeat split; try assumption; congruence.
Qed.

(** X3: every constructed [Net] has a positive depth, one layer per level plus
    the output layer, and an identity embedder exactly when
    [learn_id_embedding] is on. *)
Theorem constructed_net_has_depth_plus_one_layers
    options save_to load_from (n : @Net layer) w w' :
  Net_init options save_to load_from w = (inr n, w') ->
  exists D d learn,
    od_get "net_depth" (_options n) = Some D /\
    as_int D = Some d /\ 0 < d /\
    length (_layers n) = Datatypes.S (Z.to_nat d) /\
    od_get "learn_id_embedding" (_options n) = Some learn /\
    (if truthy learn then is_Some (_id_embedder n)
     else _id_embedder n = None).
Proof.
  intros Hrun.
  apply Net_init_options in Hrun
    as (n1 & w1 & n2 & w2 & Hcfg & Hpar & Ho & _ & Hl & He).
  apply _configure_starts_blank in Hcfg as [Hblank _].
  apply _init_params_shape in Hpar
    as (D & d & learn & HD & Hd & Hpos & Hlen & Hlearn & Hemb & _).
  exists D, d, learn. rewrite Ho, Hl, He.
  repeat split; try assumption.
  destruct (truthy learn); [exact Hemb | congruence].
Qed.

(** X4: [dimensions] never raises on a constructed [Net]: it returns the
    [input_dim] and [target_dim] of its options, which for an inference
    [Net] are the persisted ones. *)
Theorem dimensions_of_constructed_net
    options save_to load_from (n : @Net layer) w w' :
  Net_init options save_to load_from w = (inr n, w') ->
  exists i t,
    (forall w0, dimensions n w0 = (inr (i, t), w0)) /\
    od_get "input_dim" (_options n) = Some i /\
    od_get "target_dim" (_options n) = Some t /\
    (save_to = None ->
     exists path loaded,
       load_from = Some path /\
       fs w !! (path +:+ "/options.pkl") = Some (FPickle loaded) /\
       od_get "input_dim" loaded = Some i /\
       od_get "target_dim" loaded = Some t).
Proof.
  intros Hrun.
  apply Net_init_options in Hrun
    as (n1 & w1 & n2 & w2 & Hcfg & Hpar & Ho & _ & _ & _).
  apply _init_params_shape in Hpar
    as (_ & _ & _ & _ & _ & _ & _ & _ & _ & [i Hi] & [t Ht] & _).
  rewrite <- Ho in Hi, Ht.
  exists i, t. split; [| split; [exact Hi | split; [exact Ht |]]].
  - intros w0. unfold dimensions, opt, bind. rewrite Hi. simpl.
    rewrite Ht. reflexivity.
  - intros ->.
    apply _configure_inference in Hcfg
      as (supplied & path & loaded & bs & _ & -> & Hfile & _ & _ & Hopts).
    exists path, loaded. split; [reflexivity |]. split; [exact Hfile |].
    rewrite Ho, Hopts in Hi, Ht.
    rewrite od_get_set_other in Hi by discriminate.
    rewrite od_get_set_other in Ht by discriminate.
    split; assumption.
Qed.

(** ** Loading the parameter archive *)

(** [(p + s)[len(p):] == s] *)
Lemma str_from_append p s : str_from (String.length p) (p +:+ s) = s.
Proof.
  unfold str_from. rewrite length_append.
  replace (String.length p + String.length s - String.length p)%nat
    with (String.length s) by lia.
  rewrite substring_past. apply substring_whole.
Qed.

Lemma str_from_zero k : str_from 0 k = k.
Proof. unfold str_from. rewrite Nat.sub_0_r. apply substring_whole. Qed.

(** The loop that overlays the archive on the declared parameters. *)
Lemma overlay_loop (archive : odict tensor) (len_pfx : nat) (keys : list string) :
  forall (acc p : odict tensor) w w',
    for_each
      (fun k acc =>
         v <- lift_option (KeyError (str_from len_pfx k))
                          (od_get (str_from len_pfx k) archive) ;;
         ret (od_set k v acc))
      keys acc w = (inr p, w') ->
    w' = w /\
    (forall k, In k keys ->
       exists v, od_get (str_from len_pfx k) archive = Some v /\
                 od_get k p = Some v) /\
    (forall k, ~ In k keys -> od_get k p = od_get k acc).
Proof.
  induction keys as [| k0 keys IH]; intros acc p w w' Hrun.
  - apply ret_inr in Hrun as [<- <-]. split; [reflexivity |].
    split; [intros k [] | reflexivity].
  - simpl in Hrun. apply bind_inr in Hrun as (acc1 & w1 & Hbody & Hrest).
    cbv beta in Hbody. apply bind_inr in Hbody as (v0 & w2 & Hv & Hret).
    apply lift_option_inr in Hv as [Hv0 <-].
    apply ret_inr in Hret as [<- <-].
    apply IH in Hrest as (-> & Hin & Hout). split; [reflexivity |]. split.
    + intros k [<- | Hk].
      * destruct (in_dec String.string_dec k0 keys) as [Hyes | Hno].
        -- apply Hin. exact Hyes.
        -- exists v0. split; [exact Hv0 |]. rewrite (Hout k0 Hno).
           apply od_get_set_same.
      * apply Hin. exact Hk.
    + intros k Hk. simpl in Hk. rewrite Hout by tauto.
      apply od_get_set_other. intros ->. tauto.
Qed.

(** X5: after a construction from [load_from], every parameter holds the array
    that the archive has under the parameter's name without the instance
    prefix. *)
Theorem loaded_parameters_come_from_the_archive
    (path : string) (n n' : @Net layer) w w' :
  _init_params (Some path) n w = (inr n', w') ->
  exists w1 archive,
    np_load (path +:+ "/params.npz") w1 = (inr archive, w') /\
    forall k, In k (od_keys (_params n')) ->
      exists v,
        od_get (str_from (String.length (_pfx n)) k) archive = Some v /\
        od_get k (_params n') = Some v /\
        forall base, k = _pfx n +:+ base -> od_get base archive = Some v.
Proof.
  intros Hrun.
  assert (Hmain :
    exists w1 archive,
      np_load (path +:+ "/params.npz") w1 = (inr archive, w') /\
      forall k, In k (od_keys (_params n')) ->
        exists v,
          od_get (str_from (String.length (_pfx n)) k) archive = Some v /\
          od_get k (_params n') = Some v);
    [| destruct Hmain as (w1 & archive & Hload & Hall);
       exists w1, archive; split; [exact Hload |];
       intros k Hk; destruct (Hall k Hk) as (v & Hv & Hp);
       exists v; split; [exact Hv | split; [exact Hp |]];
       intros base ->; rewrite str_from_append in Hv; exact Hv].
  revert Hrun.
  unfold _init_params. intros Hrun. inv_run Hrun.
  rename a9 into archive, a10 into p.
  apply ret_inr in Hrun as [<- Hw].
  apply overlay_loop in Hstep10 as (-> & Hin & Hout).
  subst w'. exists w9, archive. split; [exact Hstep9 |].
  intros k Hk. simpl in Hk.
  assert (Hpfx : _pfx n = _pfx a4).
  { eapply (for_each_invariant (fun s => _pfx n = _pfx s));
      [| | exact Hstep4].
    - intros i s wa s' wb Hs Hbody. inv_run Hbody.
      apply ret_inr in Hbody as [<- _]. exact Hs.
    - revert Hstep0. destruct (negb (truthy a)); intros Hs0.
      + apply ret_inr in Hs0 as [<- _]. reflexivity.
      + inv_run Hs0. apply ret_inr in Hs0 as [<- _]. reflexivity. }
  simpl in Hin. rewrite Hpfx.
  destruct (in_dec String.string_dec k (od_keys a8.2)) as [Hyes | Hno].
  - apply Hin. exact Hyes.
  - exfalso. apply Hno.
    assert (Hnone : od_get k p = od_get k a8.2) by (apply Hout; exact Hno).
    clear -Hk Hnone Hno.
    assert (Hsome : exists v, od_get k p = Some v).
    { induction p as [| [k1 v1] p IHp]; [destruct Hk |].
      simpl in *. destruct (String.eqb k k1) eqn:Heq; [eauto |].
      destruct Hk as [-> | Hk]; [rewrite String.eqb_refl in Heq; discriminate |].
      apply IHp; assumption. }
    destruct Hsome as [v Hv]. rewrite Hnone in Hv.
    apply od_get_In in Hv. apply (in_map fst) in Hv. exact Hv.
Qed.

End Constructed.

(** ** The forward graph *)

Section ForwardGraph.
Context `{Kernels} `{Utils} {layer : Type} `{LayerAPI layer} `{OptimizerAPI}.

Lemma py_nth_nat {A} (i : nat) (xs : list A) x w :
  xs !! i = Some x -> py_nth (Z.of_nat i) xs w = (inr x, w).
Proof.
  intros Hx. unfold py_nth.
  destruct (Z.of_nat i <? 0) eqn:Hneg; [apply Z.ltb_lt in Hneg; lia |].
  rewrite Hneg. rewrite Nat2Z.id, Hx. reflexivity.
Qed.

Lemma py_nth_last {A} (xs : list A) x w :
  xs !! (length xs - 1)%nat = Some x -> (0 < length xs)%nat ->
  py_nth (-1) xs w = (inr x, w).
Proof.
  intros Hx Hlen. unfold py_nth. simpl.
  destruct (-1 + Z.of_nat (length xs) <? 0) eqn:Hneg;
    [apply Z.ltb_lt in Hneg; lia |].
  replace (Z.to_nat (-1 + Z.of_nat (length xs))) with (length xs - 1)%nat
    by lia.
  rewrite Hx. reflexivity.
Qed.

(** The loop of [_setup_forward_graph] from level [i] on. *)
Lemma forward_loop (self : @Net layer) cat s_time_t s_last_tap v_params
    v_prev_states s_input_tbi (N : nat) (clock : value) :
  od_get "learn_clock_params" (_options self) = Some clock ->
  forall (above : list layer) (i : nat) (s_outputs : list (option sexpr))
         (updates : list update) (s_below : sexpr) (w : world),
    (forall j, (j < length above)%nat ->
               _layers self !! (i + j)%nat = above !! j) ->
    length s_outputs = Datatypes.S N ->
    (i + length above = N)%nat -> (0 < N)%nat ->
    s_outputs !! N = Some (Some s_input_tbi) ->
    match i with
    | O => s_below = s_input_tbi
    | Datatypes.S j => s_outputs !! j = Some (Some s_below)
    end ->
    (r <- for_each
            (fun i acc =>
               l <- py_nth (Z.of_nat i) (_layers self) ;;
               below <- py_nth (Z.of_nat i - 1) acc.1 ;;
               below <- lift_option TypeError below ;;
               clock <- opt "learn_clock_params" self ;;
               ou <- setup_graph l (cat below)
                       (if truthy clock then Some s_time_t else None)
                       s_last_tap v_params v_prev_states ;;
               ret (<[i := Some ou.1]> acc.1,
                    match ou.2 with
                    | Some update => acc.2 ++ [update]
                    | None => acc.2
                    end))
            (seq i (length above)) (s_outputs, updates) ;;
     out <- py_nth (Z.of_nat N - 1) r.1 ;;
     out <- lift_option TypeError out ;;
     ret (out, r.2)) w
    = stack_layers cat (if truthy clock then Some s_time_t else None)
                   s_last_tap v_params v_prev_states above s_below updates w.
Proof.
  intros Hclock above.
  induction above as [| l above IH];
    intros i s_outputs updates s_below w Hdrop Hlen Hi HN Hinput Hbelow.
  - simpl in Hi. rewrite Nat.add_0_r in Hi. subst i. destruct N as [| j]; [lia |].
    simpl. unfold bind at 1. simpl.
    replace (Z.of_nat (Datatypes.S j) - 1) with (Z.of_nat j) by lia.
    rewrite (bind_ok _ _ w (Some s_below) w)
      by (apply py_nth_nat; exact Hbelow).
    reflexivity.
  - assert (Hl : _layers self !! i = Some l).
    { rewrite <- (Nat.add_0_r i). apply (Hdrop O). simpl. lia. }
    assert (Hprev : py_nth (Z.of_nat i - 1) s_outputs w
                    = (inr (Some s_below), w)).
    { destruct i as [| j].
      - subst s_below. simpl. apply py_nth_last; [| lia].
        rewrite Hlen. simpl. rewrite Nat.sub_0_r. exact Hinput.
      - replace (Z.of_nat (Datatypes.S j) - 1) with (Z.of_nat j) by lia.
        apply py_nth_nat. exact Hbelow. }
    cbn [length seq for_each stack_layers].
    unfold bind at 1 2.
    rewrite (bind_ok _ _ w l w) by (apply py_nth_nat; exact Hl).
    cbn [fst snd].
    rewrite (bind_ok _ _ w (Some s_below) w) by exact Hprev.
    rewrite (bind_ok _ _ w s_below w) by reflexivity.
    rewrite (bind_ok _ _ w clock w)
      by (unfold opt; rewrite Hclock; reflexivity).
    destruct (setup_graph l (cat s_below)
                (if truthy clock then Some s_time_t else None) s_last_tap
                v_params v_prev_states w) as [[e | ou] w1] eqn:Hsg.
    + rewrite (bind_fail _ _ w e w1 Hsg).
      rewrite (bind_fail _ _ w e w1 Hsg). reflexivity.
    + rewrite (bind_ok _ _ w ou w1 Hsg).
      rewrite (bind_ok _ _ w ou w1 Hsg). unfold ret at 1.
      specialize (IH (Datatypes.S i) (<[i := Some ou.1]> s_outputs)
                    (match ou.2 with
                     | Some update => updates ++ [update]
                     | None => updates
                     end) ou.1 w1).
      unfold bind at 1 in IH. cbn [fst snd]. apply IH.
      * intros j Hj. replace (Datatypes.S i + j)%nat with (i + Datatypes.S j)%nat by lia.
        apply (Hdrop (Datatypes.S j)). simpl. lia.
      * rewrite length_insert. exact Hlen.
      * simpl in Hi. lia.
      * exact HN.
      * rewrite list_lookup_insert_ne by (simpl in Hi; lia). exact Hinput.
      * apply list_lookup_insert_eq. rewrite Hlen. simpl in Hi. lia.
Qed.

(** X6: [_setup_forward_graph] builds the vertical stack of the first
    [net_depth + 1] layers over the input: the identity embedding, when it
    is on, is set up once before the layers and concatenated to what every
    layer receives; the clock is handed to the layers only when
    [learn_clock_params] is on. *)
Theorem forward_graph_is_the_vertical_stack (self : @Net layer)
    (s_input_tbi s_time_t s_id_idx_b s_last_tap : sexpr)
    (v_params v_prev_states : odict loc) (learn D clock : value) (d : Z)
    (w : world) :
  od_get "learn_id_embedding" (_options self) = Some learn ->
  od_get "learn_clock_params" (_options self) = Some clock ->
  od_get "net_depth" (_options self) = Some D ->
  as_int D = Some d -> 0 <= d ->
  (Z.to_nat d < length (_layers self))%nat ->
  let clocked := if truthy clock then Some s_time_t else None in
  let layers := take (Datatypes.S (Z.to_nat d)) (_layers self) in
  _setup_forward_graph self s_input_tbi s_time_t s_id_idx_b s_last_tap
                       v_params v_prev_states w
  = (if truthy learn then
       emb <- lift_option (AttributeError "_id_embedder")
                          (_id_embedder self) ;;
       id_count <- opt "id_count" self ;;
       r <- setup_graph emb (SOneHot s_id_idx_b id_count) None s_last_tap
                        v_params v_prev_states ;;
       stack_layers (fun s_below_tbj =>
                       SConcat2 s_below_tbj (STileTime r.1 s_input_tbi))
                    clocked s_last_tap v_params v_prev_states layers
                    s_input_tbi []
     else
       stack_layers (fun s_below_tbj => s_below_tbj) clocked s_last_tap
                    v_params v_prev_states layers s_input_tbi []) w.
Proof.
  intros Hlearn Hclock HD Hd Hpos Hlen clocked layers.
  assert (Hadd : forall w0, py_add D (VInt 1) w0 = (inr (VInt (d + 1)), w0)).
  { intros w0. destruct D; simpl in Hd; try discriminate;
      inversion Hd; subst; reflexivity. }
  assert (Htail : forall cat w0,
    (D0 <- opt "net_depth" self ;;
     D1 <- py_add D0 (VInt 1) ;;
     d0 <- lift_option TypeError (as_int D0) ;;
     idx <- py_range D1 ;;
     r <- for_each
            (fun i acc =>
               l <- py_nth (Z.of_nat i) (_layers self) ;;
               below <- py_nth (Z.of_nat i - 1) acc.1 ;;
               below <- lift_option TypeError below ;;
               clock <- opt "learn_clock_params" self ;;
               ou <- setup_graph l (cat below)
                       (if truthy clock then Some s_time_t else None)
                       s_last_tap v_params v_prev_states ;;
               ret (<[i := Some ou.1]> acc.1,
                    match ou.2 with
                    | Some update => acc.2 ++ [update]
                    | None => acc.2
                    end))
            idx (repeat None (Z.to_nat (d0 + 1)) ++ [Some s_input_tbi], []) ;;
     out <- py_nth d0 r.1 ;;
     out <- lift_option TypeError out ;;
     ret (out, r.2)) w0
    = stack_layers cat clocked s_last_tap v_params v_prev_states layers
                   s_input_tbi [] w0).
  { intros cat w0.
    rewrite (bind_ok _ _ w0 D w0)
      by (unfold opt; rewrite HD; reflexivity).
    rewrite (bind_ok _ _ w0 (VInt (d + 1)) w0) by apply Hadd.
    rewrite (bind_ok _ _ w0 d w0) by (rewrite Hd; reflexivity).
    rewrite (bind_ok _ _ w0 (seq 0 (Z.to_nat (d + 1))) w0) by reflexivity.
    assert (Hcount : length layers = Z.to_nat (d + 1)).
    { unfold layers. rewrite length_take. lia. }
    pose proof (forward_loop self cat s_time_t s_last_tap v_params
                  v_prev_states s_input_tbi (Z.to_nat (d + 1)) clock Hclock
                  layers O
                  (repeat None (Z.to_nat (d + 1)) ++ [Some s_input_tbi]) []
                  s_input_tbi w0) as Hloop.
    rewrite Hcount in Hloop.
    replace (Z.of_nat (Z.to_nat (d + 1)) - 1) with d in Hloop by lia.
    apply Hloop.
    - intros j Hj. simpl. unfold layers. symmetry. apply lookup_take_lt.
      lia.
    - rewrite length_app, repeat_length. simpl. lia.
    - reflexivity.
    - lia.
    - rewrite lookup_app_r by (rewrite repeat_length; lia).
      rewrite repeat_length, Nat.sub_diag. reflexivity.
    - reflexivity. }
  unfold _setup_forward_graph.
  rewrite (bind_ok _ _ w learn w)
    by (unfold opt; rewrite Hlearn; reflexivity).
  destruct (truthy learn); simpl negb; cbv iota.
  - destruct (lift_option (AttributeError "_id_embedder")
                (_id_embedder self) w) as [[e | emb] w1] eqn:Hemb.
    { rewrite (bind_fail _ _ w e w1)
        by (rewrite (bind_fail _ _ w e w1 Hemb); reflexivity).
      rewrite (bind_fail _ _ w e w1 Hemb). reflexivity. }
    destruct (opt "id_count" self w1) as [[e | id_count] w2] eqn:Hid.
    { rewrite (bind_fail _ _ w e w2)
        by (rewrite (bind_ok _ _ w emb w1 Hemb);
            rewrite (bind_fail _ _ w1 e w2 Hid); reflexivity).
      rewrite (bind_ok _ _ w emb w1 Hemb).
      rewrite (bind_fail _ _ w1 e w2 Hid). reflexivity. }
    destruct (setup_graph emb (SOneHot s_id_idx_b id_count) None s_last_tap
                v_params v_prev_states w2) as [[e | r] w3] eqn:Hsg.
    { rewrite (bind_fail _ _ w e w3)
        by (rewrite (bind_ok _ _ w emb w1 Hemb);
            rewrite (bind_ok _ _ w1 id_count w2 Hid);
            rewrite (bind_fail _ _ w2 e w3 Hsg); reflexivity).
      rewrite (bind_ok _ _ w emb w1 Hemb).
      rewrite (bind_ok _ _ w1 id_count w2 Hid).
      rewrite (bind_fail _ _ w2 e w3 Hsg). reflexivity. }
    rewrite (bind_ok _ _ w
               (fun s_below_tbj =>
                  SConcat2 s_below_tbj (STileTime r.1 s_input_tbi)) w3)
      by (rewrite (bind_ok _ _ w emb w1 Hemb);
          rewrite (bind_ok _ _ w1 id_count w2 Hid);
          rewrite (bind_ok _ _ w2 r w3 Hsg); reflexivity).
    rewrite (bind_ok _ _ w emb w1 Hemb).
    rewrite (bind_ok _ _ w1 id_count w2 Hid).
    rewrite (bind_ok _ _ w2 r w3 Hsg).
    apply Htail.
  - rewrite (bind_ok _ _ w (fun s_below_tbj : sexpr => s_below_tbj) w)
      by reflexivity.
    apply Htail.
Qed.

End ForwardGraph.

(** ** Snapshots in the workspace *)

Section Snapshots.
Context `{Kernels} `{Utils} {layer : Type} `{LayerAPI layer} `{OptimizerAPI}.

(** X11: a snapshot restores the parameters after they have changed: whatever
    happened to the shared variables since the save, as long as the
    snapshot file is still there, loading it gives every parameter the
    value it had when it was saved and touches no other shared variable. *)
Theorem snapshot_restores_changed_parameters (n n1 : @Net layer)
    (name : option string) (dir : string) (w w1 : world) :
  _save_to n = Some dir ->
  List.NoDup (od_keys (_v_params n)) ->
  save_v_params_to_workspace n name w = (inr n1, w1) ->
  let path := dir +:+ "/" +:+ snapshot_name name +:+ ".npz" in
  fs w1 !! path = Some (FNpz (_params n1)) /\
  forall w2,
    fs w2 !! path = fs w1 !! path ->
    exists w3,
      load_v_params_from_workspace n1 name w2 = (inr tt, w3) /\
      fs w3 = fs w2 /\
      (forall k l, In (k, l) (_v_params n) -> heap w3 !! l = heap w !! l) /\
      (forall l, ~ In l (od_values (_v_params n)) ->
                 heap w3 !! l = heap w2 !! l).
Proof.
  intros Hdir Hkeys Hsave path.
  destruct (save_v_params_to_workspace_inr n n1 name dir w w1 Hdir Hsave)
    as (Hmode & Halloc & -> & ->).
  set (saved := pulled_params (_v_params n) (heap w) (_params n)).
  fold path.
  assert (Hfile : fs (with_fs (<[path := FNpz saved]> (fs w))
                        (with_log (log w ++ [EvWrite path]) w)) !! path
                  = Some (FNpz saved)).
  { simpl. apply lookup_insert_eq. }
  split; [exact Hfile |].
  intros w2 Hkept. rewrite Hfile in Hkept.
  exact (load_v_params_from_workspace_restores (set_params saved n) name dir
           (heap w) (_params n) w2 Hmode Hdir Hkeys Halloc Hkept).
Qed.

(** X12: removing a snapshot deletes its file and nothing else; after that it
    can neither be loaded nor removed again: the load raises [IOError] on
    its path, the second removal fails, and both leave the shared variables
    and the files as they are. *)
Theorem removed_snapshot_cannot_be_loaded (n n1 : @Net layer)
    (name : option string) (dir : string) (w w1 : world) :
  _save_to n = Some dir ->
  save_v_params_to_workspace n name w = (inr n1, w1) ->
  let path := dir +:+ "/" +:+ snapshot_name name +:+ ".npz" in
  exists w2,
    remove_params_file_from_workspace n1 name w1 = (inr tt, w2) /\
    fs w2 = delete path (fs w1) /\ heap w2 = heap w1 /\
    (exists w3,
       load_v_params_from_workspace n1 name w2 = (inl (IOError path), w3) /\
       fs w3 = fs w2 /\ heap w3 = heap w2) /\
    (exists e w3,
       remove_params_file_from_workspace n1 name w2 = (inl e, w3) /\
       fs w3 = fs w2 /\ heap w3 = heap w2).
Proof.
  intros Hdir Hsave path.
  destruct (save_v_params_to_workspace_inr n n1 name dir w w1 Hdir Hsave)
    as (Hmode & Halloc & -> & ->).
  set (saved := pulled_params (_v_params n) (heap w) (_params n)).
  fold path.
  set (w1 := with_fs (<[path := FNpz saved]> (fs w))
                     (with_log (log w ++ [EvWrite path]) w)).
  set (w2 := with_fs (delete path (fs w1))
                     (with_log (log w1 ++ [EvRemove path]) w1)).
  assert (Hgone : fs w2 !! path = None) by (simpl; apply lookup_delete_eq).
  exists w2. split; [| split; [reflexivity | split; [reflexivity | split]]].
  - unfold remove_params_file_from_workspace.
    rewrite (bind_ok _ _ w1 tt w1) by (simpl; rewrite Hmode; reflexivity).
    rewrite (bind_ok _ _ w1 path w1)
      by (unfold workspace_path; simpl; rewrite Hdir; reflexivity).
    unfold os_remove, emit, bind. simpl. rewrite lookup_insert_eq.
    reflexivity.
  - exists (with_log (log w2 ++ [EvRead path]) w2).
    split; [| split; reflexivity].
    unfold load_v_params_from_workspace.
    rewrite (bind_ok _ _ w2 tt w2) by (simpl; rewrite Hmode; reflexivity).
    rewrite (bind_ok _ _ w2 path w2)
      by (unfold workspace_path; simpl; rewrite Hdir; reflexivity).
    apply bind_fail. unfold np_load, emit, bind.
    change (fs (with_log (log w2 ++ [EvRead path]) w2)) with (fs w2).
    rewrite Hgone. reflexivity.
  - exists (OSError path), (with_log (log w2 ++ [EvRemove path]) w2).
    split; [| split; reflexivity].
    unfold remove_params_file_from_workspace.
    rewrite (bind_ok _ _ w2 tt w2) by (simpl; rewrite Hmode; reflexivity).
    rewrite (bind_ok _ _ w2 path w2)
      by (unfold workspace_path; simpl; rewrite Hdir; reflexivity).
    unfold os_remove, emit, bind.
    change (fs (with_log (log w2 ++ [EvRemove path]) w2)) with (fs w2).
    rewrite Hgone. reflexivity.
Qed.

(** X13: [save_param] on an inference-mode [Net] writes an archive holding one
    array, the parameter's host copy under its name without the prefix of
    the [Net], to [filename] with [.npz] appended unless it ends with it;
    an unknown parameter is an [AssertionError] that changes nothing, a
    parameter called [file] is refused, and where the archive cannot be
    created [IOError] is raised and nothing is written. *)
Theorem save_param_writes_one_unprefixed_array (n : @Net layer)
    (param_name filename : string) (w : world) :
  _is_training n = false ->
  match od_get (_pfx n +:+ param_name) (_params n) with
  | None => save_param n param_name filename w = (inl AssertionError, w)
  | Some v =>
      if String.eqb param_name "file" then
        save_param n param_name filename w = (inl TypeError, w)
      else if writable w (npz_path filename) then
        exists w1,
          save_param n param_name filename w = (inr tt, w1) /\
          heap w1 = heap w /\
          fs w1 = <[npz_path filename := FNpz [(param_name, v)]]> (fs w) /\
          log w1 = log w ++ [EvWrite (npz_path filename)] /\
          exists w2,
            np_load (npz_path filename) w1 = (inr [(param_name, v)], w2)
      else
        exists w1,
          save_param n param_name filename w
          = (inl (IOError (npz_path filename)), w1) /\
          heap w1 = heap w /\ fs w1 = fs w
  end.
Proof.
  intros Hmode. unfold save_param, od_mem. rewrite Hmode.
  destruct (od_get (_pfx n +:+ param_name) (_params n)) as [v |] eqn:Hget.
  - simpl negb. simpl andb.
    rewrite (bind_ok _ _ w tt w) by reflexivity.
    rewrite (bind_ok _ _ w v w) by reflexivity.
    unfold np_savez, od_mem. cbn [od_get].
    rewrite (String.eqb_sym "file" param_name).
    destruct (String.eqb param_name "file") eqn:Hname.
    + reflexivity.
    + unfold bind, emit.
      change (writable (with_log (log w ++ [EvWrite (npz_path filename)]) w)
                (npz_path filename))
        with (writable w (npz_path filename)).
      destruct (writable w (npz_path filename)).
      * eexists. split; [reflexivity |]. simpl.
        split; [reflexivity |]. split; [reflexivity |].
        split; [reflexivity |].
        eexists. unfold np_load, emit, bind. simpl.
        rewrite lookup_insert_eq. reflexivity.
      * eexists. split; [reflexivity |]. split; reflexivity.
  - reflexivity.
Qed.

End Snapshots.

(** ** Strict compilation *)

Section Strict.
Context `{Kernels} `{Utils} {layer : Type} `{LayerAPI layer} `{OptimizerAPI}.

Lemma In_list_insert {A} (l : list A) i x y :
  In x (<[i := y]> l) -> x = y \/ In x l.
Proof.
  revert i. induction l as [| a l IH]; intros i Hin.
  - destruct Hin.
  - destruct i as [| i]; simpl in Hin.
    + destruct Hin as [<- | Hin]; [now left | right; now right].
    + destruct Hin as [<- | Hin]; [right; now left |].
      apply IH in Hin as [-> | Hin]; [now left | right; now right].
Qed.

Lemma py_nth_In {A} i (xs : list A) x w w' :
  py_nth i xs w = (inr x, w') -> In x xs.
Proof.
  unfold py_nth.
  destruct ((if i <? 0 then i + Z.of_nat (length xs) else i) <? 0);
    [discriminate |].
  intros Hr. apply lift_option_inr in Hr as [Hx _].
  apply list_elem_of_In. eapply list_elem_of_lookup_2. exact Hx.
Qed.

(** Under strict compilation a declared port that nothing reads is
    fatal. *)
Lemma compile_strict_dead_port inputs outputs updates p f :
  In p inputs -> ~ In p (ports_used outputs updates) ->
  th_function_compile inputs outputs updates OnUnusedRaise <> inr f.
Proof.
  intros Hin Hdead. unfold th_function_compile.
  destruct (first_dup (map fst updates)); [discriminate |].
  destruct (first_unused inputs (ports_used outputs updates)) eqn:Hfind;
    [discriminate |].
  exfalso. apply Hdead.
  unfold first_unused in Hfind.
  pose proof (find_none _ _ Hfind p Hin) as Hp. simpl in Hp.
  apply negb_false_iff in Hp. apply existsb_exists in Hp as (q & Hq & Heq).
  apply String.eqb_eq in Heq. subst q. exact Hq.
Qed.

Context `{!LayerReadsItsInputs layer}.

(** The forward graph reads only the input and the last tap, the identity
    indices when the embedding is on, and the clock when the clock
    parameters are learnt. *)
Lemma _setup_forward_graph_ports (self : @Net layer)
    s_input_tbi s_time_t s_id_idx_b s_last_tap v_params v_prev_states
    (clock emb : value) w r w' :
  od_get "learn_clock_params" (_options self) = Some clock ->
  od_get "learn_id_embedding" (_options self) = Some emb ->
  _setup_forward_graph self s_input_tbi s_time_t s_id_idx_b s_last_tap
                       v_params v_prev_states w = (inr r, w') ->
  forall p,
    In p (ports_of r.1 ++ flat_map (fun u => ports_of u.2) r.2) ->
    In p (ports_of s_input_tbi ++ ports_of s_last_tap ++
          (if truthy emb then ports_of s_id_idx_b else []) ++
          (if truthy clock then ports_of s_time_t else [])).
Proof.
  intros Hclock Hemb Hrun.
  set (P := ports_of s_input_tbi ++ ports_of s_last_tap ++
            (if truthy emb then ports_of s_id_idx_b else []) ++
            (if truthy clock then ports_of s_time_t else [])).
  unfold _setup_forward_graph in Hrun.
  apply bind_inr in Hrun as (learn & w0 & Hlearn & Hrun).
  unfold opt in Hlearn. apply lift_option_inr in Hlearn as [Hlearn <-].
  rewrite Hemb in Hlearn. inversion Hlearn; subst learn.
  apply bind_inr in Hrun as (cat & w1 & Hcat & Hrun).
  assert (Hcatports : forall x, incl (ports_of x) P ->
                                incl (ports_of (cat x)) P).
  { revert Hcat. destruct (truthy emb) eqn:Htruthy; intros Hcat;
      cbn [negb] in Hcat; cbv iota in Hcat.
    - inv_run Hcat. apply ret_inr in Hcat as [<- _].
      intros x Hx p Hp. simpl in Hp.
      apply in_app_or in Hp as [Hp | Hp]; [apply Hx; exact Hp |].
      apply in_app_or in Hp as [Hp | Hp].
      + pose proof (setup_graph_ports _ _ _ _ _ _ _ _ _ Hstep1 p
                      (in_or_app _ _ _ (or_introl Hp))) as Hin.
        unfold handed_ports in Hin. simpl in Hin.
        unfold P. try rewrite Htruthy. cbv iota.
        apply in_app_or in Hin as [Hin | Hin]; rewrite !in_app_iff; tauto.
      + unfold P. rewrite !in_app_iff. tauto.
    - apply ret_inr in Hcat as [<- _]. intros x Hx. exact Hx. }
  clear Hcat.
  apply bind_inr in Hrun as (D & w2 & _ & Hrun).
  apply bind_inr in Hrun as (D1 & w3 & _ & Hrun).
  apply bind_inr in Hrun as (d & w4 & _ & Hrun).
  apply bind_inr in Hrun as (idx & w5 & _ & Hrun).
  apply bind_inr in Hrun as (looped & w6 & Hloop & Hrun).
  apply bind_inr in Hrun as (top & w7 & Htop & Hrun).
  apply bind_inr in Hrun as (out & w8 & Hout & Hrun).
  apply ret_inr in Hrun as [<- _]. cbn [fst snd].
  apply lift_option_inr in Hout as [-> _].
  apply py_nth_In in Htop.
  assert (Hinv :
    (forall e, In (Some e) looped.1 -> incl (ports_of e) P) /\
    (forall u, In u looped.2 -> incl (ports_of u.2) P)).
  { eapply (for_each_invariant
              (fun acc : list (option sexpr) * list update =>
                 (forall e, In (Some e) acc.1 -> incl (ports_of e) P) /\
                 (forall u, In u acc.2 -> incl (ports_of u.2) P)));
      [| | exact Hloop].
    - intros i acc wa acc' wb [Houts Hups] Hbody. cbv beta in Hbody.
      apply bind_inr in Hbody as (l & wa1 & _ & Hbody).
      apply bind_inr in Hbody as (below' & wa2 & Hbelow' & Hbody).
      apply bind_inr in Hbody as (below & wa3 & Hbelow & Hbody).
      apply bind_inr in Hbody as (c & wa4 & Hc & Hbody).
      apply bind_inr in Hbody as (ou & wa5 & Hsg & Hbody).
      apply ret_inr in Hbody as [<- _]. cbn [fst snd].
      apply lift_option_inr in Hbelow as [-> _].
      apply py_nth_In in Hbelow'.
      unfold opt in Hc. apply lift_option_inr in Hc as [Hc _].
      rewrite Hclock in Hc. inversion Hc; subst c.
      pose proof (setup_graph_ports _ _ _ _ _ _ _ _ _ Hsg) as Hlaw.
      assert (Hhanded : incl (handed_ports (cat below)
                                (if truthy clock then Some s_time_t else None)
                                s_last_tap) P).
      { intros p Hp. unfold handed_ports in Hp.
        apply in_app_or in Hp as [Hp | Hp].
        - apply (Hcatports below (Houts below Hbelow')). exact Hp.
        - unfold P. rewrite !in_app_iff.
          apply in_app_or in Hp as [Hp | Hp]; [| tauto].
          destruct (truthy clock); [tauto | destruct Hp]. }
      split.
      + intros e He. apply In_list_insert in He as [He | He].
        * inversion He; subst e. intros p Hp. apply Hhanded, Hlaw.
          apply in_or_app. now left.
        * apply Houts. exact He.
      + intros u Hu. destruct ou as [o [upd |]]; cbn [fst snd] in *.
        * apply in_app_or in Hu as [Hu | [<- | []]]; [apply Hups; exact Hu |].
          intros p Hp. apply Hhanded, Hlaw. apply in_or_app. now right.
        * apply Hups. exact Hu.
    - split.
      + intros e He. cbn [fst] in He. apply in_app_or in He as [He | He].
        * apply repeat_spec in He. discriminate.
        * destruct He as [He | []]. inversion He; subst e.
          intros p Hp. unfold P. apply in_or_app. now left.
      + intros u []. }
  destruct Hinv as [Houts Hups].
  intros p Hp. apply in_app_or in Hp as [Hp | Hp].
  - apply (Houts _ Htop). exact Hp.
  - apply in_flat_map in Hp as (u & Hu & Hp). apply (Hups u Hu). exact Hp.
Qed.

Lemma new_grad_ports (self : @Net layer) loss wrt :
  ports_of (new_grad self loss wrt) = ports_of loss.
Proof. unfold new_grad. destruct (od_get _ _); reflexivity. Qed.

Lemma grad_update_ports (self : @Net layer) loss v_grads v_wrt p :
  In p (flat_map (fun u : update => ports_of u.2)
          (combine v_grads (map (new_grad self loss) v_wrt))) ->
  In p (ports_of loss).
Proof.
  intros Hp. apply in_flat_map in Hp as ([l e] & Hu & Hp).
  apply in_combine_r in Hu. apply in_map_iff in Hu as (x & <- & _).
  simpl in Hp. rewrite new_grad_ports in Hp. exact Hp.
Qed.

(** The ports read by the graphs of a training [Net]. *)
Lemma _setup_training_graph_ports (n0 n : @Net layer) w0 w1 clock emb :
  _setup_training_graph n0 w0 = (inr n, w1) ->
  od_get "learn_clock_params" (_options n0) = Some clock ->
  od_get "learn_id_embedding" (_options n0) = Some emb ->
  exists loss,
    _port_o_loss n = Some loss /\
    forall p,
      In p (ports_used [loss] (_grad_updates n ++ _prev_state_updates n ++
                               _grad_updates_for_init n)) ->
      In p ([port_i_input; port_i_last_tap; port_i_target; port_i_loss_tap] ++
            (if truthy emb then [port_i_id_idx] else []) ++
            (if truthy clock then [port_i_time] else [])).
Proof.
  intros Hrun Hclock Hemb. unfold _setup_training_graph in Hrun.
  apply bind_inr in Hrun as (fw & wa & Hfw & Hrun).
  pose proof (_setup_forward_graph_ports _ _ _ _ _ _ _ _ _ _ _ _
                Hclock Hemb Hfw) as Hports.
  cbv zeta in Hrun.
  set (loss := _setup_loss_graph fw.1 (SPort port_i_target)
                 (SPort port_i_loss_tap)) in *.
  assert (Hloss : forall p, In p (ports_of loss) ->
    In p ([port_i_input; port_i_last_tap; port_i_target; port_i_loss_tap] ++
          (if truthy emb then [port_i_id_idx] else []) ++
          (if truthy clock then [port_i_time] else []))).
  { intros p Hp. unfold loss, _setup_loss_graph in Hp. simpl in Hp.
    rewrite !in_app_iff in Hp. rewrite !in_app_iff. simpl.
    assert (Hfwd : In p (ports_of fw.1) ->
                   In p (ports_of (SPort port_i_input) ++
                         ports_of (SPort port_i_last_tap) ++
                         (if truthy emb then ports_of (SPort port_i_id_idx)
                          else []) ++
                         (if truthy clock then ports_of (SPort port_i_time)
                          else []))).
    { intros Hin. apply Hports. apply in_or_app. now left. }
    simpl in Hfwd. rewrite !in_app_iff in Hfwd. simpl in Hfwd.
    simpl in Hp. tauto. }
  assert (Hprev : forall p,
    In p (flat_map (fun u : update => ports_of u.2) fw.2) ->
    In p ([port_i_input; port_i_last_tap; port_i_target; port_i_loss_tap] ++
          (if truthy emb then [port_i_id_idx] else []) ++
          (if truthy clock then [port_i_time] else []))).
  { intros p Hp.
    pose proof (Hports p (in_or_app _ _ _ (or_intror Hp))) as Hin.
    simpl in Hin. rewrite !in_app_iff in Hin. rewrite !in_app_iff.
    simpl in *. tauto. }
  apply bind_inr in Hrun as (gu & wb & Hgu & Hrun).
  apply _setup_grad_updates_graph_spec in Hgu as (_ & _ & ->).
  apply bind_inr in Hrun as (pu & wc & _ & Hrun).
  apply bind_inr in Hrun as (learn & wd & _ & Hrun).
  exists loss.
  destruct (truthy learn).
  - apply bind_inr in Hrun as (gui & we & Hgui & Hrun).
    apply _setup_grad_updates_graph_spec in Hgui as (_ & _ & ->).
    apply bind_inr in Hrun as (pui & wf & _ & Hrun).
    apply ret_inr in Hrun as [<- _]. simpl.
    split; [reflexivity |].
    intros p Hp. unfold ports_used in Hp.
    rewrite !flat_map_app in Hp. cbn [flat_map] in Hp.
    rewrite app_nil_r in Hp. rewrite !in_app_iff in Hp.
    destruct Hp as [Hp | [Hp | [Hp | Hp]]].
    + apply Hloss. exact Hp.
    + apply Hloss. eapply grad_update_ports. exact Hp.
    + apply Hprev. exact Hp.
    + apply Hloss. eapply grad_update_ports. exact Hp.
  - apply ret_inr in Hrun as [<- _]. simpl.
    split; [reflexivity |].
    intros p Hp. unfold ports_used in Hp.
    rewrite !flat_map_app in Hp. cbn [flat_map] in Hp.
    rewrite !app_nil_r in Hp. rewrite !in_app_iff in Hp.
    destruct Hp as [Hp | [Hp | Hp]].
    + apply Hloss. exact Hp.
    + apply Hloss. eapply grad_update_ports. exact Hp.
    + apply Hprev. exact Hp.
Qed.

(** The ports read by the graphs of an inference [Net]. *)
Lemma _setup_inference_graph_ports (n0 n : @Net layer) w0 w1 clock emb :
  _setup_inference_graph n0 w0 = (inr n, w1) ->
  od_get "learn_clock_params" (_options n0) = Some clock ->
  od_get "learn_id_embedding" (_options n0) = Some emb ->
  exists out,
    _port_o_output n = Some out /\
    forall p,
      In p (ports_used [out] (_prev_state_updates n)) ->
      In p ([port_i_input] ++
            (if truthy emb then [port_i_id_idx] else []) ++
            (if truthy clock then [port_i_time] else [])).
Proof.
  intros Hrun Hclock Hemb. unfold _setup_inference_graph in Hrun.
  cbv zeta in Hrun.
  apply bind_inr in Hrun as (fw & wa & Hfw & Hrun).
  pose proof (_setup_forward_graph_ports _ _ _ _ _ _ _ _ _ _ _ _
                Hclock Hemb Hfw) as Hports.
  apply ret_inr in Hrun as [<- _]. simpl.
  exists fw.1. split; [reflexivity |].
  intros p Hp. unfold ports_used in Hp. simpl in Hp.
  rewrite app_nil_r in Hp. apply Hports in Hp.
  simpl in Hp. rewrite !in_app_iff in Hp. rewrite !in_app_iff.
  simpl in *. tauto.
Qed.

Lemma ports_used_app_l outs ups ups' p :
  In p (ports_used outs ups) -> In p (ports_used outs (ups ++ ups')).
Proof.
  unfold ports_used. rewrite flat_map_app, !in_app_iff. tauto.
Qed.

Lemma ports_used_app_r outs ups ups' p :
  In p (ports_used outs ups') -> In p (ports_used outs (ups ++ ups')).
Proof.
  unfold ports_used. rewrite flat_map_app, !in_app_iff. tauto.
Qed.

(** X7: with exactly one of [learn_clock_params] and [learn_id_embedding] on,
    no forward or forward-backward function can be compiled: the functions
    are compiled strictly and declare the clock port and the identity port,
    while the graph reads only the one whose switch is on. *)
Theorem one_sided_switch_never_compiles (n0 n : @Net layer) (w0 w1 : world)
    (clock emb : value) :
  (if _is_training n0 then _setup_training_graph n0 w0
   else _setup_inference_graph n0 w0) = (inr n, w1) ->
  od_get "learn_clock_params" (_options n0) = Some clock ->
  od_get "learn_id_embedding" (_options n0) = Some emb ->
  truthy clock = negb (truthy emb) ->
  forall w f w',
    compile_f_fwd_propagate n w <> (inr f, w') /\
    compile_f_fwd_bwd_propagate n w <> (inr f, w') /\
    compile_f_fwd_bwd_for_init n w <> (inr f, w').
Proof.
  intros Hrun Hclock Hemb Hone w f w'.
  set (dead := if truthy clock then port_i_id_idx else port_i_time).
  assert (Hcfg : same_config n0 n).
  { destruct (_is_training n0).
    - apply _setup_training_graph_frame in Hrun. tauto.
    - apply _setup_inference_graph_frame in Hrun. tauto. }
  destruct Hcfg as (Hmode & Hopts & _).
  assert (Hpolicy : forall w2, unused_input_policy n w2
                               = (inr OnUnusedRaise, w2)).
  { intros w2. unfold unused_input_policy, opt. rewrite <- Hopts, Hclock.
    simpl. rewrite (bind_ok _ _ w2 clock w2) by reflexivity.
    destruct (truthy clock); [reflexivity |].
    rewrite Hemb. simpl. rewrite (bind_ok _ _ w2 emb w2) by reflexivity.
    destruct (truthy emb); [reflexivity | discriminate]. }
  assert (Hstrict : forall inputs outputs updates w2,
    In dead inputs -> ~ In dead (ports_used outputs updates) ->
    (policy <- unused_input_policy n ;;
     lift_result (th_function_compile inputs outputs updates policy)) w2
    <> (inr f, w')).
  { intros inputs outputs updates w2 Hin Hdead Hc.
    rewrite (bind_ok _ _ w2 OnUnusedRaise w2) in Hc by apply Hpolicy.
    apply lift_result_inr in Hc as [Hc _].
    exact (compile_strict_dead_port _ _ _ _ _ Hin Hdead Hc). }
  assert (Hdead_training : In dead training_inputs).
  { unfold dead, training_inputs. destruct (truthy clock); simpl; tauto. }
  assert (Hdead_gone : ~ In dead
            ([port_i_input; port_i_last_tap; port_i_target; port_i_loss_tap] ++
             (if truthy emb then [port_i_id_idx] else []) ++
             (if truthy clock then [port_i_time] else []))).
  { unfold dead. rewrite Hone.
    destruct (truthy emb); simpl; intros Hin;
      repeat (destruct Hin as [Hin | Hin]; [discriminate |]); exact Hin. }
  destruct (_is_training n0) eqn:Hn0.
  - destruct (_setup_training_graph_ports _ _ _ _ _ _ Hrun Hclock Hemb)
      as (loss & Hloss & Hports).
    assert (Hall : ~ In dead (ports_used [loss]
                     (_grad_updates n ++ _prev_state_updates n ++
                      _grad_updates_for_init n))).
    { intros Hin. apply Hdead_gone, Hports, Hin. }
    unfold compile_f_fwd_propagate, compile_f_fwd_bwd_propagate,
      compile_f_fwd_bwd_for_init, the_port.
    rewrite <- Hmode, Hloss. simpl lift_option.
    split; [| split].
    + rewrite (bind_ok _ _ w loss w) by reflexivity.
      apply Hstrict; [exact Hdead_training |].
      intros Hin. apply Hall. apply ports_used_app_r, ports_used_app_l.
      exact Hin.
    + intros Hc. apply bind_inr in Hc as (u & wa & _ & Hc).
      rewrite (bind_ok _ _ wa loss wa) in Hc by reflexivity.
      revert Hc. apply Hstrict; [exact Hdead_training |].
      intros Hin. apply Hall. rewrite app_assoc. apply ports_used_app_l.
      exact Hin.
    + intros Hc. apply bind_inr in Hc as (u & wa & _ & Hc).
      rewrite (bind_ok _ _ wa loss wa) in Hc by reflexivity.
      revert Hc. apply Hstrict; [exact Hdead_training | exact Hall].
  - destruct (_setup_inference_graph_ports _ _ _ _ _ _ Hrun Hclock Hemb)
      as (out & Hout & Hports).
    unfold compile_f_fwd_propagate, compile_f_fwd_bwd_propagate,
      compile_f_fwd_bwd_for_init, assert_training_with_init, the_port.
    rewrite <- Hmode, Hout. simpl lift_option.
    split; [| split; discriminate].
    rewrite (bind_ok _ _ w out w) by reflexivity.
    apply Hstrict.
    + unfold dead. destruct (truthy clock); simpl; tauto.
    + intros Hin. apply Hports in Hin. apply Hdead_gone.
      rewrite !in_app_iff in *. simpl in *. tauto.
Qed.

End Strict.

(** ** Validation and update functions *)

Section CompiledFunctions.
Context `{Kernels} `{Utils} {layer : Type} `{LayerAPI layer} `{OptimizerAPI}.

(** What a compilation that returns has checked. *)
Lemma th_function_compile_inr inputs outputs (updates : list update)
    policy f :
  th_function_compile inputs outputs updates policy = inr f ->
  f = mkFunction inputs outputs updates /\
  List.NoDup (map fst updates) /\
  (policy = OnUnusedRaise ->
   forall p, In p inputs -> In p (ports_used outputs updates)).
Proof.
  unfold th_function_compile.
  destruct (first_dup (map fst updates)) eqn:Hdup; [discriminate |].
  apply first_dup_None in Hdup.
  destruct (first_unused inputs (ports_used outputs updates)) eqn:Hfind.
  - destruct policy; try discriminate;
      intros Hf; inversion Hf; repeat split; try assumption; discriminate.
  - intros Hf. assert (Hf' : f = mkFunction inputs outputs updates)
      by (destruct policy; inversion Hf; reflexivity).
    repeat split; try assumption.
    intros _ p Hin. unfold first_unused in Hfind.
    pose proof (find_none _ _ Hfind p Hin) as Hp. simpl in Hp.
    apply negb_false_iff in Hp. apply existsb_exists in Hp as (q & Hq & Heq).
    apply String.eqb_eq in Heq. subst q. exact Hq.
Qed.

Lemma eval_all_app E h (a b : list sexpr) ts :
  eval_all E h (a ++ b) = Some ts ->
  exists ta tb,
    eval_all E h a = Some ta /\ eval_all E h b = Some tb /\
    ts = ta ++ tb /\ length ta = length a.
Proof.
  revert ts. induction a as [| e a IH]; intros ts Hall.
  - exists [], ts. repeat split. exact Hall.
  - simpl in Hall.
    destruct (eval E h e) as [t |] eqn:He; [| discriminate]. simpl in Hall.
    destruct (eval_all E h (a ++ b)) as [ts' |] eqn:Hrest; [| discriminate].
    simpl in Hall. inversion Hall; subst ts; clear Hall.
    destruct (IH ts' eq_refl) as (ta & tb & Ha & Hb & -> & Hlen).
    exists (t :: ta), tb. simpl. rewrite He. simpl. rewrite Ha. simpl.
    repeat split; [exact Hb | lia].
Qed.

Lemma write_all_app (a b : list loc) (ta tb : list tensor)
    (h : gmap loc tensor) :
  length ta = length a ->
  write_all (a ++ b) (ta ++ tb) h = write_all b tb (write_all a ta h).
Proof.
  unfold write_all. revert ta h.
  induction a as [| l a IH]; intros ta h Hlen.
  - destruct ta; [reflexivity | discriminate].
  - destruct ta as [| t ta]; [discriminate |]. simpl.
    apply IH. simpl in Hlen. lia.
Qed.

(** X8: a forward pass used for validation agrees with the forward-backward
    pass on the same arguments and state: it returns the same loss and
    leaves the same values everywhere but in the gradient accumulators,
    which it does not touch. *)
Theorem validation_pass_agrees_with_training_pass (n : @Net layer)
    (w w1 w2 : world) (f_fwd f_fwd_bwd : th_function)
    (args outs : list tensor) (h h_bwd : gmap loc tensor) :
  compile_f_fwd_propagate n w = (inr f_fwd, w1) ->
  compile_f_fwd_bwd_propagate n w = (inr f_fwd_bwd, w2) ->
  call_on f_fwd_bwd args h = inr (outs, h_bwd) ->
  exists h_fwd,
    call_on f_fwd args h = inr (outs, h_fwd) /\
    (forall l, In l (map fst (_grad_updates n)) -> h_fwd !! l = h !! l) /\
    (forall l, ~ In l (map fst (_grad_updates n)) ->
               h_fwd !! l = h_bwd !! l).
Proof.
  intros Hfwd Hbwd Hcall.
  unfold compile_f_fwd_bwd_propagate in Hbwd.
  apply bind_inr in Hbwd as (u & wa & Hmode & Hbwd).
  apply assert_inr in Hmode as [Hmode _].
  apply bind_inr in Hbwd as (loss & wb & Hloss & Hbwd).
  apply lift_option_inr in Hloss as [Hloss _].
  apply bind_inr in Hbwd as (policy & wc & _ & Hbwd).
  apply lift_result_inr in Hbwd as [Hbwd _].
  apply th_function_compile_inr in Hbwd as (-> & Hnd & _).
  unfold compile_f_fwd_propagate in Hfwd. rewrite Hmode in Hfwd.
  apply bind_inr in Hfwd as (loss' & wd & Hloss' & Hfwd).
  apply lift_option_inr in Hloss' as [Hloss' _].
  rewrite Hloss in Hloss'. inversion Hloss'; subst loss'.
  apply bind_inr in Hfwd as (policy' & we & _ & Hfwd).
  apply lift_result_inr in Hfwd as [Hfwd _].
  apply th_function_compile_inr in Hfwd as (-> & _ & _).
  unfold call_on in *. cbn [f_inputs f_outputs f_updates] in *.
  unfold update in *.
  destruct (bind_args training_inputs args) as [E |]; [| discriminate].
  destruct (eval_all E h [loss]) as [outs' |]; [| discriminate].
  rewrite map_app in Hcall.
  match type of Hcall with
  | context [eval_all ?a ?b ?c] =>
      destruct (eval_all a b c) as [news |] eqn:Hnews; [| discriminate Hcall]
  end.
  inversion Hcall; subst outs' h_bwd; clear Hcall.
  apply eval_all_app in Hnews as (tg & tp & Hg & Hp & -> & Hlen).
  rewrite Hp. rewrite length_map in Hlen.
  eexists. split; [reflexivity |].
  rewrite map_app in Hnd.
  pose proof (NoDup_app_remove_l _ _ Hnd) as Hndp.
  rewrite map_app.
  rewrite write_all_app by (rewrite length_map; exact Hlen).
  split.
  - intros l Hl. apply write_all_out. intros Hin.
    revert l Hl Hin. clear -Hnd.
    induction (map fst (_grad_updates n)) as [| g gs IH]; intros l Hl Hin.
    + destruct Hl.
    + simpl in Hnd. inversion Hnd as [| ? ? Hfresh Hnd']; subst.
      destruct Hl as [-> | Hl].
      * apply Hfresh. apply in_or_app. now right.
      * exact (IH Hnd' l Hl Hin).
  - intros l Hl.
    destruct (in_dec Nat.eq_dec l (map fst (_prev_state_updates n)))
      as [Hin | Hout].
    + assert (Hlenp : length tp = length (_prev_state_updates n)).
      { clear -Hp. revert tp Hp.
        induction (_prev_state_updates n) as [| u us IH]; intros tp Hp.
        - inversion Hp. reflexivity.
        - simpl in Hp. destruct (eval E h u.2); [| discriminate].
          simpl in Hp. destruct (eval_all E h (map snd us)); [| discriminate].
          inversion Hp. simpl. f_equal. apply IH. reflexivity. }
      assert (Hex : exists t,
                In (l, t) (combine (map fst (_prev_state_updates n)) tp)).
      { apply combine_covers; [rewrite length_map; exact Hlenp | exact Hin]. }
      destruct Hex as [t Ht].
      rewrite (write_all_in _ _ _ l t Hndp Ht).
      rewrite (write_all_in _ _ _ l t Hndp Ht). reflexivity.
    + rewrite !write_all_out by assumption. reflexivity.
Qed.

(** X9: the update functions declare the learning rate as their only input
    and are compiled strictly: one is returned only when some update reads
    the learning rate, and when no update reads it the compilation raises
    [UnusedInputError] for that port. *)
Theorem update_functions_must_read_the_learning_rate (n : @Net layer)
    (w : world) :
  (forall f w',
     compile_f_update_v_params n w = (inr f, w') ->
     w' = w /\ _is_training n = true /\
     f = mkFunction [port_i_lr] [] (_param_updates n) /\
     exists u, In u (_param_updates n) /\ In port_i_lr (ports_of u.2)) /\
  (forall f w',
     compile_f_update_init_states n w = (inr f, w') ->
     w' = w /\ _is_training n = true /\
     f = mkFunction [port_i_lr] [] (_param_updates_for_init n) /\
     exists u, In u (_param_updates_for_init n) /\
               In port_i_lr (ports_of u.2)) /\
  (_is_training n = true ->
   List.NoDup (map fst (_param_updates n)) ->
   (forall u, In u (_param_updates n) -> ~ In port_i_lr (ports_of u.2)) ->
   compile_f_update_v_params n w = (inl (UnusedInputError port_i_lr), w)).
Proof.
  assert (Hreads : forall updates f,
    th_function_compile [port_i_lr] [] updates OnUnusedRaise = inr f ->
    f = mkFunction [port_i_lr] [] updates /\
    exists u, In u updates /\ In port_i_lr (ports_of u.2)).
  { intros updates f Hc.
    apply th_function_compile_inr in Hc as (-> & _ & Hused).
    split; [reflexivity |].
    specialize (Hused eq_refl port_i_lr (or_introl eq_refl)).
    unfold ports_used in Hused. simpl in Hused.
    apply in_flat_map in Hused as (u & Hu & Hp). eauto. }
  split; [| split].
  - intros f w' Hc. unfold compile_f_update_v_params in Hc.
    apply bind_inr in Hc as (u & wa & Hmode & Hc).
    apply assert_inr in Hmode as [Hmode <-].
    apply lift_result_inr in Hc as [Hc <-].
    apply Hreads in Hc as [-> Hu]. repeat split; assumption.
  - intros f w' Hc. unfold compile_f_update_init_states in Hc.
    apply bind_inr in Hc as (u & wa & Hmode & Hc).
    unfold assert_training_with_init in Hmode.
    destruct (_is_training n); [| discriminate].
    apply bind_inr in Hmode as (learn & wb & Hlearn & Hmode).
    apply lift_option_inr in Hlearn as [_ <-].
    apply assert_inr in Hmode as [_ <-].
    apply lift_result_inr in Hc as [Hc <-].
    apply Hreads in Hc as [-> Hu]. repeat split; assumption.
  - intros Hmode Hnd Hdead. unfold compile_f_update_v_params.
    rewrite Hmode. rewrite (bind_ok _ _ w tt w) by reflexivity.
    unfold th_function_compile. rewrite NoDup_first_dup by exact Hnd.
    unfold first_unused. cbn [List.find].
    destruct (existsb (String.eqb port_i_lr)
                (ports_used [] (_param_updates n))) eqn:Hex.
    + exfalso. apply existsb_exists in Hex as (q & Hq & Heq).
      apply String.eqb_eq in Heq. subst q.
      unfold ports_used in Hq. simpl in Hq.
      apply in_flat_map in Hq as (u & Hu & Hp). exact (Hdead u Hu Hp).
    + reflexivity.
Qed.

(** X10: without [learn_init_states] there is no init-state learning: on a
    training [Net] whose option is falsy, [compile_f_fwd_bwd_for_init] and
    [compile_f_update_init_states] raise [AssertionError] before they read
    any attribute of the [Net], and where the option is missing they raise
    [KeyError]; the world is left as it was. *)
Theorem no_init_state_learning_without_the_option (n : @Net layer)
    (w : world) :
  _is_training n = true ->
  (forall learn,
     od_get "learn_init_states" (_options n) = Some learn ->
     truthy learn = false ->
     compile_f_fwd_bwd_for_init n w = (inl AssertionError, w) /\
     compile_f_update_init_states n w = (inl AssertionError, w)) /\
  (od_get "learn_init_states" (_options n) = None ->
   compile_f_fwd_bwd_for_init n w
   = (inl (KeyError "learn_init_states"), w) /\
   compile_f_update_init_states n w
   = (inl (KeyError "learn_init_states"), w)).
Proof.
  intros Hmode.
  unfold compile_f_fwd_bwd_for_init, compile_f_update_init_states,
    assert_training_with_init, opt.
  rewrite Hmode. split.
  - intros learn Hlearn Hoff. rewrite Hlearn. simpl lift_option. split.
    + apply bind_fail. rewrite (bind_ok _ _ w learn w) by reflexivity.
      rewrite Hoff. reflexivity.
    + apply bind_fail. rewrite (bind_ok _ _ w learn w) by reflexivity.
      rewrite Hoff. reflexivity.
  - intros Hnone. rewrite Hnone. split; reflexivity.
Qed.

End CompiledFunctions.

(** ** The further properties on the demo backend *)

#[export] Instance demo_layers_read_inputs : LayerReadsItsInputs demo_layer.
Proof.
  constructor.
  intros l s_below s_time s_last_tap v_params v_prev_states w ou w' Hrun p Hp.
  change (demo_setup_graph l s_below s_time s_last_tap v_params v_prev_states
                           w = (inr ou, w')) in Hrun.
  unfold demo_setup_graph in Hrun.
  apply bind_inr in Hrun as (W & w1 & _ & Hrun).
  apply bind_inr in Hrun as (b & w2 & _ & Hrun).
  cbv zeta in Hrun. unfold handed_ports.
  destruct (recurrent l).
  - apply bind_inr in Hrun as (prev & w3 & _ & Hrun).
    apply ret_inr in Hrun as [<- _].
    unfold update_ports in Hp. cbn [fst snd ports_of] in Hp.
    rewrite !flat_map_app in Hp. cbn [flat_map ports_of] in Hp.
    rewrite !flat_map_app in Hp. cbn [flat_map ports_of] in Hp.
    destruct s_time as [t |]; cbn [flat_map app] in Hp;
      rewrite ?app_nil_r in Hp; rewrite !in_app_iff in Hp;
      rewrite !in_app_iff; simpl in *; tauto.
  - apply ret_inr in Hrun as [<- _].
    unfold update_ports in Hp. cbn [fst snd ports_of] in Hp.
    rewrite !flat_map_app in Hp. cbn [flat_map ports_of] in Hp.
    destruct s_time as [t |]; cbn [flat_map app] in Hp;
      rewrite ?app_nil_r in Hp; rewrite ?in_app_iff in Hp;
      rewrite !in_app_iff; simpl in *; tauto.
Qed.

Lemma clocked_graph_ok :
  (if _is_training clocked_shared_net
   then _setup_training_graph clocked_shared_net clocked_shared_world
   else _setup_inference_graph clocked_shared_net clocked_shared_world)
  = (inr clocked_net, clocked_world).
Proof. vm_compute. reflexivity. Qed.

Lemma demo_loaded_ok :
  _init_params (Some "old") demo_configured_net demo_configured_world
  = (inr demo_loaded_net, demo_loaded_world).
Proof. vm_compute. reflexivity. Qed.

Lemma demo_save_ok :
  save_v_params_to_workspace demo_net None demo_world
  = (inr demo_saved_net, demo_saved_world).
Proof. vm_compute. reflexivity. Qed.

Lemma demo_keys_NoDup : List.NoDup (od_keys (_v_params demo_net)).
Proof.
  apply NoDup_ListNoDup. vm_compute. apply (bool_decide_unpack _).
  vm_compute. exact I.
Qed.

Lemma demo_fwd_ok :
  compile_f_fwd_propagate demo_net demo_world = (inr demo_fwd, demo_world).
Proof. vm_compute. reflexivity. Qed.

Lemma demo_fwd_bwd_ok :
  compile_f_fwd_bwd_propagate demo_net demo_world
  = (inr demo_fwd_bwd, demo_world).
Proof. vm_compute. reflexivity. Qed.

Lemma demo_bwd_call_ok :
  call_on demo_fwd_bwd demo_args (heap demo_world) = inr demo_bwd_call.
Proof. vm_compute. reflexivity. Qed.

(** The options of the demo run are on disk after the construction, and a
    run whose workspace directory is missing stops at the write. *)
Lemma persisted_options_are_read_back_witness :
  (exists w1,
     _configure (layer := demo_layer) (Some (demo_options false))
                (Some "out") None Net_new empty_world
     = (inr (set_config true (demo_options false) (Some "out") "" Net_new),
        w1) /\
     fs w1 !! "out/options.pkl" = Some (FPickle (demo_options false))) /\
  (exists w1,
     _configure (layer := demo_layer) (Some (demo_options false))
                (Some "nowhere") None Net_new empty_world
     = (inl (IOError "nowhere/options.pkl"), w1) /\
     fs w1 = fs empty_world).
Proof.
  split.
  - destruct (persisted_options_are_read_back (layer := demo_layer)
                (demo_options false) "out" empty_world)
      as (w1 & Hrun & Hfile & _).
    exists w1. split; [exact Hrun | exact Hfile].
  - destruct (persisted_options_are_read_back (layer := demo_layer)
                (demo_options false) "nowhere" empty_world)
      as (w1 & Hrun & Hfs & _).
    exists w1. split; [exact Hrun | exact Hfs].
Defined.

(** A resumed run whose directory is missing, on the empty world. *)
Lemma missing_inputs_are_fatal_witness :
  exists w',
    Net_init (layer := demo_layer) (Some (demo_options false)) (Some "out")
             (Some "gone") empty_world
    = (inl (IOError "gone/options.pkl"), w') /\
    log w' = [EvRead "gone/options.pkl"].
Proof.
  destruct (missing_inputs_are_fatal (layer := demo_layer)) as (_ & _ & Hio).
  destruct (Hio (demo_options false) "out" "gone" empty_world eq_refl)
    as (w' & Hrun & _ & _ & Hlog).
  exists w'. split; [exact Hrun | exact Hlog].
Defined.

(** The demo [Net] of depth one has two layers and no embedder. *)
Lemma constructed_net_has_depth_plus_one_layers_witness :
  exists D d learn,
    od_get "net_depth" (_options demo_net) = Some D /\
    as_int D = Some d /\ 0 < d /\
    length (_layers demo_net) = Datatypes.S (Z.to_nat d) /\
    od_get "learn_id_embedding" (_options demo_net) = Some learn /\
    (if truthy learn then is_Some (_id_embedder demo_net)
     else _id_embedder demo_net = None).
Proof.
  exact (constructed_net_has_depth_plus_one_layers _ _ _ _ _ _ demo_run_ok).
Defined.

(** The dimensions of the demo inference [Net] are the ones on disk. *)
Lemma dimensions_of_constructed_net_witness :
  exists i t,
    (forall w0, dimensions demo_inference_net w0 = (inr (i, t), w0)) /\
    od_get "input_dim" (_options demo_inference_net) = Some i /\
    od_get "target_dim" (_options demo_inference_net) = Some t.
Proof.
  destruct (dimensions_of_constructed_net _ _ _ _ _ _ demo_inference_ok)
    as (i & t & Hdim & Hi & Ht & _).
  exists i, t. repeat split; assumption.
Defined.

(** The parameters of the demo inference [Net] are those of the archive. *)
Lemma loaded_parameters_come_from_the_archive_witness :
  exists w1 archive,
    np_load "old/params.npz" w1 = (inr archive, demo_loaded_world) /\
    forall k, In k (od_keys (_params demo_loaded_net)) ->
      exists v,
        od_get (str_from (String.length (_pfx demo_configured_net)) k) archive
        = Some v /\
        od_get k (_params demo_loaded_net) = Some v /\
        forall base, k = _pfx demo_configured_net +:+ base ->
                     od_get base archive = Some v.
Proof.
  exact (loaded_parameters_come_from_the_archive "old" _ _ _ _ demo_loaded_ok).
Defined.

(** The forward graph of the demo [Net] is the stack of its two layers. *)
Lemma forward_graph_is_the_vertical_stack_witness :
  _setup_forward_graph demo_shared_net (SPort port_i_input) (SPort port_i_time)
    (SPort port_i_id_idx) (SPort port_i_last_tap) (_v_params demo_shared_net)
    (_v_prev_states demo_shared_net) demo_shared_world
  = stack_layers (fun s_below_tbj => s_below_tbj) None (SPort port_i_last_tap)
      (_v_params demo_shared_net) (_v_prev_states demo_shared_net)
      (_layers demo_shared_net) (SPort port_i_input) [] demo_shared_world.
Proof.
  apply (forward_graph_is_the_vertical_stack demo_shared_net
           (SPort port_i_input) (SPort port_i_time) (SPort port_i_id_idx)
           (SPort port_i_last_tap) (_v_params demo_shared_net)
           (_v_prev_states demo_shared_net) (VBool false) (VInt 1)
           (VBool false) 1 demo_shared_world);
    [reflexivity | reflexivity | reflexivity | reflexivity | lia |
     vm_compute; lia].
Defined.

(** With the clock on and the embedding off the demo functions do not
    compile. *)
Lemma one_sided_switch_never_compiles_witness :
  (forall w f w', compile_f_fwd_propagate clocked_net w <> (inr f, w')) /\
  (forall w f w', compile_f_fwd_bwd_propagate clocked_net w <> (inr f, w')) /\
  (forall w f w', compile_f_fwd_bwd_for_init clocked_net w <> (inr f, w')).
Proof.
  pose proof (one_sided_switch_never_compiles clocked_shared_net clocked_net
                clocked_shared_world clocked_world (VBool true) (VBool false)
                clocked_graph_ok eq_refl eq_refl eq_refl) as Hnever.
  repeat split; intros w f w'; apply (Hnever w f w').
Defined.

(** The snapshot of the demo [Net] restores its parameters. *)
Lemma snapshot_restores_changed_parameters_witness :
  fs demo_saved_world !! "out/params.npz"
  = Some (FNpz (_params demo_saved_net)) /\
  forall w2,
    fs w2 !! "out/params.npz" = fs demo_saved_world !! "out/params.npz" ->
    exists w3,
      load_v_params_from_workspace demo_saved_net None w2 = (inr tt, w3) /\
      fs w3 = fs w2 /\
      (forall k l, In (k, l) (_v_params demo_net) ->
                   heap w3 !! l = heap demo_world !! l) /\
      (forall l, ~ In l (od_values (_v_params demo_net)) ->
                 heap w3 !! l = heap w2 !! l).
Proof.
  exact (snapshot_restores_changed_parameters demo_net demo_saved_net None
           "out" demo_world demo_saved_world eq_refl demo_keys_NoDup
           demo_save_ok).
Defined.

(** The snapshot of the demo [Net], once removed, is gone. *)
Lemma removed_snapshot_cannot_be_loaded_witness :
  exists w2,
    remove_params_file_from_workspace demo_saved_net None demo_saved_world
    = (inr tt, w2) /\
    exists w3,
      load_v_params_from_workspace demo_saved_net None w2
      = (inl (IOError "out/params.npz"), w3).
Proof.
  destruct (removed_snapshot_cannot_be_loaded demo_net demo_saved_net None
              "out" demo_world demo_saved_world eq_refl demo_save_ok)
    as (w2 & Hrm & _ & _ & (w3 & Hload & _) & _).
  exists w2. split; [exact Hrm |]. exists w3. exact Hload.
Defined.

(** One weight matrix of the demo inference [Net], saved on its own. *)
Lemma save_param_writes_one_unprefixed_array_witness :
  let v := T2 [[1; 1; 1; 1]; [1; 1; 1; 1]; [1; 1; 1; 1]] in
  exists w1,
    save_param demo_inference_net "LSTM_0_W" "weights" demo_inference_world
    = (inr tt, w1) /\
    heap w1 = heap demo_inference_world /\
    fs w1 = <[npz_path "weights" := FNpz [("LSTM_0_W", v)]]>
              (fs demo_inference_world) /\
    log w1 = log demo_inference_world ++ [EvWrite (npz_path "weights")] /\
    exists w2,
      np_load (npz_path "weights") w1 = (inr [("LSTM_0_W", v)], w2).
Proof.
  exact (save_param_writes_one_unprefixed_array demo_inference_net
           "LSTM_0_W" "weights" demo_inference_world eq_refl).
Defined.

(** A validation pass on the demo [Net]. *)
Lemma validation_pass_agrees_with_training_pass_witness :
  exists h_fwd,
    call_on demo_fwd demo_args (heap demo_world)
    = inr (demo_bwd_call.1, h_fwd) /\
    (forall l, In l (map fst (_grad_updates demo_net)) ->
               h_fwd !! l = heap demo_world !! l) /\
    (forall l, ~ In l (map fst (_grad_updates demo_net)) ->
               h_fwd !! l = demo_bwd_call.2 !! l).
Proof.
  apply (validation_pass_agrees_with_training_pass demo_net demo_world
           demo_world demo_world demo_fwd demo_fwd_bwd demo_args
           demo_bwd_call.1 (heap demo_world) demo_bwd_call.2).
  - exact demo_fwd_ok.
  - exact demo_fwd_bwd_ok.
  - exact demo_bwd_call_ok.
Defined.

(** The update function of the demo [Net] reads the learning rate. *)
Lemma update_functions_must_read_the_learning_rate_witness :
  exists u, In u (_param_updates demo_net) /\ In port_i_lr (ports_of u.2).
Proof.
  destruct (update_functions_must_read_the_learning_rate demo_net demo_world)
    as (Hv & _ & _).
  destruct (Hv (mkFunction [port_i_lr] [] (_param_updates demo_net))
               demo_world) as (_ & _ & _ & Hu).
  - vm_compute. reflexivity.
  - exact Hu.
Defined.

(** The demo [Net] without learnable initial states. *)
Lemma no_init_state_learning_without_the_option_witness :
  compile_f_fwd_bwd_for_init demo_net demo_world
  = (inl AssertionError, demo_world) /\
  compile_f_update_init_states demo_net demo_world
  = (inl AssertionError, demo_world).
Proof.
  destruct (no_init_state_learning_without_the_option demo_net demo_world
              eq_refl) as [Hoff _].
  exact (Hoff (VBool false) eq_refl eq_refl).
Defined.
